(** * The generic object kernel of Tasks/Task12.py

    A shallow embedding of the classes [General], [Any], [Person], [Car] and
    [Void] and of the operations [General] offers to every object: copy,
    clone, equality, serialization and the assignment attempt.

    Conventions of the embedding:
    - an object is a record of its identity ([id(self)]), its class and its
      instance dictionary ([__dict__], in insertion order);
    - Python values are the JSON-like data the kernel handles, plus objects;
      floats are left out, strings are sequences of code points below 256,
      dictionary keys are strings;
    - a method that can raise returns a [result]; a method that creates an
      object threads the next free identity;
    - a call [self.m(...)] made inside a method looks [m] up on the
      instance first: a field of that name hides the method, and calling
      the field, which is data, raises;
    - strings, lists and dictionaries are values: only objects carry an
      identity, and two pickles are compared by the classes and contents
      they record, in their order;
    - the classes are defined at the top of a module, so that [pickle] finds
      them by name. *)

From Stdlib Require Import List String Ascii ZArith Bool Lia.
From Stdlib Require Import Permutation Sorted HexString DecimalString.
From Stdlib Require OrderedTypeEx.
Import ListNotations.
Local Open Scope string_scope.
Set Warnings "-register-all".

(** ** Classes *)

(** The classes of the module, and the classes a client derives from them:
    [Derived name base] is [class name(base): ...] with no method of its own. *)
Inductive cls : Type :=
| General
| Any
| Person
| Car
| Void
| Derived (name : string) (base : cls).

Definition cls_eq_dec (c d : cls) : {c = d} + {c <> d}.
Proof. decide equality. apply string_dec. Defined.

Definition cls_eqb (c d : cls) : bool :=
  if cls_eq_dec c d then true else false.

(** [cls.__name__] *)
Definition class_name (c : cls) : string :=
  match c with
  | General => "General"
  | Any => "Any"
  | Person => "Person"
  | Car => "Car"
  | Void => "Void"
  | Derived name _ => name
  end.

(** [issubclass(c, d)]: [d] is met when walking up from [c]. *)
Fixpoint issubclass (c d : cls) : bool :=
  cls_eqb c d ||
  match c with
  | General => false
  | Any => cls_eqb General d
  | Person | Car | Void => cls_eqb Any d || cls_eqb General d
  | Derived _ base => issubclass base d
  end.

(** ** Values and objects *)

Inductive value : Type :=
| VNone
| VBool (b : bool)
| VInt (z : Z)
| VStr (s : string)
| VList (items : list value)
| VDict (items : list (string * value))
| VObj (id : nat) (c : cls) (fields : list (string * value)).

Definition dict : Type := list (string * value).

Record entity : Type := mkEntity {
  oid : nat;
  ocls : cls;
  odict : dict
}.

Definition obj (e : entity) : value := VObj (oid e) (ocls e) (odict e).

(** The types [isinstance] is asked about: [object], the built-in types of
    the values, and the classes. *)
Inductive pytype : Type :=
| TObject
| TNoneType
| TBool
| TInt
| TStr
| TList
| TDict
| TClass (c : cls).

Definition type_of (v : value) : pytype :=
  match v with
  | VNone => TNoneType
  | VBool _ => TBool
  | VInt _ => TInt
  | VStr _ => TStr
  | VList _ => TList
  | VDict _ => TDict
  | VObj _ c _ => TClass c
  end.

(** [issubclass] on all types: everything derives from [object], [bool]
    derives from [int]. *)
Definition issubtype (t u : pytype) : bool :=
  match u, t with
  | TObject, _ => true
  | TNoneType, TNoneType => true
  | TBool, TBool => true
  | TInt, (TInt | TBool) => true
  | TStr, TStr => true
  | TList, TList => true
  | TDict, TDict => true
  | TClass d, TClass c => issubclass c d
  | _, _ => false
  end.

Definition isinstance (v : value) (t : pytype) : bool :=
  issubtype (type_of v) t.

(** ** Truth values *)

(** [bool(v)]: [Void.__bool__] answers false, every other object of the
    module is true. *)
Definition py_bool (v : value) : bool :=
  match v with
  | VNone => false
  | VBool b => b
  | VInt z => negb (Z.eqb z 0)
  | VStr s => negb (String.eqb s "")
  | VList xs => negb (Nat.eqb (List.length xs) 0)
  | VDict kvs => negb (Nat.eqb (List.length kvs) 0)
  | VObj _ c _ => negb (issubclass c Void)
  end.

(** ** The Void instance *)

(** [VoidInstance = Void()]: [Void.__init__] sets no attribute. *)
Definition void_id : nat := 0.
Definition VoidInstance : entity := mkEntity void_id Void [].

(** [General.is_void] / [General.is_void_value] *)
Definition is_void_value (v : value) : bool := isinstance v (TClass Void).
Definition is_void (self : entity) : bool := is_void_value (obj self).

(** [General.is_type] and [General.get_real_type] *)
Definition is_type (self : entity) (target_type : pytype) : bool :=
  isinstance (obj self) target_type.
Definition get_real_type (self : entity) : cls := ocls self.

(** ** The assignment attempt *)

(** [General.assignment_attempt(target_type, source)] *)
Definition assignment_attempt (target_type : pytype) (source : value) : value :=
  match source with
  | VNone => obj VoidInstance
  | _ =>
      if isinstance source (TClass Void) then obj VoidInstance
      else if isinstance source target_type then source
      else obj VoidInstance
  end.

(** [General.safe_cast] *)
Definition safe_cast (target_type : pytype) (source : value) : value :=
  assignment_attempt target_type source.

(** [General.try_as] *)
Definition try_as (self : entity) (target_type : pytype) : value :=
  assignment_attempt target_type (obj self).

(** ** Dictionaries *)

Section Dictionaries.
Context {A : Type}.

(** [d.get(k)] *)
Fixpoint lookup (k : string) (d : list (string * A)) : option A :=
  match d with
  | [] => None
  | (k', v) :: rest => if String.eqb k k' then Some v else lookup k rest
  end.

(** [d[k] = v]: an existing key keeps its place, a new key goes last. *)
Fixpoint dict_set (k : string) (v : A) (d : list (string * A))
  : list (string * A) :=
  match d with
  | [] => [(k, v)]
  | (k', v') :: rest =>
      if String.eqb k k' then (k, v) :: rest
      else (k', v') :: dict_set k v rest
  end.

Definition keys (d : list (string * A)) : list string := map fst d.

(** [k in d] *)
Definition has_key (k : string) (d : list (string * A)) : bool :=
  match lookup k d with Some _ => true | None => false end.
End Dictionaries.

(** ** Python's [==] on values *)

(** Numbers compare by value ([True == 1]), containers element by element,
    dictionaries regardless of order, and objects by identity: no class of
    the module defines [__eq__]. *)
Fixpoint py_eq (a b : value) {struct a} : bool :=
  match a, b with
  | VNone, VNone => true
  | VBool x, VBool y => Bool.eqb x y
  | VBool x, VInt y => Z.eqb (Z.b2z x) y
  | VInt x, VBool y => Z.eqb x (Z.b2z y)
  | VInt x, VInt y => Z.eqb x y
  | VStr x, VStr y => String.eqb x y
  | VList xs, VList ys =>
      (fix all2 (xs ys : list value) {struct xs} : bool :=
         match xs, ys with
         | [], [] => true
         | x :: xs', y :: ys' => py_eq x y && all2 xs' ys'
         | _, _ => false
         end) xs ys
  | VDict xs, VDict ys =>
      Nat.eqb (List.length xs) (List.length ys) &&
      (fix each (xs : list (string * value)) {struct xs} : bool :=
         match xs with
         | [] => true
         | (k, v) :: xs' =>
             match lookup k ys with
             | Some w => py_eq v w
             | None => false
             end && each xs'
         end) xs
  | VObj i _ _, VObj j _ _ => Nat.eqb i j
  | _, _ => false
  end.

(** ** Exceptions *)

Inductive exn : Type :=
| TypeError_copy_type (t : pytype)
    (* TypeError(f"Cannot copy to object of different type: {type(target)}") *)
| TypeError_deep_copy_type (t : pytype)
    (* TypeError(f"Cannot deep copy to object of different type: ...") *)
| TypeError_copy_void          (* TypeError("Cannot copy Void object") *)
| TypeError_deep_copy_void     (* TypeError("Cannot deep copy Void object") *)
| TypeError_setattr (name : string)       (* setattr refused the value *)
| AttributeError_setattr (name : string)  (* the attribute is not writable *)
| AttributeError_items         (* obj_data["data"] has no .items() *)
| TypeError_not_serializable   (* json.dumps: Object of type ... is not JSON serializable *)
| JSONDecodeError              (* json.loads; a ValueError *)
| UnpicklingError              (* base64.b64decode or pickle.loads gave up *)
| ValueError_deserialize       (* ValueError("Cannot deserialize the provided data") *)
| TypeError_not_callable (name : string)
    (* self.name(...) where name is a field: the data it holds is not callable *)
| TypeError_slots              (* copyreg: __slots__ without __getstate__ *)
| ValueError_int_digits        (* Exceeds the limit (4300 digits) for integer string conversion *)
| CopyError.                   (* copy.Error: un(deep)copyable object *)

Inductive exn_class : Type := TypeError | ValueError | AttributeError | OtherError.

Definition class_of_exn (e : exn) : exn_class :=
  match e with
  | TypeError_copy_type _ | TypeError_deep_copy_type _
  | TypeError_copy_void | TypeError_deep_copy_void
  | TypeError_setattr _ | TypeError_not_serializable
  | TypeError_not_callable _ | TypeError_slots => TypeError
  | AttributeError_setattr _ | AttributeError_items => AttributeError
  | JSONDecodeError | ValueError_deserialize | ValueError_int_digits => ValueError
  | UnpicklingError | CopyError => OtherError
  end.

Inductive result (A : Type) : Type :=
| Ok (a : A)
| Raise (e : exn).
Arguments Ok {A} a.
Arguments Raise {A} e.

Definition bind {A B : Type} (m : result A) (f : A -> result B) : result B :=
  match m with
  | Ok a => f a
  | Raise e => Raise e
  end.

Notation "x <- m ;; k" := (bind m (fun x => k))
  (at level 61, m at next level, right associativity).
Notation "' p <- m ;; k" := (bind m (fun x => let p := x in k))
  (at level 61, p pattern, m at next level, right associativity).

(** [try: m  except: handler] (a bare [except]) *)
Definition try_except {A : Type} (m : result A) (handler : result A) : result A :=
  match m with
  | Ok a => Ok a
  | Raise _ => handler
  end.

(** [try: m  except (TypeError, ValueError): handler] *)
Definition try_except_TypeError_ValueError {A : Type} (m : result A)
  (handler : result A) : result A :=
  match m with
  | Ok a => Ok a
  | Raise e =>
      match class_of_exn e with
      | TypeError | ValueError => handler
      | _ => Raise e
      end
  end.

(** [try: m  except AttributeError: handler] *)
Definition try_except_AttributeError {A : Type} (m : result A)
  (handler : result A) : result A :=
  match m with
  | Ok a => Ok a
  | Raise e =>
      match class_of_exn e with
      | AttributeError => handler
      | _ => Raise e
      end
  end.

(** [mapM]: the results of [f] on the elements, up to the first that raises. *)
Fixpoint map_result {A B : Type} (f : A -> result B) (l : list A)
  : result (list B) :=
  match l with
  | [] => Ok []
  | x :: rest =>
      y <- f x ;;
      ys <- map_result f rest ;;
      Ok (y :: ys)
  end.

(** [self.name(...)] inside a method: the attribute is looked up on the
    instance first. A field of that name hides the method of the class,
    and the call of the field raises, no value being callable; otherwise
    the method runs. *)
Definition invoke {A : Type} (self : entity) (name : string) (method : result A)
  : result A :=
  if has_key name (odict self) then Raise (TypeError_not_callable name)
  else method.

(** ** The limit on the digits of an integer

    CPython refuses to convert between [int] and [str] beyond
    [sys.int_info.default_max_str_digits] digits. *)
Definition max_str_digits : N := 4300.

Definition int_str_ok (z : Z) : bool :=
  N.leb (N.of_nat (Decimal.nb_digits (N.to_uint (Z.abs_N z)))) max_str_digits.

(** ** Sorting by name *)

(** [sorted(..., key=key)] on strings, which Python orders by code point;
    the sort is stable. *)
Section Sorting.
Context {A : Type} (key : A -> string).

Fixpoint insert_sorted (x : A) (l : list A) : list A :=
  match l with
  | [] => [x]
  | y :: rest =>
      if String.leb (key x) (key y) then x :: l
      else y :: insert_sorted x rest
  end.

Definition sort_by (l : list A) : list A := fold_right insert_sorted [] l.

(** The order [sort_by] sorts into. *)
Definition key_le (x y : A) : Prop := String.leb (key x) (key y) = true.
End Sorting.

Definition sorted_names (l : list string) : list string := sort_by (fun k => k) l.

(** ** Attributes *)

(** [name.startswith("_")] *)
Definition startswith_underscore (name : string) : bool :=
  match name with
  | String c _ => Ascii.eqb c "_"%char
  | EmptyString => false
  end.

(** [setattr(target, name, v)] on an instance of a class of the module.
    Three names are not plain attributes: [__class__] takes a class only,
    which no value is; [__dict__] takes a dictionary and replaces the
    instance dictionary; [__weakref__] is not writable. *)
Definition setattr (target : entity) (name : string) (v : value) : result entity :=
  if String.eqb name "__class__" then Raise (TypeError_setattr name)
  else if String.eqb name "__dict__" then
    match v with
    | VDict d => Ok (mkEntity (oid target) (ocls target) d)
    | _ => Raise (TypeError_setattr name)
    end
  else if String.eqb name "__weakref__" then Raise (AttributeError_setattr name)
  else Ok (mkEntity (oid target) (ocls target) (dict_set name v (odict target))).

(** [cls.__new__(cls)]: a new object with an empty dictionary; [next] is the
    first identity not in use. *)
Definition new (c : cls) (next : nat) : entity * nat :=
  (mkEntity next c [], S next).

(** [dir(self)] without the names that start with an underscore and without
    the callables, that is the methods: the public names of the instance
    dictionary, each once, sorted. *)
Definition public_names (self : entity) : list string :=
  sorted_names
    (filter (fun k => negb (startswith_underscore k))
       (nodup string_dec (keys (odict self)))).

(** ** Rebuilding a value

    What [copy.deepcopy] and [pickle.loads] have in common: an object is
    rebuilt as a new instance of its class whose dictionary is the rebuilt
    old one; [memo] maps the identity of an object already rebuilt to its
    copy. *)
Fixpoint rebuild (v : value) (next : nat) (memo : list (nat * value))
  {struct v} : value * nat * list (nat * value) :=
  match v with
  | VList xs =>
      let '(ys, next', memo') :=
        (fix copy_items (xs : list value) (next : nat) (memo : list (nat * value))
           {struct xs} : list value * nat * list (nat * value) :=
           match xs with
           | [] => ([], next, memo)
           | x :: rest =>
               let '(y, next1, memo1) := rebuild x next memo in
               let '(ys, next2, memo2) := copy_items rest next1 memo1 in
               (y :: ys, next2, memo2)
           end) xs next memo in
      (VList ys, next', memo')
  | VDict kvs =>
      let '(kvs', next', memo') :=
        (fix copy_pairs (kvs : list (string * value)) (next : nat)
           (memo : list (nat * value)) {struct kvs}
           : list (string * value) * nat * list (nat * value) :=
           match kvs with
           | [] => ([], next, memo)
           | (k, x) :: rest =>
               let '(y, next1, memo1) := rebuild x next memo in
               let '(ys, next2, memo2) := copy_pairs rest next1 memo1 in
               ((k, y) :: ys, next2, memo2)
           end) kvs next memo in
      (VDict kvs', next', memo')
  | VObj i c fields =>
      match find (fun p => Nat.eqb (fst p) i) memo with
      | Some (_, y) => (y, next, memo)
      | None =>
          let '(fields', next', memo') :=
            (fix copy_pairs (kvs : list (string * value)) (next : nat)
               (memo : list (nat * value)) {struct kvs}
               : list (string * value) * nat * list (nat * value) :=
               match kvs with
               | [] => ([], next, memo)
               | (k, x) :: rest =>
                   let '(y, next1, memo1) := rebuild x next memo in
                   let '(ys, next2, memo2) := copy_pairs rest next1 memo1 in
                   ((k, y) :: ys, next2, memo2)
               end) fields (S next) memo in
          let y := VObj next c fields' in
          (y, next', (i, y) :: memo')
      end
  | _ => (v, next, memo)
  end.

(** ** copy.deepcopy *)

(** What [copy.deepcopy] asks an object of the module before it copies it:
    [__deepcopy__], then [__reduce_ex__], both looked up on the instance, so
    that a field of that name is called and raises; [object.__reduce_ex__]
    in turn calls [__getstate__] found on the instance. A field
    [__reduce_ex__] that holds [None] sends [copy.deepcopy] to [__reduce__]
    and, with it, to [copyreg._reduce_ex], which refuses a true [__slots__]
    before it calls [__getstate__]. *)
Definition copy_protocol (fields : dict) : result unit :=
  match lookup "__deepcopy__" fields with
  | None | Some VNone =>
      match lookup "__reduce_ex__" fields with
      | None =>
          if has_key "__getstate__" fields
          then Raise (TypeError_not_callable "__getstate__")
          else Ok tt
      | Some VNone =>
          match lookup "__reduce__" fields with
          | None =>
              if match lookup "__slots__" fields with
                 | Some slots => py_bool slots
                 | None => false
                 end
              then Raise TypeError_slots
              else if has_key "__getstate__" fields
              then Raise (TypeError_not_callable "__getstate__")
              else Ok tt
          | Some reduce =>
              if py_bool reduce then Raise (TypeError_not_callable "__reduce__")
              else Raise CopyError
          end
      | Some _ => Raise (TypeError_not_callable "__reduce_ex__")
      end
  | Some _ => Raise (TypeError_not_callable "__deepcopy__")
  end.

(** [copy.deepcopy(v, memo)] *)
Fixpoint deepcopy (v : value) (next : nat) (memo : list (nat * value))
  {struct v} : result (value * nat * list (nat * value)) :=
  match v with
  | VList xs =>
      '(ys, next', memo') <-
        (fix copy_items (xs : list value) (next : nat) (memo : list (nat * value))
           {struct xs} : result (list value * nat * list (nat * value)) :=
           match xs with
           | [] => Ok ([], next, memo)
           | x :: rest =>
               '(y, next1, memo1) <- deepcopy x next memo ;;
               '(ys, next2, memo2) <- copy_items rest next1 memo1 ;;
               Ok (y :: ys, next2, memo2)
           end) xs next memo ;;
      Ok (VList ys, next', memo')
  | VDict kvs =>
      '(kvs', next', memo') <-
        (fix copy_pairs (kvs : list (string * value)) (next : nat)
           (memo : list (nat * value)) {struct kvs}
           : result (list (string * value) * nat * list (nat * value)) :=
           match kvs with
           | [] => Ok ([], next, memo)
           | (k, x) :: rest =>
               '(y, next1, memo1) <- deepcopy x next memo ;;
               '(ys, next2, memo2) <- copy_pairs rest next1 memo1 ;;
               Ok ((k, y) :: ys, next2, memo2)
           end) kvs next memo ;;
      Ok (VDict kvs', next', memo')
  | VObj i c fields =>
      match find (fun p => Nat.eqb (fst p) i) memo with
      | Some (_, y) => Ok (y, next, memo)
      | None =>
          _ <- copy_protocol fields ;;
          '(fields', next', memo') <-
            (fix copy_pairs (kvs : list (string * value)) (next : nat)
               (memo : list (nat * value)) {struct kvs}
               : result (list (string * value) * nat * list (nat * value)) :=
               match kvs with
               | [] => Ok ([], next, memo)
               | (k, x) :: rest =>
                   '(y, next1, memo1) <- deepcopy x next memo ;;
                   '(ys, next2, memo2) <- copy_pairs rest next1 memo1 ;;
                   Ok ((k, y) :: ys, next2, memo2)
               end) fields (S next) memo ;;
          Ok (VObj next c fields', next', (i, VObj next c fields') :: memo')
      end
  | _ => Ok (v, next, memo)
  end.

(** ** Copying *)

(** [General.copy_to]: the loop over [dir(self)]. *)
Fixpoint copy_attrs (self : entity) (names : list string) (target : entity)
  : result entity :=
  match names with
  | [] => Ok target
  | name :: rest =>
      match lookup name (odict self) with
      | Some v =>
          target' <- try_except_AttributeError (setattr target name v) (Ok target) ;;
          copy_attrs self rest target'
      | None => copy_attrs self rest target
      end
  end.

Definition as_entity (v : value) : option entity :=
  match v with
  | VObj i c fields => Some (mkEntity i c fields)
  | _ => None
  end.

(** [General.copy_to(self, target)]; the result is [target] after the call. *)
Definition General_copy_to (self : entity) (target : value) : result entity :=
  if negb (isinstance target (TClass (ocls self))) then
    Raise (TypeError_copy_type (type_of target))
  else
    match as_entity target with
    | Some t => copy_attrs self (public_names self) t
    | None => Raise (TypeError_copy_type (type_of target))
    end.

(** [General.deep_copy_to]: each attribute is copied by a [copy.deepcopy]
    call of its own. *)
Fixpoint deep_copy_attrs (self : entity) (names : list string) (target : entity)
  (next : nat) : result (entity * nat) :=
  match names with
  | [] => Ok (target, next)
  | name :: rest =>
      match lookup name (odict self) with
      | Some v =>
          '(v', next', _) <- deepcopy v next [] ;;
          target' <- try_except_AttributeError (setattr target name v') (Ok target) ;;
          deep_copy_attrs self rest target' next'
      | None => deep_copy_attrs self rest target next
      end
  end.

Definition General_deep_copy_to (self : entity) (target : value) (next : nat)
  : result (entity * nat) :=
  if negb (isinstance target (TClass (ocls self))) then
    Raise (TypeError_deep_copy_type (type_of target))
  else
    match as_entity target with
    | Some t => deep_copy_attrs self (public_names self) t next
    | None => Raise (TypeError_deep_copy_type (type_of target))
    end.

(** [General.clone]: the loop over [self.__dict__.items()]. *)
Fixpoint clone_attrs (items : dict) (cloned : entity) (next : nat)
  : result (entity * nat) :=
  match items with
  | [] => Ok (cloned, next)
  | (attr_name, attr_value) :: rest =>
      '(v', next', _) <- deepcopy attr_value next [] ;;
      cloned' <- setattr cloned attr_name v' ;;
      clone_attrs rest cloned' next'
  end.

Definition General_clone (self : entity) (next : nat) : result (entity * nat) :=
  let '(cloned, next') := new (ocls self) next in
  clone_attrs (odict self) cloned next'.

(** [General.equals] *)
Definition General_equals (self : entity) (other : value) : bool :=
  if negb (isinstance other (TClass (ocls self))) then false
  else
    match as_entity other with
    | Some o => py_eq (VDict (odict self)) (VDict (odict o))
    | None => false
    end.

(** ** The methods of Void *)

Definition Void_copy_to (self : entity) (target : value) : result entity :=
  Raise TypeError_copy_void.

Definition Void_deep_copy_to (self : entity) (target : value) (next : nat)
  : result (entity * nat) :=
  Raise TypeError_deep_copy_void.

Definition Void_clone (self : entity) (next : nat) : result (entity * nat) :=
  Ok (VoidInstance, next).

Definition Void_equals (self : entity) (other : value) : bool :=
  isinstance other (TClass Void).

(** ** Method calls

    [x.m(...)] runs the method of [Void] when [x] is an instance of [Void]
    or of a class derived from it, and the method of [General] otherwise. *)

Definition copy_to (self : entity) (target : value) : result entity :=
  if is_void self then Void_copy_to self target else General_copy_to self target.

Definition deep_copy_to (self : entity) (target : value) (next : nat)
  : result (entity * nat) :=
  if is_void self then Void_deep_copy_to self target next
  else General_deep_copy_to self target next.

Definition clone (self : entity) (next : nat) : result (entity * nat) :=
  if is_void self then Void_clone self next else General_clone self next.

Definition equals (self : entity) (other : value) : bool :=
  if is_void self then Void_equals self other else General_equals self other.

(** ** Textual forms: repr and str *)

Definition newline : string := String (ascii_of_nat 10) "".

Definition hex_digit (n : nat) : ascii :=
  match n with
  | 0 => "0" | 1 => "1" | 2 => "2" | 3 => "3" | 4 => "4" | 5 => "5"
  | 6 => "6" | 7 => "7" | 8 => "8" | 9 => "9" | 10 => "a" | 11 => "b"
  | 12 => "c" | 13 => "d" | 14 => "e" | _ => "f"
  end%char.

(** How [repr] writes one character of a string delimited by [quote]. *)
Definition repr_char (quote c : ascii) : string :=
  let n := nat_of_ascii c in
  if Ascii.eqb c quote || Ascii.eqb c "\"%char then String "\"%char (String c "")
  else if Nat.eqb n 9 then "\t"
  else if Nat.eqb n 10 then "\n"
  else if Nat.eqb n 13 then "\r"
  else if Nat.ltb n 32 || Nat.eqb n 127 ||
          (Nat.leb 128 n && Nat.leb n 160) || Nat.eqb n 173
  then "\x" ++ String (hex_digit (n / 16)) (String (hex_digit (n mod 16)) "")
  else String c "".

Fixpoint contains_char (c : ascii) (s : string) : bool :=
  match s with
  | EmptyString => false
  | String c' rest => Ascii.eqb c c' || contains_char c rest
  end.

(** [repr(s)] for a string: single quotes, unless the string holds a single
    quote and no double quote. *)
Definition repr_str (s : string) : string :=
  let quote :=
    if contains_char "'"%char s && negb (contains_char (ascii_of_nat 34) s)
    then ascii_of_nat 34 else "'"%char in
  String quote
    (String.concat "" (map (repr_char quote) (list_ascii_of_string s)) ++
     String quote "").

(** [repr(z)] for an integer. *)
Definition repr_int (z : Z) : result string :=
  if int_str_ok z then Ok (NilZero.string_of_int (Z.to_int z))
  else Raise ValueError_int_digits.

(** [repr(v)]; an object answers with [General.__repr__] or [Void.__repr__],
    which do not look into its fields. *)
Fixpoint py_repr (v : value) : result string :=
  match v with
  | VNone => Ok "None"
  | VBool true => Ok "True"
  | VBool false => Ok "False"
  | VInt z => repr_int z
  | VStr s => Ok (repr_str s)
  | VList xs =>
      parts <-
        (fix each (xs : list value) : result (list string) :=
           match xs with
           | [] => Ok []
           | x :: rest =>
               s <- py_repr x ;;
               ss <- each rest ;;
               Ok (s :: ss)
           end) xs ;;
      Ok ("[" ++ String.concat ", " parts ++ "]")
  | VDict kvs =>
      parts <-
        (fix each (kvs : list (string * value)) : result (list string) :=
           match kvs with
           | [] => Ok []
           | (k, x) :: rest =>
               s <- py_repr x ;;
               ss <- each rest ;;
               Ok ((repr_str k ++ ": " ++ s) :: ss)
           end) kvs ;;
      Ok ("{" ++ String.concat ", " parts ++ "}")
  | VObj i c _ =>
      Ok (if issubclass c Void then "Void"
          else "<" ++ class_name c ++ " at " ++ HexString.of_nat i ++ ">")
  end.

(** [General.print_object] *)
Definition General_print_object (self : entity) : result string :=
  attributes <-
    map_result
      (fun '(attr_name, attr_value) =>
         s <- py_repr attr_value ;;
         Ok ("  " ++ attr_name ++ ": " ++ s))
      (filter (fun '(attr_name, _) => negb (startswith_underscore attr_name))
              (odict self)) ;;
  let attrs_str :=
    match attributes with
    | [] => " (no attributes) "
    | _ => newline ++ String.concat newline attributes ++ newline
    end in
  Ok (class_name (ocls self) ++ " {" ++ attrs_str ++ "}").

Definition Void_print_object (self : entity) : result string :=
  Ok "Void { (empty) }".

Definition print_object (self : entity) : result string :=
  if is_void self then Void_print_object self else General_print_object self.

(** [str(v)]; an object answers with [General.__str__], which calls
    [self.print_object()], or with [Void.__str__]. *)
Definition py_str (v : value) : result string :=
  match v with
  | VStr s => Ok s
  | VObj i c fields =>
      if issubclass c Void then Ok "Void"
      else
        invoke (mkEntity i c fields) "print_object"
          (print_object (mkEntity i c fields))
  | _ => py_repr v
  end.

(** ** JSON documents and serialized texts *)

(** What a JSON text says; an object keeps its members in the order of the
    text. *)
Inductive json : Type :=
| JNull
| JBool (b : bool)
| JNum (z : Z)
| JStr (s : string)
| JArr (items : list json)
| JObj (members : list (string * json)).

(** A text handed to [deserialize] or made by [serialize], seen through the
    two decoders the code applies to it: [json.loads], and [pickle.loads]
    after [base64.b64decode].  Texts written by the same [json.dumps] call
    are equal exactly when their documents are, and the literal that
    [Void.serialize] returns is the only text here whose ["data"] is null. *)
Inductive text : Type :=
| JsonText (j : json)                     (* JSON only *)
| PickleText (v : value)                  (* the pickle of v, base64; not JSON *)
| JsonPickleText (j : json) (v : value)   (* both decoders accept it *)
| PlainText (s : string).                 (* neither decoder accepts it *)

(** [json.dumps(v, sort_keys=sort_keys)], as a document: an object is not
    serializable, an integer beyond the digit limit cannot be written. *)
Fixpoint json_dumps (sort_keys : bool) (v : value) {struct v} : result json :=
  match v with
  | VNone => Ok JNull
  | VBool b => Ok (JBool b)
  | VInt z => if int_str_ok z then Ok (JNum z) else Raise ValueError_int_digits
  | VStr s => Ok (JStr s)
  | VList xs =>
      items <-
        (fix each (xs : list value) : result (list json) :=
           match xs with
           | [] => Ok []
           | x :: rest =>
               j <- json_dumps sort_keys x ;;
               js <- each rest ;;
               Ok (j :: js)
           end) xs ;;
      Ok (JArr items)
  | VDict kvs =>
      members <-
        (fix each (kvs : list (string * value)) : result (list (string * json)) :=
           match kvs with
           | [] => Ok []
           | (k, x) :: rest =>
               j <- json_dumps sort_keys x ;;
               js <- each rest ;;
               Ok ((k, j) :: js)
           end) kvs ;;
      Ok (JObj (if sort_keys then sort_by fst members else members))
  | VObj _ _ _ => Raise TypeError_not_serializable
  end.

(** [json.loads], from the document: a repeated member name keeps its first
    place and its last value. *)
Fixpoint json_loads (j : json) : value :=
  match j with
  | JNull => VNone
  | JBool b => VBool b
  | JNum z => VInt z
  | JStr s => VStr s
  | JArr items =>
      VList ((fix each (items : list json) : list value :=
                match items with
                | [] => []
                | x :: rest => json_loads x :: each rest
                end) items)
  | JObj members =>
      VDict ((fix build (members : list (string * json)) (acc : dict) : dict :=
                match members with
                | [] => acc
                | (k, x) :: rest => build rest (dict_set k (json_loads x) acc)
                end) members [])
  end.

(** The numbers of a document are within the digit limit. *)
Fixpoint json_ints_ok (j : json) : bool :=
  match j with
  | JNum z => int_str_ok z
  | JArr items =>
      (fix all (items : list json) : bool :=
         match items with
         | [] => true
         | x :: rest => json_ints_ok x && all rest
         end) items
  | JObj members =>
      (fix all (members : list (string * json)) : bool :=
         match members with
         | [] => true
         | (_, x) :: rest => json_ints_ok x && all rest
         end) members
  | _ => true
  end.

(** [json.loads(data)]: a numeral beyond the digit limit is refused. *)
Definition loads_text (data : text) : result value :=
  match data with
  | JsonText j | JsonPickleText j _ =>
      if json_ints_ok j then Ok (json_loads j) else Raise ValueError_int_digits
  | PickleText _ | PlainText _ => Raise JSONDecodeError
  end.

(** [pickle.loads(base64.b64decode(data.encode("utf-8")))]: the objects of a
    pickle are built anew. *)
Definition unpickle_text (data : text) (next : nat) : result (value * nat) :=
  match data with
  | PickleText v | JsonPickleText _ v =>
      let '(v', next', _) := rebuild v next [] in Ok (v', next')
  | JsonText _ | PlainText _ => Raise UnpicklingError
  end.

(** ** Serialization *)

(** What [pickle.dumps] asks of every object it writes: [__reduce_ex__],
    looked up on the instance, so that a field of that name is called and
    raises; [object.__reduce_ex__] in turn calls [__getstate__] found on the
    instance. *)
Definition pickle_protocol (fields : dict) : result unit :=
  if has_key "__reduce_ex__" fields
  then Raise (TypeError_not_callable "__reduce_ex__")
  else if has_key "__getstate__" fields
  then Raise (TypeError_not_callable "__getstate__")
  else Ok tt.

Fixpoint pickle_check (v : value) : result unit :=
  match v with
  | VList xs =>
      (fix each (xs : list value) : result unit :=
         match xs with
         | [] => Ok tt
         | x :: rest => _ <- pickle_check x ;; each rest
         end) xs
  | VDict kvs =>
      (fix each (kvs : list (string * value)) : result unit :=
         match kvs with
         | [] => Ok tt
         | (_, x) :: rest => _ <- pickle_check x ;; each rest
         end) kvs
  | VObj _ _ fields =>
      _ <- pickle_protocol fields ;;
      (fix each (kvs : list (string * value)) : result unit :=
         match kvs with
         | [] => Ok tt
         | (_, x) :: rest => _ <- pickle_check x ;; each rest
         end) fields
  | _ => Ok tt
  end.

(** [base64.b64encode(pickle.dumps(v)).decode("utf-8")] *)
Definition pickle_dumps (v : value) : result text :=
  _ <- pickle_check v ;; Ok (PickleText v).

(** The first loop of [General.serialize]. *)
Fixpoint serializable_dict (items : dict) (acc : dict) : result dict :=
  match items with
  | [] => Ok acc
  | (key, v) :: rest =>
      acc' <-
        try_except_TypeError_ValueError
          (_ <- json_dumps false v ;; Ok (dict_set key v acc))
          (s <- py_str v ;; Ok (dict_set key (VStr s) acc)) ;;
      serializable_dict rest acc'
  end.

(** [General.serialize] *)
Definition General_serialize (self : entity) : result text :=
  try_except
    (data <- serializable_dict (odict self) [] ;;
     j <- json_dumps true
            (VDict [("class", VStr (class_name (ocls self)));
                    ("data", VDict data)]) ;;
     Ok (JsonText j))
    (pickle_dumps (obj self)).

(** [Void.serialize] *)
Definition Void_serialize (self : entity) : result text :=
  Ok (JsonText (JObj [("class", JStr "Void"); ("data", JNull)])).

Definition serialize (self : entity) : result text :=
  if is_void self then Void_serialize self else General_serialize self.

(** [obj_data["data"].items()] *)
Definition dict_items (v : option value) : result dict :=
  match v with
  | Some (VDict d) => Ok d
  | _ => Raise AttributeError_items
  end.

(** The loop of [deserialize] that restores the attributes. *)
Fixpoint restore_attrs (items : dict) (instance : entity) : result entity :=
  match items with
  | [] => Ok instance
  | (key, v) :: rest =>
      instance' <- setattr instance key v ;;
      restore_attrs rest instance'
  end.

(** The first [try] of [General.deserialize]: [Ok None] when it ends without
    returning. *)
Definition deserialize_json (c : cls) (data : text) (next : nat)
  : result (option (value * nat)) :=
  try_except
    (obj_data <- loads_text data ;;
     match obj_data with
     | VDict d =>
         if has_key "class" d && has_key "data" d then
           let '(instance, next') := new c next in
           items <- dict_items (lookup "data" d) ;;
           instance' <- restore_attrs items instance ;;
           Ok (Some (obj instance', next'))
         else Ok None
     | _ => Ok None
     end)
    (Ok None).

(** [cls.deserialize(data)], a class method that no class overrides. *)
Definition deserialize (c : cls) (data : text) (next : nat) : result (value * nat) :=
  r <- deserialize_json c data next ;;
  match r with
  | Some found => Ok found
  | None => try_except (unpickle_text data next) (Raise ValueError_deserialize)
  end.

(** ** Equality of texts *)

Fixpoint json_eqb (a b : json) {struct a} : bool :=
  match a, b with
  | JNull, JNull => true
  | JBool x, JBool y => Bool.eqb x y
  | JNum x, JNum y => Z.eqb x y
  | JStr x, JStr y => String.eqb x y
  | JArr xs, JArr ys =>
      (fix all2 (xs ys : list json) {struct xs} : bool :=
         match xs, ys with
         | [], [] => true
         | x :: xs', y :: ys' => json_eqb x y && all2 xs' ys'
         | _, _ => false
         end) xs ys
  | JObj xs, JObj ys =>
      (fix all2 (xs ys : list (string * json)) {struct xs} : bool :=
         match xs, ys with
         | [], [] => true
         | (k, x) :: xs', (l, y) :: ys' =>
             String.eqb k l && json_eqb x y && all2 xs' ys'
         | _, _ => false
         end) xs ys
  | _, _ => false
  end.

(** The same pickle: the same classes and contents, whatever the identities. *)
Fixpoint same_pickle (a b : value) {struct a} : bool :=
  match a, b with
  | VNone, VNone => true
  | VBool x, VBool y => Bool.eqb x y
  | VInt x, VInt y => Z.eqb x y
  | VStr x, VStr y => String.eqb x y
  | VList xs, VList ys =>
      (fix all2 (xs ys : list value) {struct xs} : bool :=
         match xs, ys with
         | [], [] => true
         | x :: xs', y :: ys' => same_pickle x y && all2 xs' ys'
         | _, _ => false
         end) xs ys
  | VDict xs, VDict ys =>
      (fix all2 (xs ys : list (string * value)) {struct xs} : bool :=
         match xs, ys with
         | [], [] => true
         | (k, x) :: xs', (l, y) :: ys' =>
             String.eqb k l && same_pickle x y && all2 xs' ys'
         | _, _ => false
         end) xs ys
  | VObj _ c xs, VObj _ d ys =>
      cls_eqb c d &&
      (fix all2 (xs ys : list (string * value)) {struct xs} : bool :=
         match xs, ys with
         | [], [] => true
         | (k, x) :: xs', (l, y) :: ys' =>
             String.eqb k l && same_pickle x y && all2 xs' ys'
         | _, _ => false
         end) xs ys
  | _, _ => false
  end.

(** [a == b] on serialized texts. *)
Definition text_eqb (a b : text) : bool :=
  match a, b with
  | JsonText x, JsonText y => json_eqb x y
  | PickleText x, PickleText y => same_pickle x y
  | JsonPickleText x v, JsonPickleText y w => json_eqb x y && same_pickle v w
  | PlainText x, PlainText y => String.eqb x y
  | _, _ => false
  end.

(** ** Deep equality *)

(** [General.deep_equals]; [self.serialize()] and [other.serialize()] are
    calls through the two instances. *)
Definition General_deep_equals (self : entity) (other : value) : bool :=
  if negb (isinstance other (TClass (ocls self))) then false
  else
    match as_entity other with
    | Some o =>
        match (a <- invoke self "serialize" (serialize self) ;;
               b <- invoke o "serialize" (serialize o) ;;
               Ok (text_eqb a b)) with
        | Ok r => r
        | Raise _ => py_eq (VDict (odict self)) (VDict (odict o))
        end
    | None => false
    end.

Definition Void_deep_equals (self : entity) (other : value) : bool :=
  isinstance other (TClass Void).

Definition deep_equals (self : entity) (other : value) : bool :=
  if is_void self then Void_deep_equals self other
  else General_deep_equals self other.

(** ** The safe operations *)

(** What a safe operation hands back: the text or the object of the strict
    operation, or a flag. *)
Inductive answer : Type :=
| AText (t : text)
| AValue (v : value).

(** [General.safe_serialize] *)
Definition safe_serialize (self : entity) : result answer :=
  try_except
    (t <- invoke self "serialize" (serialize self) ;; Ok (AText t))
    (Ok (AValue (obj VoidInstance))).

(** [General.safe_deserialize] *)
Definition safe_deserialize (c : cls) (data : text) (next : nat)
  : result (value * nat) :=
  try_except
    (deserialize c data next)
    (Ok (obj VoidInstance, next)).

(** [Any.safe_copy_to]: the flag, and [target] after the call. *)
Definition safe_copy_to (self : entity) (target : value) : result (bool * value) :=
  try_except
    (t <- invoke self "copy_to" (copy_to self target) ;; Ok (true, obj t))
    (Ok (false, target)).

(** [Any.try_clone] *)
Definition try_clone (self : entity) (next : nat) : result (value * nat) :=
  try_except
    ('(c, next') <- invoke self "clone" (clone self next) ;; Ok (obj c, next'))
    (Ok (obj VoidInstance, next)).

(** * Properties *)

Local Open Scope list_scope.

(** ** Sample objects *)

Definition class_A : cls := Derived "A" Any.
Definition class_B : cls := Derived "B" Any.
Definition class_A1 : cls := Derived "A1" class_A.

Definition sample_person : entity :=
  mkEntity 10 Person
    [("_metadata", VDict []); ("_created_at", VNone);
     ("name", VStr "Anna"); ("age", VInt 25)].

Definition sample_car : entity :=
  mkEntity 11 Car
    [("_metadata", VDict []); ("_created_at", VNone);
     ("brand", VStr "Toyota"); ("model", VStr "Camry"); ("year", VInt 2020)].

Definition sample_A (i : nat) (n : Z) : entity :=
  mkEntity i class_A [("value", VInt n)].
Definition sample_B (i : nat) (n : Z) : entity :=
  mkEntity i class_B [("value", VInt n)].
Definition sample_A1 (i : nat) (n : Z) : entity :=
  mkEntity i class_A1 [("value", VInt n)].

(** An object whose [print_object] is hidden by a field, so that its [str]
    raises, and two objects of one class that hold it, with the same
    fields set in two orders. *)
Definition sample_mute : entity :=
  mkEntity 15 Person [("print_object", VInt 1)].
Definition sample_ab : entity :=
  mkEntity 16 class_A [("friend", obj sample_mute); ("b", VInt 1)].
Definition sample_ba : entity :=
  mkEntity 17 class_A [("b", VInt 1); ("friend", obj sample_mute)].

(** ** Shapes of values *)

(** Each name once. *)
Fixpoint distinct (l : list string) : bool :=
  match l with
  | [] => true
  | k :: rest => negb (existsb (String.eqb k) rest) && distinct rest
  end.

(** Every dictionary inside [v], the instance dictionaries included, holds
    each of its keys once, as a Python dictionary does. *)
Fixpoint well_formed (v : value) : bool :=
  match v with
  | VList xs =>
      (fix all (xs : list value) : bool :=
         match xs with
         | [] => true
         | x :: rest => well_formed x && all rest
         end) xs
  | VDict kvs | VObj _ _ kvs =>
      distinct (keys kvs) &&
      (fix all (kvs : list (string * value)) : bool :=
         match kvs with
         | [] => true
         | (_, x) :: rest => well_formed x && all rest
         end) kvs
  | _ => true
  end.

(** Data only: no object anywhere inside [v]. *)
Fixpoint plain (v : value) : bool :=
  match v with
  | VList xs =>
      (fix all (xs : list value) : bool :=
         match xs with
         | [] => true
         | x :: rest => plain x && all rest
         end) xs
  | VDict kvs =>
      (fix all (kvs : list (string * value)) : bool :=
         match kvs with
         | [] => true
         | (_, x) :: rest => plain x && all rest
         end) kvs
  | VObj _ _ _ => false
  | _ => true
  end.

(** The fields of [x] hold data only. *)
Definition plain_fields (x : entity) : bool :=
  forallb (fun kv => plain (snd kv)) (odict x).

(** The names [setattr] does not store as plain attributes. *)
Definition reserved_name (name : string) : bool :=
  String.eqb name "__class__" || String.eqb name "__dict__" ||
  String.eqb name "__weakref__".

(** No field of [x] has a reserved name. *)
Definition settable_fields (x : entity) : bool :=
  forallb (fun kv => negb (reserved_name (fst kv))) (odict x).

(** An object that holds another object, and one with a field that
    [setattr] refuses. *)
Definition sample_holder : entity :=
  mkEntity 12 Person [("name", VStr "Boss"); ("friend", obj sample_person)].
Definition sample_odd : entity :=
  mkEntity 13 Person [("__class__", VInt 1)].

(** ** The loops of json.dumps and json.loads, by name *)

Fixpoint dump_items (sort_keys : bool) (xs : list value) : result (list json) :=
  match xs with
  | [] => Ok []
  | x :: rest =>
      j <- json_dumps sort_keys x ;;
      js <- dump_items sort_keys rest ;;
      Ok (j :: js)
  end.

Fixpoint dump_members (sort_keys : bool) (kvs : list (string * value))
  : result (list (string * json)) :=
  match kvs with
  | [] => Ok []
  | (k, x) :: rest =>
      j <- json_dumps sort_keys x ;;
      js <- dump_members sort_keys rest ;;
      Ok ((k, j) :: js)
  end.

Fixpoint build_members (members : list (string * json)) (acc : dict) : dict :=
  match members with
  | [] => acc
  | (k, x) :: rest => build_members rest (dict_set k (json_loads x) acc)
  end.

(** What the first loop of [General.serialize] stores for a field. *)
Definition json_ready (v : value) : result value :=
  match json_dumps false v with
  | Ok _ => Ok v
  | Raise _ => s <- py_str v ;; Ok (VStr s)
  end.

(** The field can be written: it is JSON, or it has a [str]. *)
Definition writable (v : value) : bool :=
  match json_ready v with
  | Ok _ => true
  | Raise _ => false
  end.

(** Every field of [x] can be written, so that [General.serialize] writes
    JSON and does not fall back to the pickle. *)
Definition writable_fields (x : entity) : bool :=
  forallb (fun kv => writable (snd kv)) (odict x).

(** What [General.serialize] writes for a field that can be written. *)
Definition field_json (v : value) : json :=
  match json_dumps true v with
  | Ok j => j
  | Raise _ =>
      match py_str v with
      | Ok s => JStr s
      | Raise _ => JNull
      end
  end.

Definition data_members (d : dict) : list (string * json) :=
  sort_by fst (map (fun kv => (fst kv, field_json (snd kv))) d).

(** The document [General.serialize] writes for [x]. *)
Definition document (x : entity) : json :=
  JObj [("class", JStr (class_name (ocls x)));
        ("data", JObj (data_members (odict x)))].

(** The fields [deserialize] restores from the document of an object with
    the dictionary [d]. *)
Definition loaded_fields (d : dict) : dict :=
  map (fun kj => (fst kj, json_loads (snd kj))) (data_members d).

(** The document of the literal [Void.serialize] returns. *)
Definition void_document : json :=
  JObj [("class", JStr "Void"); ("data", JNull)].

(** The integers inside [v], outside the objects it holds, are within the
    digit limit. *)
Fixpoint ints_ok (v : value) : bool :=
  match v with
  | VInt z => int_str_ok z
  | VList xs =>
      (fix all (xs : list value) : bool :=
         match xs with
         | [] => true
         | x :: rest => ints_ok x && all rest
         end) xs
  | VDict kvs =>
      (fix all (kvs : list (string * value)) : bool :=
         match kvs with
         | [] => true
         | (_, x) :: rest => ints_ok x && all rest
         end) kvs
  | _ => true
  end.

(** What [json.dumps] accepts: data only, with integers within the limit. *)
Definition jsonable (v : value) : bool := plain v && ints_ok v.

Definition jsonable_fields (x : entity) : bool :=
  forallb (fun kv => jsonable (snd kv)) (odict x).

(** [json.dumps] returns on what is [jsonable] and raises a type error or a
    value error on anything else, with or without [sort_keys]. *)
Definition dumps_outcome {A : Type} (r : result A) (accepted : bool) : Prop :=
  match r with
  | Ok _ => accepted = true
  | Raise e =>
      (e = TypeError_not_serializable \/ e = ValueError_int_digits) /\
      accepted = false
  end.

(** No object inside [v] has a field that [copy.deepcopy] would call. *)
Fixpoint copy_hook_free (v : value) : bool :=
  match v with
  | VList xs =>
      (fix all (xs : list value) : bool :=
         match xs with
         | [] => true
         | x :: rest => copy_hook_free x && all rest
         end) xs
  | VDict kvs =>
      (fix all (kvs : list (string * value)) : bool :=
         match kvs with
         | [] => true
         | (_, x) :: rest => copy_hook_free x && all rest
         end) kvs
  | VObj _ _ kvs =>
      match copy_protocol kvs with Ok _ => true | Raise _ => false end &&
      (fix all (kvs : list (string * value)) : bool :=
         match kvs with
         | [] => true
         | (_, x) :: rest => copy_hook_free x && all rest
         end) kvs
  | _ => true
  end.

(** The values [x] holds can be deep-copied. *)
Definition copyable_fields (x : entity) : bool :=
  forallb (fun kv => copy_hook_free (snd kv)) (odict x).

(** ** Induction on values *)

Section ValueInduction.
Variable P : value -> Prop.
Hypothesis HNone : P VNone.
Hypothesis HBool : forall b, P (VBool b).
Hypothesis HInt : forall z, P (VInt z).
Hypothesis HStr : forall s, P (VStr s).
Hypothesis HList : forall xs, Forall P xs -> P (VList xs).
Hypothesis HDict :
  forall kvs, Forall (fun kv => P (snd kv)) kvs -> P (VDict kvs).
Hypothesis HObj :
  forall i c kvs, Forall (fun kv => P (snd kv)) kvs -> P (VObj i c kvs).

Fixpoint value_nested_ind (v : value) : P v :=
  match v with
  | VNone => HNone
  | VBool b => HBool b
  | VInt z => HInt z
  | VStr s => HStr s
  | VList xs =>
      HList xs
        ((fix go (xs : list value) : Forall P xs :=
            match xs with
            | [] => Forall_nil _
            | x :: rest => Forall_cons x (value_nested_ind x) (go rest)
            end) xs)
  | VDict kvs =>
      HDict kvs
        ((fix go (kvs : list (string * value))
            : Forall (fun kv => P (snd kv)) kvs :=
            match kvs with
            | [] => Forall_nil _
            | kv :: rest => Forall_cons kv (value_nested_ind (snd kv)) (go rest)
            end) kvs)
  | VObj i c kvs =>
      HObj i c kvs
        ((fix go (kvs : list (string * value))
            : Forall (fun kv => P (snd kv)) kvs :=
            match kvs with
            | [] => Forall_nil _
            | kv :: rest => Forall_cons kv (value_nested_ind (snd kv)) (go rest)
            end) kvs)
  end.
End ValueInduction.

(** ** Induction on documents *)

Section JsonInduction.
Variable P : json -> Prop.
Hypothesis HNull : P JNull.
Hypothesis HBool : forall b, P (JBool b).
Hypothesis HNum : forall z, P (JNum z).
Hypothesis HStr : forall s, P (JStr s).
Hypothesis HArr : forall items, Forall P items -> P (JArr items).
Hypothesis HObj :
  forall members, Forall (fun kj => P (snd kj)) members -> P (JObj members).

Fixpoint json_nested_ind (j : json) : P j :=
  match j with
  | JNull => HNull
  | JBool b => HBool b
  | JNum z => HNum z
  | JStr s => HStr s
  | JArr items =>
      HArr items
        ((fix go (items : list json) : Forall P items :=
            match items with
            | [] => Forall_nil _
            | x :: rest => Forall_cons x (json_nested_ind x) (go rest)
            end) items)
  | JObj members =>
      HObj members
        ((fix go (members : list (string * json))
            : Forall (fun kj => P (snd kj)) members :=
            match members with
            | [] => Forall_nil _
            | kj :: rest => Forall_cons kj (json_nested_ind (snd kj)) (go rest)
            end) members)
  end.
End JsonInduction.

(** ** Metadata and constructors *)

(** What the metadata methods raise. *)
Inductive meta_exn : Type :=
| TypeError_item_assignment   (* self._metadata[key] = value, on no dictionary *)
| AttributeError_get          (* self._metadata has no attribute get *)
| TypeError_data_called.      (* an attribute that holds data was called *)

Inductive outcome (A : Type) : Type :=
| Done (a : A)
| Failed (e : meta_exn).
Arguments Done {A} a.
Arguments Failed {A} e.

(** [self.name = v] for a name written in the source: a plain attribute. *)
Definition assign (self : entity) (name : string) (v : value) : entity :=
  mkEntity (oid self) (ocls self) (dict_set name v (odict self)).

(** [Any.__init__] *)
Definition Any_init (self : entity) : entity :=
  assign (assign self "_metadata" (VDict [])) "_created_at" VNone.

(** [Person(name, age)] *)
Definition Person_new (name age : value) (next : nat) : entity * nat :=
  let '(self, next') := new Person next in
  (assign (assign (Any_init self) "name" name) "age" age, next').

(** [Car(brand, model, year)] *)
Definition Car_new (brand model year : value) (next : nat) : entity * nat :=
  let '(self, next') := new Car next in
  (assign (assign (assign (Any_init self) "brand" brand) "model" model)
     "year" year, next').

(** [Any.set_metadata]; the result is [self] after the call. *)
Definition set_metadata (self : entity) (key : string) (v : value)
  : outcome entity :=
  let self1 :=
    if negb (has_key "_metadata" (odict self))
    then assign self "_metadata" (VDict [])
    else self in
  match lookup "_metadata" (odict self1) with
  | Some (VDict d) => Done (assign self1 "_metadata" (VDict (dict_set key v d)))
  | _ => Failed TypeError_item_assignment
  end.

(** [Any.get_metadata] *)
Definition get_metadata (self : entity) (key : string) : outcome value :=
  if negb (has_key "_metadata" (odict self)) then Done VNone
  else
    match lookup "_metadata" (odict self) with
    | Some (VDict d) =>
        Done (match lookup key d with Some v => v | None => VNone end)
    | Some (VObj _ _ fields) =>
        if has_key "get" fields then Failed TypeError_data_called
        else Failed AttributeError_get
    | _ => Failed AttributeError_get
    end.

(** [self.name(...)] inside a metadata method. *)
Definition invoke_meta {A : Type} (self : entity) (name : string)
  (method : outcome A) : outcome A :=
  if has_key name (odict self) then Failed TypeError_data_called else method.

(** [Any.safe_set_metadata]: the flag, and [self] after the call. *)
Definition safe_set_metadata (self : entity) (key : string) (v : value)
  : bool * entity :=
  match invoke_meta self "set_metadata" (set_metadata self key v) with
  | Done self' => (true, self')
  | Failed _ => (false, self)
  end.

(** [Any.try_get_metadata] *)
Definition try_get_metadata (self : entity) (key : string)
  (expected_type : pytype) : outcome value :=
  match invoke_meta self "get_metadata" (get_metadata self key) with
  | Done VNone => Done (obj VoidInstance)
  | Done v => Done (assignment_attempt expected_type v)
  | Failed e => Failed e
  end.

(** ** Identities inside a value *)

(** Every object inside [v] has an identity not below [n]. *)
Fixpoint ids_at_least (n : nat) (v : value) : bool :=
  match v with
  | VList xs =>
      (fix all (xs : list value) : bool :=
         match xs with
         | [] => true
         | x :: rest => ids_at_least n x && all rest
         end) xs
  | VDict kvs =>
      (fix all (kvs : list (string * value)) : bool :=
         match kvs with
         | [] => true
         | (_, x) :: rest => ids_at_least n x && all rest
         end) kvs
  | VObj i _ kvs =>
      Nat.leb n i &&
      (fix all (kvs : list (string * value)) : bool :=
         match kvs with
         | [] => true
         | (_, x) :: rest => ids_at_least n x && all rest
         end) kvs
  | _ => true
  end.

(** Every object inside [v] has an identity below [n]. *)
Fixpoint ids_below (n : nat) (v : value) : bool :=
  match v with
  | VList xs =>
      (fix all (xs : list value) : bool :=
         match xs with
         | [] => true
         | x :: rest => ids_below n x && all rest
         end) xs
  | VDict kvs =>
      (fix all (kvs : list (string * value)) : bool :=
         match kvs with
         | [] => true
         | (_, x) :: rest => ids_below n x && all rest
         end) kvs
  | VObj i _ kvs =>
      Nat.ltb i n &&
      (fix all (kvs : list (string * value)) : bool :=
         match kvs with
         | [] => true
         | (_, x) :: rest => ids_below n x && all rest
         end) kvs
  | _ => true
  end.

(** ** The loops of copy.deepcopy, by name *)

Fixpoint copy_items (xs : list value) (next : nat) (memo : list (nat * value))
  : list value * nat * list (nat * value) :=
  match xs with
  | [] => ([], next, memo)
  | x :: rest =>
      let '(y, next1, memo1) := rebuild x next memo in
      let '(ys, next2, memo2) := copy_items rest next1 memo1 in
      (y :: ys, next2, memo2)
  end.

Fixpoint copy_pairs (kvs : list (string * value)) (next : nat)
  (memo : list (nat * value))
  : list (string * value) * nat * list (nat * value) :=
  match kvs with
  | [] => ([], next, memo)
  | (k, x) :: rest =>
      let '(y, next1, memo1) := rebuild x next memo in
      let '(ys, next2, memo2) := copy_pairs rest next1 memo1 in
      ((k, y) :: ys, next2, memo2)
  end.

Fixpoint deepcopy_items (xs : list value) (next : nat) (memo : list (nat * value))
  : result (list value * nat * list (nat * value)) :=
  match xs with
  | [] => Ok ([], next, memo)
  | x :: rest =>
      '(y, next1, memo1) <- deepcopy x next memo ;;
      '(ys, next2, memo2) <- deepcopy_items rest next1 memo1 ;;
      Ok (y :: ys, next2, memo2)
  end.

Fixpoint deepcopy_pairs (kvs : list (string * value)) (next : nat)
  (memo : list (nat * value))
  : result (list (string * value) * nat * list (nat * value)) :=
  match kvs with
  | [] => Ok ([], next, memo)
  | (k, x) :: rest =>
      '(y, next1, memo1) <- deepcopy x next memo ;;
      '(ys, next2, memo2) <- deepcopy_pairs rest next1 memo1 ;;
      Ok ((k, y) :: ys, next2, memo2)
  end.

(** A store says which object each identity stands for; [v] agrees with it
    when every object inside [v] is the object the store has under its
    identity. *)
Definition store : Type := nat -> option (cls * dict).

Fixpoint agrees (h : store) (v : value) : Prop :=
  match v with
  | VList xs =>
      (fix all (xs : list value) : Prop :=
         match xs with
         | [] => True
         | x :: rest => agrees h x /\ all rest
         end) xs
  | VDict kvs =>
      (fix all (kvs : list (string * value)) : Prop :=
         match kvs with
         | [] => True
         | (_, x) :: rest => agrees h x /\ all rest
         end) kvs
  | VObj i c kvs =>
      h i = Some (c, kvs) /\
      (fix all (kvs : list (string * value)) : Prop :=
         match kvs with
         | [] => True
         | (_, x) :: rest => agrees h x /\ all rest
         end) kvs
  | _ => True
  end.

(** The fields of [x] agree with the store. *)
Definition fields_agree (h : store) (x : entity) : Prop :=
  Forall (fun kv => agrees h (snd kv)) (odict x).

(** Every copy the memo holds has its objects at [base] or above. *)
Definition memo_fresh (base : nat) (memo : list (nat * value)) : Prop :=
  Forall (fun p => ids_at_least base (snd p) = true) memo.

(** Every copy the memo holds is a copy of the object the store has under
    that identity. *)
Definition memo_ok (h : store) (memo : list (nat * value)) : Prop :=
  Forall (fun p => exists c fs,
            h (fst p) = Some (c, fs) /\
            same_pickle (VObj (fst p) c fs) (snd p) = true) memo.

(** Field by field: the same names, and values that are the same pickle. *)
Definition same_fields (a b : dict) : Prop :=
  Forall2 (fun p q => fst p = fst q /\ same_pickle (snd p) (snd q) = true) a b.

(** What rebuilding a value keeps: fresh identities, and contents. *)
Definition copies_fresh (v : value) : Prop :=
  forall base next memo v' next' memo',
    base <= next -> memo_fresh base memo ->
    rebuild v next memo = (v', next', memo') ->
    next <= next' /\ ids_at_least base v' = true /\ memo_fresh base memo'.

Definition copies_same (h : store) (v : value) : Prop :=
  forall next memo v' next' memo',
    agrees h v -> memo_ok h memo ->
    rebuild v next memo = (v', next', memo') ->
    same_pickle v v' = true /\ memo_ok h memo'.

(** The store that holds the given objects. *)
Definition store_of (l : list entity) : store :=
  fun i =>
    match find (fun e => Nat.eqb (oid e) i) l with
    | Some e => Some (ocls e, odict e)
    | None => None
    end.

(** The store of the sample objects. *)
Definition sample_store : store :=
  store_of [sample_person; sample_car; sample_holder; sample_mute;
            sample_ab; sample_ba].

(** ** What is recorded, written and pickled *)

(** What a pickle records of [v]: the classes and the contents, not the
    identities. *)
Fixpoint pickled (v : value) : value :=
  match v with
  | VList xs => VList (map pickled xs)
  | VDict kvs => VDict (map (fun kv => (fst kv, pickled (snd kv))) kvs)
  | VObj _ c kvs => VObj 0 c (map (fun kv => (fst kv, pickled (snd kv))) kvs)
  | _ => v
  end.

(** [None], a truth value, an integer or a string: what [copy.deepcopy]
    hands back as it is. *)
Definition atomic (v : value) : bool :=
  match v with
  | VList _ | VDict _ | VObj _ _ _ => false
  | _ => true
  end.

(** [str(v)] returns. *)
Definition has_str (v : value) : bool :=
  match py_str v with
  | Ok _ => true
  | Raise _ => false
  end.

(** The loops of [pickle_check], by name. *)
Fixpoint check_items (xs : list value) : result unit :=
  match xs with
  | [] => Ok tt
  | x :: rest => _ <- pickle_check x ;; check_items rest
  end.

Fixpoint check_pairs (kvs : list (string * value)) : result unit :=
  match kvs with
  | [] => Ok tt
  | (_, x) :: rest => _ <- pickle_check x ;; check_pairs rest
  end.

(** What the first loop of [General.serialize] stores for a field that can
    be written. *)
Definition stored (v : value) : value :=
  match json_ready v with
  | Ok w => w
  | Raise _ => VNone
  end.

(** The public fields of a dictionary hold no integer that [repr] refuses. *)
Definition public_ints_ok (fields : dict) : bool :=
  forallb (fun kv => startswith_underscore (fst kv) || ints_ok (snd kv)) fields.

(** ** Classes and instances *)

Lemma cls_eqb_refl (c : cls) : cls_eqb c c = true.
Proof. unfold cls_eqb. destruct (cls_eq_dec c c); congruence. Qed.

Lemma cls_eqb_eq (c d : cls) : cls_eqb c d = true <-> c = d.
Proof. unfold cls_eqb. destruct (cls_eq_dec c d); split; congruence. Qed.

Lemma issubclass_refl (c : cls) : issubclass c c = true.
Proof. destruct c; simpl; rewrite ?cls_eqb_refl; reflexivity. Qed.

Lemma isinstance_entity (v : value) (c : cls) :
  isinstance v (TClass c) = true ->
  exists e, v = obj e /\ issubclass (ocls e) c = true.
Proof.
  destruct v as [| | | | | |i d fs]; simpl; try discriminate.
  intros H. exists (mkEntity i d fs). split; [reflexivity|exact H].
Qed.

Lemma as_entity_obj (e : entity) : as_entity (obj e) = Some e.
Proof. destruct e; reflexivity. Qed.

(** ** The assignment attempt *)

(** C1, counterexample: [Void()] makes a second object of class [Void].
    It is an instance of the target type [Void], and of [Any], yet the
    attempt does not hand it back: it hands back the Void instance, which
    is another object. *)
Lemma assignment_attempt_replaces_a_void :
  isinstance (VObj 5 Void []) (TClass Void) = true /\
  isinstance (VObj 5 Void []) (TClass Any) = true /\
  assignment_attempt (TClass Void) (VObj 5 Void []) = obj VoidInstance /\
  assignment_attempt (TClass Any) (VObj 5 Void []) = obj VoidInstance /\
  obj VoidInstance <> VObj 5 Void [].
Proof. repeat split. discriminate. Qed.

(** C1. The assignment attempt hands back the source itself when the source
    is not a Void and is an instance of the target type (of that class or
    of a class derived from it); it hands back the Void instance in every
    other case: for a source that is not an instance of the target type,
    for every Void, whatever the target type, and for [None]. It has a
    value for every source, and [safe_cast] and [try_as] are the same
    function. *)
Theorem assignment_attempt_returns_source_or_void :
  forall (target_type : pytype) (source : value),
    (source <> VNone ->
     is_void_value source = false ->
     isinstance source target_type = true ->
     assignment_attempt target_type source = source) /\
    (isinstance source target_type = false ->
     assignment_attempt target_type source = obj VoidInstance) /\
    (is_void_value source = true ->
     assignment_attempt target_type source = obj VoidInstance) /\
    assignment_attempt target_type VNone = obj VoidInstance /\
    safe_cast target_type source = assignment_attempt target_type source /\
    (forall self, obj self = source ->
       try_as self target_type = assignment_attempt target_type source).
Proof.
  intros T source. unfold is_void_value.
  split; [|split; [|split; [|split; [|split]]]].
  - intros Hnone Hvoid Hin. unfold assignment_attempt.
    destruct source; try congruence; rewrite Hvoid, Hin; reflexivity.
  - intros Hout. unfold assignment_attempt.
    destruct source; try reflexivity;
      destruct (isinstance _ (TClass Void)); try reflexivity;
      rewrite Hout; reflexivity.
  - intros Hvoid. unfold assignment_attempt.
    destruct source; try reflexivity; rewrite Hvoid; reflexivity.
  - reflexivity.
  - reflexivity.
  - intros self <-. reflexivity.
Qed.

Lemma assignment_attempt_returns_source_or_void_witness :
  assignment_attempt (TClass Any) (obj sample_person) = obj sample_person /\
  assignment_attempt (TClass Car) (obj sample_person) = obj VoidInstance /\
  assignment_attempt (TClass Any) (VObj 5 Void []) = obj VoidInstance.
Proof.
  split; [|split].
  - apply (proj1 (assignment_attempt_returns_source_or_void
                    (TClass Any) (obj sample_person)));
      [discriminate | reflexivity | reflexivity].
  - apply (proj1 (proj2 (assignment_attempt_returns_source_or_void
                           (TClass Car) (obj sample_person))));
      reflexivity.
  - apply (proj1 (proj2 (proj2 (assignment_attempt_returns_source_or_void
                                  (TClass Any) (VObj 5 Void [])))));
      reflexivity.
Defined.

(** ** Void *)

(** C4. Cloning the Void instance gives the Void instance itself, any number
    of times, and its [copy_to] and [deep_copy_to] raise their error for
    every target. *)
Theorem void_clone_is_itself_and_copy_raises :
  (forall next, clone VoidInstance next = Ok (VoidInstance, next)) /\
  (forall next,
     ('(c, next') <- clone VoidInstance next ;; clone c next')
     = Ok (VoidInstance, next)) /\
  (forall target, copy_to VoidInstance target = Raise TypeError_copy_void) /\
  (forall target next,
     deep_copy_to VoidInstance target next = Raise TypeError_deep_copy_void) /\
  class_of_exn TypeError_copy_void = TypeError /\
  class_of_exn TypeError_deep_copy_void = TypeError.
Proof. repeat split. Qed.

(** ** Dictionaries and sorted names *)

Lemma lookup_dict_set {A : Type} (k k' : string) (v : A) (d : list (string * A)) :
  lookup k (dict_set k' v d) = if String.eqb k k' then Some v else lookup k d.
Proof.
  induction d as [|[k0 v0] d IH]; simpl.
  - reflexivity.
  - destruct (String.eqb k' k0) eqn:E; simpl.
    + apply String.eqb_eq in E. subst k0.
      destruct (String.eqb k k'); reflexivity.
    + rewrite IH. destruct (String.eqb k k0) eqn:E0; [|reflexivity].
      apply String.eqb_eq in E0. subst k0.
      destruct (String.eqb k k') eqn:E1; [|reflexivity].
      apply String.eqb_eq in E1. subst k'. rewrite String.eqb_refl in E. discriminate.
Qed.

Lemma lookup_In {A : Type} (k : string) (d : list (string * A)) :
  lookup k d <> None <-> In k (keys d).
Proof.
  induction d as [|[k0 v0] d IH]; simpl.
  - split; [congruence|tauto].
  - destruct (String.eqb k k0) eqn:E.
    + apply String.eqb_eq in E. split; [auto|discriminate].
    + apply String.eqb_neq in E. rewrite IH. split; [auto|].
      intros [H|H]; [congruence|exact H].
Qed.

Section SortingFacts.
Context {A : Type} (key : A -> string).

Lemma insert_sorted_perm (x : A) (l : list A) :
  Permutation (x :: l) (insert_sorted key x l).
Proof.
  induction l as [|y l IH]; simpl.
  - reflexivity.
  - destruct (String.leb (key x) (key y)).
    + reflexivity.
    + rewrite perm_swap. constructor. exact IH.
Qed.

Lemma sort_by_perm (l : list A) : Permutation l (sort_by key l).
Proof.
  induction l as [|x l IH]; simpl.
  - constructor.
  - rewrite <- insert_sorted_perm. constructor. exact IH.
Qed.

Lemma sort_by_In (x : A) (l : list A) : In x (sort_by key l) <-> In x l.
Proof.
  split; apply Permutation_in; [symmetry|]; apply sort_by_perm.
Qed.
End SortingFacts.

Lemma public_names_spec (self : entity) (k : string) :
  In k (public_names self) <->
  lookup k (odict self) <> None /\ startswith_underscore k = false.
Proof.
  unfold public_names, sorted_names.
  rewrite sort_by_In, filter_In, nodup_In, lookup_In, negb_true_iff.
  reflexivity.
Qed.

(** ** copy_to *)

Lemma setattr_public (t : entity) (name : string) (v : value) :
  startswith_underscore name = false ->
  setattr t name v = Ok (mkEntity (oid t) (ocls t) (dict_set name v (odict t))).
Proof.
  intros H. unfold setattr.
  destruct (String.eqb name "__class__") eqn:E1;
    [apply String.eqb_eq in E1; subst; discriminate|].
  destruct (String.eqb name "__dict__") eqn:E2;
    [apply String.eqb_eq in E2; subst; discriminate|].
  destruct (String.eqb name "__weakref__") eqn:E3;
    [apply String.eqb_eq in E3; subst; discriminate|].
  reflexivity.
Qed.

Lemma copy_attrs_public (self : entity) (names : list string) :
  Forall (fun k => startswith_underscore k = false) names ->
  forall t, exists t',
    copy_attrs self names t = Ok t' /\
    oid t' = oid t /\ ocls t' = ocls t /\
    forall k,
      lookup k (odict t') =
      match (if existsb (String.eqb k) names then lookup k (odict self) else None) with
      | Some v => Some v
      | None => lookup k (odict t)
      end.
Proof.
  induction 1 as [|name names Hname Hnames IH]; intros t; simpl.
  - exists t. auto.
  - destruct (lookup name (odict self)) as [v|] eqn:Ev.
    + rewrite (setattr_public _ _ _ Hname). simpl.
      destruct (IH (mkEntity (oid t) (ocls t) (dict_set name v (odict t))))
        as (t' & Hrun & Hid & Hcls & Hget).
      exists t'. repeat split; try assumption.
      intros k. rewrite Hget. simpl. rewrite lookup_dict_set.
      destruct (String.eqb k name) eqn:E; simpl.
      * apply String.eqb_eq in E. subst k. rewrite Ev.
        destruct (existsb _ names); reflexivity.
      * reflexivity.
    + destruct (IH t) as (t' & Hrun & Hid & Hcls & Hget).
      exists t'. repeat split; try assumption.
      intros k. rewrite Hget.
      destruct (String.eqb k name) eqn:E; simpl; [|reflexivity].
      apply String.eqb_eq in E. subst k. rewrite Ev.
      destruct (existsb _ names); reflexivity.
Qed.

Lemma existsb_eqb_In (k : string) (names : list string) :
  existsb (String.eqb k) names = true <-> In k names.
Proof.
  rewrite existsb_exists. split.
  - intros (x & Hx & E). apply String.eqb_eq in E. subst. exact Hx.
  - intros H. exists k. split; [exact H|apply String.eqb_refl].
Qed.

(** C5, counterexample: [copy_to] takes a target of a class
    derived from the class of [self], which is not the class of [self]. *)
Lemma copy_to_accepts_derived_target :
  copy_to (sample_A 1 1) (obj (sample_A1 2 0)) = Ok (sample_A1 2 1) /\
  ocls (sample_A1 2 0) <> ocls (sample_A 1 1).
Proof. split; [reflexivity|discriminate]. Qed.

(** C5. For [self] not a Void, [copy_to] raises its type error
    exactly when the target is not an instance of the class of [self] (of
    that class or of one derived from it). Otherwise it returns normally and
    the target, still the same object of the same class, holds under every
    public name of [self] the very value [self] holds, an object among them
    being the same object; what the target has under other names stays.
    Copying A(value=1) into A(value=0) leaves value=1, and a B target is
    refused. *)
Theorem copy_to_overwrites_public_fields :
  forall (self : entity) (target : value),
    is_void self = false ->
    (isinstance target (TClass (ocls self)) = false ->
       copy_to self target = Raise (TypeError_copy_type (type_of target))) /\
    (isinstance target (TClass (ocls self)) = true ->
       exists t t',
         target = obj t /\ copy_to self target = Ok t' /\
         oid t' = oid t /\ ocls t' = ocls t /\
         (forall k v,
            startswith_underscore k = false ->
            lookup k (odict self) = Some v ->
            lookup k (odict t') = Some v) /\
         (forall k,
            startswith_underscore k = true \/ lookup k (odict self) = None ->
            lookup k (odict t') = lookup k (odict t))) /\
    copy_to (sample_A 1 1) (obj (sample_A 2 0)) = Ok (sample_A 2 1) /\
    copy_to (sample_A 1 1) (obj (sample_B 2 0))
      = Raise (TypeError_copy_type (TClass class_B)).
Proof.
  intros self target Hself. unfold copy_to. rewrite Hself.
  split; [|split; [|split; reflexivity]].
  - intros Hin. unfold General_copy_to. rewrite Hin. reflexivity.
  - intros Hin. unfold General_copy_to. rewrite Hin. simpl.
    destruct (isinstance_entity _ _ Hin) as (t & -> & _).
    rewrite as_entity_obj.
    assert (Hpub : Forall (fun k => startswith_underscore k = false)
                          (public_names self)).
    { apply Forall_forall. intros k Hk. apply public_names_spec in Hk. tauto. }
    destruct (copy_attrs_public self _ Hpub t) as (t' & Hrun & Hid & Hcls & Hget).
    exists t, t'. repeat split; try assumption.
    + intros k v Hk Hv. rewrite Hget.
      assert (E : existsb (String.eqb k) (public_names self) = true).
      { apply existsb_eqb_In, public_names_spec. split; congruence. }
      rewrite E, Hv. reflexivity.
    + intros k Hk. rewrite Hget.
      destruct (existsb (String.eqb k) (public_names self)) eqn:E;
        [|reflexivity].
      apply existsb_eqb_In, public_names_spec in E. destruct E as [E1 E2].
      destruct Hk as [Hk|Hk]; [congruence|].
      rewrite Hk. reflexivity.
Qed.

Lemma copy_to_overwrites_public_fields_witness :
  is_void sample_person = false /\
  exists t',
    copy_to sample_person (obj (mkEntity 12 Person [("name", VStr "")])) = Ok t' /\
    lookup "name" (odict t') = Some (VStr "Anna").
Proof.
  split; [reflexivity|].
  destruct (proj1 (proj2 (copy_to_overwrites_public_fields sample_person
                            (obj (mkEntity 12 Person [("name", VStr "")]))
                            eq_refl)) eq_refl)
    as (t & t' & Ht & Hrun & _ & _ & Hset & _).
  exists t'. split; [exact Hrun|].
  apply Hset; reflexivity.
Defined.

(** ** equals *)

Lemma py_eq_dict (a b : dict) :
  py_eq (VDict a) (VDict b) = true <->
  List.length a = List.length b /\
  forall k v, In (k, v) a ->
    exists w, lookup k b = Some w /\ py_eq v w = true.
Proof.
  simpl. rewrite andb_true_iff, Nat.eqb_eq.
  apply and_iff_compat_l.
  induction a as [|[k0 v0] a IH].
  - split; [intros _ k v []|reflexivity].
  - rewrite andb_true_iff, IH. split.
    + intros [H0 Hrest] k v [E|Hin].
      * inversion E; subst.
        destruct (lookup k b) as [w|]; [eauto|discriminate].
      * apply Hrest. exact Hin.
    + intros H. split.
      * destruct (H k0 v0 (or_introl eq_refl)) as (w & -> & Hw). exact Hw.
      * intros k v Hin. apply H. right. exact Hin.
Qed.

(** C6, counterexample: [equals] answers true for an object of
    a class derived from the class of [self] that holds the same fields. *)
Lemma equals_true_across_variants :
  equals (sample_A 1 1) (obj (sample_A1 2 1)) = true /\
  ocls (sample_A1 2 1) <> ocls (sample_A 1 1).
Proof. split; [reflexivity|discriminate]. Qed.

(** C6. For [self] not a Void, [equals] is false, and has a value,
    whenever [other] is not an instance of the class of [self] (of that class
    or of one derived from it); for such an instance it is true exactly when
    both dictionaries have as many names and every field of [self] is equal,
    by [==], to the field of [other] of that name, two objects in a field
    being equal when they are the same object. A(value=1) and B(value=1),
    of two classes neither derived from the other, are not equal. *)
Theorem equals_is_instance_test_and_fieldwise_eq :
  forall (self : entity) (other : value),
    is_void self = false ->
    (isinstance other (TClass (ocls self)) = false ->
       equals self other = false) /\
    (forall o,
       other = obj o -> isinstance other (TClass (ocls self)) = true ->
       (equals self other = true <->
        List.length (odict self) = List.length (odict o) /\
        forall k v, In (k, v) (odict self) ->
          exists w, lookup k (odict o) = Some w /\ py_eq v w = true)) /\
    (forall i c fs j d gs, py_eq (VObj i c fs) (VObj j d gs) = Nat.eqb i j) /\
    equals (sample_A 1 1) (obj (sample_B 2 1)) = false /\
    equals (sample_B 2 1) (obj (sample_A 1 1)) = false.
Proof.
  intros self other Hself. unfold equals. rewrite Hself.
  split; [|split; [|split; [|split]]]; try reflexivity.
  - intros Hout. unfold General_equals. rewrite Hout. reflexivity.
  - intros o -> Hin. unfold General_equals. rewrite Hin. cbn [negb].
    rewrite as_entity_obj. apply py_eq_dict.
Qed.

Lemma equals_is_instance_test_and_fieldwise_eq_witness :
  is_void sample_person = false /\
  equals sample_person (obj sample_car) = false.
Proof.
  split; [reflexivity|].
  apply (proj1 (equals_is_instance_test_and_fieldwise_eq
                  sample_person (obj sample_car) eq_refl)).
  reflexivity.
Defined.

(** ** The safe operations never raise *)

(** C7. Whatever they are given, the safe operations return normally:
    [safe_copy_to] returns a flag, true exactly when the call
    [self.copy_to(target)] returned, and [safe_serialize],
    [safe_deserialize] and [try_clone] return what the strict call returned,
    or the Void instance when it raised. The strict call is the method of
    the object unless a field of that name hides it. *)
Theorem safe_operations_never_raise :
  forall (self : entity) (target : value) (c : cls) (data : text) (next : nat),
    (exists flag t,
       safe_copy_to self target = Ok (flag, t) /\
       (flag = true <->
        exists t', invoke self "copy_to" (copy_to self target) = Ok t')) /\
    (exists a,
       safe_serialize self = Ok a /\
       ((exists t,
           invoke self "serialize" (serialize self) = Ok t /\ a = AText t) \/
        ((exists e, invoke self "serialize" (serialize self) = Raise e) /\
         a = AValue (obj VoidInstance)))) /\
    (exists r,
       safe_deserialize c data next = Ok r /\
       (deserialize c data next = Ok r \/
        ((exists e, deserialize c data next = Raise e) /\
         r = (obj VoidInstance, next)))) /\
    (exists r,
       try_clone self next = Ok r /\
       ((exists cloned next',
           invoke self "clone" (clone self next) = Ok (cloned, next') /\
           r = (obj cloned, next')) \/
        ((exists e, invoke self "clone" (clone self next) = Raise e) /\
         r = (obj VoidInstance, next)))) /\
    (forall (A : Type) (name : string) (method : result A),
       has_key name (odict self) = false -> invoke self name method = method).
Proof.
  intros self target c data next.
  split; [|split; [|split; [|split]]].
  - unfold safe_copy_to.
    destruct (invoke self "copy_to" (copy_to self target)) as [t'|e]; simpl.
    + exists true, (obj t'). split; [reflexivity|]. split; eauto.
    + exists false, target. split; [reflexivity|].
      split; [discriminate|]. intros [t' H]. discriminate.
  - unfold safe_serialize.
    destruct (invoke self "serialize" (serialize self)) as [t|e]; simpl; eauto 8.
  - unfold safe_deserialize.
    destruct (deserialize c data next) as [r|e]; simpl; eauto 8.
  - unfold try_clone.
    destruct (invoke self "clone" (clone self next)) as [[cloned next']|e];
      simpl; eauto 10.
  - intros A name method H. unfold invoke. rewrite H. reflexivity.
Qed.


Lemma safe_operations_never_raise_witness :
  (exists a, safe_serialize sample_person = Ok a) /\
  (exists r, try_clone (mkEntity 30 Person [("clone", VInt 1)]) 40 = Ok r) /\
  invoke sample_person "clone" (clone sample_person 20)
  = clone sample_person 20.
Proof.
  split; [|split].
  - destruct (safe_operations_never_raise sample_person (obj sample_car)
                Person (PlainText "x") 20) as (_ & (a & Ha & _) & _).
    exists a. exact Ha.
  - destruct (safe_operations_never_raise
                (mkEntity 30 Person [("clone", VInt 1)]) VNone
                Person (PlainText "x") 40) as (_ & _ & _ & (r & Hr & _) & _).
    exists r. exact Hr.
  - apply (proj2 (proj2 (proj2 (proj2
             (safe_operations_never_raise sample_person (obj sample_car)
                Person (PlainText "x") 20))))).
    reflexivity.
Defined.

(** ** Dictionaries with each key once *)

Lemma distinct_NoDup (l : list string) : distinct l = true <-> NoDup l.
Proof.
  induction l as [|k l IH]; simpl.
  - split; [constructor|reflexivity].
  - rewrite andb_true_iff, negb_true_iff, IH, NoDup_cons_iff.
    apply and_iff_compat_r.
    rewrite <- not_true_iff_false, existsb_eqb_In. reflexivity.
Qed.

Lemma lookup_NoDup {A : Type} (k : string) (v : A) (d : list (string * A)) :
  NoDup (keys d) -> In (k, v) d -> lookup k d = Some v.
Proof.
  induction d as [|[k0 v0] d IH]; simpl; intros Hnd Hin; [contradiction|].
  inversion Hnd as [|? ? Hnotin Hnd']; subst.
  destruct Hin as [E|Hin].
  - inversion E; subst. rewrite String.eqb_refl. reflexivity.
  - destruct (String.eqb k k0) eqn:E.
    + apply String.eqb_eq in E. subst k0. exfalso. apply Hnotin.
      apply (in_map fst) in Hin. exact Hin.
    + apply IH; assumption.
Qed.

Lemma dict_set_fresh {A : Type} (k : string) (v : A) (d : list (string * A)) :
  ~ In k (keys d) -> dict_set k v d = (d ++ [(k, v)])%list.
Proof.
  induction d as [|[k0 v0] d IH]; simpl; intros Hnotin; [reflexivity|].
  destruct (String.eqb k k0) eqn:E.
  - apply String.eqb_eq in E. subst. tauto.
  - rewrite IH; [reflexivity|tauto].
Qed.


(** ** Predicates on values, loop by loop *)

Lemma all_items (P : value -> bool) (xs : list value) :
  (fix all (xs : list value) : bool :=
     match xs with
     | [] => true
     | x :: rest => P x && all rest
     end) xs = forallb P xs.
Proof.
  induction xs as [|x xs IH]; simpl; [reflexivity|]. rewrite IH. reflexivity.
Qed.

Lemma all_pairs (P : value -> bool) (kvs : list (string * value)) :
  (fix all (kvs : list (string * value)) : bool :=
     match kvs with
     | [] => true
     | (_, x) :: rest => P x && all rest
     end) kvs = forallb (fun kv => P (snd kv)) kvs.
Proof.
  induction kvs as [|[k x] kvs IH]; simpl; [reflexivity|].
  rewrite IH. reflexivity.
Qed.

Lemma plain_list (xs : list value) : plain (VList xs) = forallb plain xs.
Proof. exact (all_items plain xs). Qed.

Lemma plain_dict (kvs : list (string * value)) :
  plain (VDict kvs) = forallb (fun kv => plain (snd kv)) kvs.
Proof. exact (all_pairs plain kvs). Qed.

Lemma well_formed_list (xs : list value) :
  well_formed (VList xs) = forallb well_formed xs.
Proof. exact (all_items well_formed xs). Qed.

Lemma well_formed_dict (kvs : list (string * value)) :
  well_formed (VDict kvs)
  = distinct (keys kvs) && forallb (fun kv => well_formed (snd kv)) kvs.
Proof. simpl. f_equal. exact (all_pairs well_formed kvs). Qed.

Lemma well_formed_obj (i : nat) (c : cls) (kvs : list (string * value)) :
  well_formed (VObj i c kvs)
  = distinct (keys kvs) && forallb (fun kv => well_formed (snd kv)) kvs.
Proof. simpl. f_equal. exact (all_pairs well_formed kvs). Qed.

Lemma ints_ok_list (xs : list value) : ints_ok (VList xs) = forallb ints_ok xs.
Proof. exact (all_items ints_ok xs). Qed.

Lemma ints_ok_dict (kvs : list (string * value)) :
  ints_ok (VDict kvs) = forallb (fun kv => ints_ok (snd kv)) kvs.
Proof. exact (all_pairs ints_ok kvs). Qed.

Lemma copy_hook_free_list (xs : list value) :
  copy_hook_free (VList xs) = forallb copy_hook_free xs.
Proof. exact (all_items copy_hook_free xs). Qed.

Lemma copy_hook_free_dict (kvs : list (string * value)) :
  copy_hook_free (VDict kvs) = forallb (fun kv => copy_hook_free (snd kv)) kvs.
Proof. exact (all_pairs copy_hook_free kvs). Qed.

Lemma copy_hook_free_obj (i : nat) (c : cls) (kvs : list (string * value)) :
  copy_hook_free (VObj i c kvs)
  = match copy_protocol kvs with Ok _ => true | Raise _ => false end &&
    forallb (fun kv => copy_hook_free (snd kv)) kvs.
Proof. simpl. f_equal. exact (all_pairs copy_hook_free kvs). Qed.

Lemma ids_at_least_list (n : nat) (xs : list value) :
  ids_at_least n (VList xs) = forallb (ids_at_least n) xs.
Proof. exact (all_items (ids_at_least n) xs). Qed.

Lemma ids_at_least_dict (n : nat) (kvs : list (string * value)) :
  ids_at_least n (VDict kvs) = forallb (fun kv => ids_at_least n (snd kv)) kvs.
Proof. exact (all_pairs (ids_at_least n) kvs). Qed.

Lemma ids_at_least_obj (n i : nat) (c : cls) (kvs : list (string * value)) :
  ids_at_least n (VObj i c kvs)
  = Nat.leb n i && forallb (fun kv => ids_at_least n (snd kv)) kvs.
Proof. simpl. f_equal. exact (all_pairs (ids_at_least n) kvs). Qed.

Lemma ids_below_obj (n i : nat) (c : cls) (kvs : list (string * value)) :
  ids_below n (VObj i c kvs)
  = Nat.ltb i n && forallb (fun kv => ids_below n (snd kv)) kvs.
Proof. simpl. f_equal. exact (all_pairs (ids_below n) kvs). Qed.

Lemma well_formed_fields (x : entity) :
  well_formed (obj x) = true ->
  NoDup (keys (odict x)) /\
  forallb (fun kv => well_formed (snd kv)) (odict x) = true.
Proof.
  unfold obj. rewrite well_formed_obj, andb_true_iff, distinct_NoDup. tauto.
Qed.

(** ** copy.deepcopy, loop by loop *)

Lemma rebuild_list (xs : list value) (next : nat) (memo : list (nat * value)) :
  rebuild (VList xs) next memo
  = let '(ys, next', memo') := copy_items xs next memo in (VList ys, next', memo').
Proof.
  simpl.
  assert (E : forall xs next memo,
             (fix copy_items (xs : list value) (next : nat)
              (memo : list (nat * value)) {struct xs} :=
              match xs with
              | [] => ([], next, memo)
              | x :: rest =>
                  let '(y, next1, memo1) := rebuild x next memo in
                  let '(ys, next2, memo2) := copy_items rest next1 memo1 in
                  (y :: ys, next2, memo2)
              end) xs next memo = copy_items xs next memo).
  { clear. induction xs as [|x xs IH]; intros next memo; simpl; [reflexivity|].
    destruct (rebuild x next memo) as [[y n1] m1]. rewrite IH. reflexivity. }
  rewrite E. reflexivity.
Qed.

Lemma rebuild_dict (kvs : list (string * value)) (next : nat)
  (memo : list (nat * value)) :
  rebuild (VDict kvs) next memo
  = let '(kvs', next', memo') := copy_pairs kvs next memo in
    (VDict kvs', next', memo').
Proof.
  simpl.
  assert (E : forall kvs next memo,
             (fix copy_pairs (kvs : list (string * value)) (next : nat)
              (memo : list (nat * value)) {struct kvs} :=
              match kvs with
              | [] => ([], next, memo)
              | (k, x) :: rest =>
                  let '(y, next1, memo1) := rebuild x next memo in
                  let '(ys, next2, memo2) := copy_pairs rest next1 memo1 in
                  ((k, y) :: ys, next2, memo2)
              end) kvs next memo = copy_pairs kvs next memo).
  { clear. induction kvs as [|[k x] kvs IH]; intros next memo; simpl;
      [reflexivity|].
    destruct (rebuild x next memo) as [[y n1] m1]. rewrite IH. reflexivity. }
  rewrite E. reflexivity.
Qed.

Lemma rebuild_obj (i : nat) (c : cls) (fields : list (string * value))
  (next : nat) (memo : list (nat * value)) :
  rebuild (VObj i c fields) next memo
  = match find (fun p => Nat.eqb (fst p) i) memo with
    | Some (_, y) => (y, next, memo)
    | None =>
        let '(fields', next', memo') := copy_pairs fields (S next) memo in
        (VObj next c fields', next', (i, VObj next c fields') :: memo')
    end.
Proof.
  simpl. destruct (find _ memo) as [[j y]|]; [reflexivity|].
  assert (E : forall kvs next memo,
             (fix copy_pairs (kvs : list (string * value)) (next : nat)
              (memo : list (nat * value)) {struct kvs} :=
              match kvs with
              | [] => ([], next, memo)
              | (k, x) :: rest =>
                  let '(y, next1, memo1) := rebuild x next memo in
                  let '(ys, next2, memo2) := copy_pairs rest next1 memo1 in
                  ((k, y) :: ys, next2, memo2)
              end) kvs next memo = copy_pairs kvs next memo).
  { clear. induction kvs as [|[k x] kvs IH]; intros next memo; simpl;
      [reflexivity|].
    destruct (rebuild x next memo) as [[y n1] m1]. rewrite IH. reflexivity. }
  rewrite E. reflexivity.
Qed.


Lemma deepcopy_items_fix (xs : list value) :
  forall next memo,
    (fix copy_items (xs : list value) (next : nat) (memo : list (nat * value))
       {struct xs} : result (list value * nat * list (nat * value)) :=
       match xs with
       | [] => Ok ([], next, memo)
       | x :: rest =>
           '(y, next1, memo1) <- deepcopy x next memo ;;
           '(ys, next2, memo2) <- copy_items rest next1 memo1 ;;
           Ok (y :: ys, next2, memo2)
       end) xs next memo = deepcopy_items xs next memo.
Proof.
  induction xs as [|x xs IH]; intros next memo; simpl; [reflexivity|].
  destruct (deepcopy x next memo) as [[[y n1] m1]|e]; simpl; [|reflexivity].
  rewrite IH. reflexivity.
Qed.

Lemma deepcopy_pairs_fix (kvs : list (string * value)) :
  forall next memo,
    (fix copy_pairs (kvs : list (string * value)) (next : nat)
       (memo : list (nat * value)) {struct kvs}
       : result (list (string * value) * nat * list (nat * value)) :=
       match kvs with
       | [] => Ok ([], next, memo)
       | (k, x) :: rest =>
           '(y, next1, memo1) <- deepcopy x next memo ;;
           '(ys, next2, memo2) <- copy_pairs rest next1 memo1 ;;
           Ok ((k, y) :: ys, next2, memo2)
       end) kvs next memo = deepcopy_pairs kvs next memo.
Proof.
  induction kvs as [|[k x] kvs IH]; intros next memo; simpl; [reflexivity|].
  destruct (deepcopy x next memo) as [[[y n1] m1]|e]; simpl; [|reflexivity].
  rewrite IH. reflexivity.
Qed.

Lemma deepcopy_list (xs : list value) (next : nat) (memo : list (nat * value)) :
  deepcopy (VList xs) next memo
  = ('(ys, next', memo') <- deepcopy_items xs next memo ;;
     Ok (VList ys, next', memo')).
Proof. simpl. rewrite deepcopy_items_fix. reflexivity. Qed.

Lemma deepcopy_dict (kvs : list (string * value)) (next : nat)
  (memo : list (nat * value)) :
  deepcopy (VDict kvs) next memo
  = ('(kvs', next', memo') <- deepcopy_pairs kvs next memo ;;
     Ok (VDict kvs', next', memo')).
Proof. simpl. rewrite deepcopy_pairs_fix. reflexivity. Qed.

Lemma deepcopy_obj (i : nat) (c : cls) (fields : list (string * value))
  (next : nat) (memo : list (nat * value)) :
  deepcopy (VObj i c fields) next memo
  = match find (fun p => Nat.eqb (fst p) i) memo with
    | Some (_, y) => Ok (y, next, memo)
    | None =>
        _ <- copy_protocol fields ;;
        '(fields', next', memo') <- deepcopy_pairs fields (S next) memo ;;
        Ok (VObj next c fields', next', (i, VObj next c fields') :: memo')
    end.
Proof.
  simpl. destruct (find _ memo) as [[j y]|]; [reflexivity|].
  rewrite deepcopy_pairs_fix. reflexivity.
Qed.

(** Where no object has a field that [copy.deepcopy] would call, the copy
    is made, and it is the value rebuilt. *)
Lemma deepcopy_rebuild (v : value) :
  copy_hook_free v = true ->
  forall next memo, deepcopy v next memo = Ok (rebuild v next memo).
Proof.
  induction v as [| | | |xs IH|kvs IH|i c kvs IH] using value_nested_ind;
    intros Hf next memo; try reflexivity.
  - rewrite copy_hook_free_list in Hf. rewrite deepcopy_list, rebuild_list.
    assert (E : forall next memo,
               deepcopy_items xs next memo = Ok (copy_items xs next memo)).
    { clear next memo.
      induction IH as [|x xs Hx _ IHxs]; intros next memo; [reflexivity|].
      simpl in Hf. apply andb_true_iff in Hf. destruct Hf as [Hf1 Hf2].
      simpl. rewrite (Hx Hf1). simpl.
      destruct (rebuild x next memo) as [[y n1] m1].
      rewrite (IHxs Hf2). simpl.
      destruct (copy_items xs n1 m1) as [[ys n2] m2]. reflexivity. }
    rewrite E. simpl. destruct (copy_items xs next memo) as [[ys n1] m1].
    reflexivity.
  - rewrite copy_hook_free_dict in Hf. rewrite deepcopy_dict, rebuild_dict.
    assert (E : forall next memo,
               deepcopy_pairs kvs next memo = Ok (copy_pairs kvs next memo)).
    { clear next memo.
      induction IH as [|[k x] kvs Hx _ IHkvs]; intros next memo; [reflexivity|].
      simpl in Hf. apply andb_true_iff in Hf. destruct Hf as [Hf1 Hf2].
      simpl in Hx. simpl. rewrite (Hx Hf1). simpl.
      destruct (rebuild x next memo) as [[y n1] m1].
      rewrite (IHkvs Hf2). simpl.
      destruct (copy_pairs kvs n1 m1) as [[ys n2] m2]. reflexivity. }
    rewrite E. simpl. destruct (copy_pairs kvs next memo) as [[ys n1] m1].
    reflexivity.
  - rewrite copy_hook_free_obj in Hf. apply andb_true_iff in Hf.
    destruct Hf as [Hp Hf].
    rewrite deepcopy_obj, rebuild_obj.
    destruct (find (fun p => Nat.eqb (fst p) i) memo) as [[j y]|];
      [reflexivity|].
    destruct (copy_protocol kvs) as [[]|e]; [|discriminate]. cbn [bind].
    assert (E : forall next memo,
               deepcopy_pairs kvs next memo = Ok (copy_pairs kvs next memo)).
    { clear next memo Hp.
      induction IH as [|[k x] kvs Hx _ IHkvs]; intros next memo; [reflexivity|].
      simpl in Hf. apply andb_true_iff in Hf. destruct Hf as [Hf1 Hf2].
      simpl in Hx. simpl. rewrite (Hx Hf1). simpl.
      destruct (rebuild x next memo) as [[y n1] m1].
      rewrite (IHkvs Hf2). simpl.
      destruct (copy_pairs kvs n1 m1) as [[ys n2] m2]. reflexivity. }
    rewrite E. simpl. destruct (copy_pairs kvs (S next) memo) as [[ys n1] m1].
    reflexivity.
Qed.

(** ** Data-only values: deep copies and equality *)

Lemma plain_copy_hook_free (v : value) :
  plain v = true -> copy_hook_free v = true.
Proof.
  induction v as [| | | |xs IH|kvs IH|i c kvs IH] using value_nested_ind;
    intros Hp; try reflexivity; try discriminate.
  - rewrite plain_list in Hp. rewrite copy_hook_free_list.
    rewrite forallb_forall in *. rewrite Forall_forall in IH.
    intros x Hx. apply (IH x Hx), Hp, Hx.
  - rewrite plain_dict in Hp. rewrite copy_hook_free_dict.
    rewrite forallb_forall in *. rewrite Forall_forall in IH.
    intros x Hx. apply (IH x Hx), Hp, Hx.
Qed.

Lemma rebuild_plain (v : value) :
  plain v = true ->
  forall next memo, rebuild v next memo = (v, next, memo).
Proof.
  induction v as [| | | |xs IH|kvs IH|i c kvs IH] using value_nested_ind;
    intros Hp next memo; try reflexivity; try discriminate.
  - rewrite plain_list in Hp. rewrite rebuild_list.
    assert (E : forall next memo, copy_items xs next memo = (xs, next, memo)).
    { clear next memo.
      induction IH as [|x xs Hx _ IHxs]; intros next memo; [reflexivity|].
      simpl in Hp. apply andb_true_iff in Hp. destruct Hp as [Hp1 Hp2].
      simpl. rewrite (Hx Hp1), (IHxs Hp2). reflexivity. }
    rewrite E. reflexivity.
  - rewrite plain_dict in Hp. rewrite rebuild_dict.
    assert (E : forall next memo, copy_pairs kvs next memo = (kvs, next, memo)).
    { clear next memo.
      induction IH as [|[k x] kvs Hx _ IHkvs]; intros next memo; [reflexivity|].
      simpl in Hp. apply andb_true_iff in Hp. destruct Hp as [Hp1 Hp2].
      simpl in Hx. simpl. rewrite (Hx Hp1), (IHkvs Hp2). reflexivity. }
    rewrite E. reflexivity.
Qed.

Lemma deepcopy_plain (v : value) :
  plain v = true ->
  forall next memo, deepcopy v next memo = Ok (v, next, memo).
Proof.
  intros Hp next memo.
  rewrite (deepcopy_rebuild v (plain_copy_hook_free v Hp)).
  rewrite (rebuild_plain v Hp). reflexivity.
Qed.

(** ** Deep copies are made of new objects *)

Lemma copy_items_fresh (xs : list value) :
  Forall copies_fresh xs ->
  forall base next memo ys next' memo',
    base <= next -> memo_fresh base memo ->
    copy_items xs next memo = (ys, next', memo') ->
    next <= next' /\ forallb (ids_at_least base) ys = true /\
    memo_fresh base memo'.
Proof.
  induction 1 as [|x xs Hx _ IH]; intros base next memo ys next' memo' Hb Hm E;
    simpl in E.
  - inversion E; subst. auto.
  - destruct (rebuild x next memo) as [[y n1] m1] eqn:Ex.
    destruct (copy_items xs n1 m1) as [[ys' n2] m2] eqn:Exs.
    inversion E; subst.
    destruct (Hx base next memo y n1 m1 Hb Hm Ex) as (H1 & H2 & H3).
    destruct (IH base n1 m1 ys' next' memo' ltac:(lia) H3 Exs) as (H4 & H5 & H6).
    simpl. rewrite H2, H5. repeat split; auto. lia.
Qed.

Lemma copy_pairs_fresh (kvs : list (string * value)) :
  Forall (fun kv => copies_fresh (snd kv)) kvs ->
  forall base next memo kvs' next' memo',
    base <= next -> memo_fresh base memo ->
    copy_pairs kvs next memo = (kvs', next', memo') ->
    next <= next' /\
    forallb (fun kv => ids_at_least base (snd kv)) kvs' = true /\
    memo_fresh base memo' /\ keys kvs' = keys kvs.
Proof.
  induction 1 as [|[k x] kvs Hx _ IH];
    intros base next memo kvs' next' memo' Hb Hm E; simpl in E.
  - inversion E; subst. auto.
  - destruct (rebuild x next memo) as [[y n1] m1] eqn:Ex.
    destruct (copy_pairs kvs n1 m1) as [[ys' n2] m2] eqn:Exs.
    inversion E; subst.
    destruct (Hx base next memo y n1 m1 Hb Hm Ex) as (H1 & H2 & H3).
    destruct (IH base n1 m1 ys' next' memo' ltac:(lia) H3 Exs)
      as (H4 & H5 & H6 & H7).
    simpl. rewrite H2, H5, H7. repeat split; auto. lia.
Qed.

Lemma rebuild_fresh (v : value) : copies_fresh v.
Proof.
  induction v as [| | | |xs IH|kvs IH|i c kvs IH] using value_nested_ind;
    intros base next memo v' next' memo' Hb Hm E;
    try (inversion E; subst; auto; fail).
  - rewrite rebuild_list in E.
    destruct (copy_items xs next memo) as [[ys n1] m1] eqn:Exs.
    inversion E; subst.
    destruct (copy_items_fresh xs IH base next memo ys next' memo' Hb Hm Exs)
      as (H1 & H2 & H3).
    rewrite ids_at_least_list. auto.
  - rewrite rebuild_dict in E.
    destruct (copy_pairs kvs next memo) as [[ys n1] m1] eqn:Exs.
    inversion E; subst.
    destruct (copy_pairs_fresh kvs IH base next memo ys next' memo' Hb Hm Exs)
      as (H1 & H2 & H3 & _).
    rewrite ids_at_least_dict. auto.
  - rewrite rebuild_obj in E.
    destruct (find (fun p => Nat.eqb (fst p) i) memo) as [[j y]|] eqn:Ef.
    + inversion E; subst. split; [lia|]. split; [|exact Hm].
      apply find_some in Ef. destruct Ef as [Hin _].
      unfold memo_fresh in Hm. rewrite Forall_forall in Hm.
      apply (Hm _ Hin).
    + destruct (copy_pairs kvs (S next) memo) as [[ys n1] m1] eqn:Exs.
      inversion E; subst.
      destruct (copy_pairs_fresh kvs IH base (S next) memo ys next' m1
                  ltac:(lia) Hm Exs) as (H1 & H2 & H3 & _).
      assert (Hy : ids_at_least base (VObj next c ys) = true).
      { rewrite ids_at_least_obj, H2, andb_true_r. apply Nat.leb_le. exact Hb. }
      split; [lia|]. split; [exact Hy|].
      constructor; [exact Hy|exact H3].
Qed.

Lemma ids_at_least_mono (v : value) :
  forall n m, n <= m -> ids_at_least m v = true -> ids_at_least n v = true.
Proof.
  induction v as [| | | |xs IH|kvs IH|i c kvs IH] using value_nested_ind;
    intros n m Hnm H; try reflexivity.
  - rewrite ids_at_least_list in *. rewrite forallb_forall in *.
    rewrite Forall_forall in IH. intros x Hx. apply (IH x Hx n m Hnm), H, Hx.
  - rewrite ids_at_least_dict in *. rewrite forallb_forall in *.
    rewrite Forall_forall in IH. intros x Hx. apply (IH x Hx n m Hnm), H, Hx.
  - rewrite ids_at_least_obj in *. apply andb_true_iff in H.
    destruct H as [H1 H2]. apply andb_true_iff. split.
    + apply Nat.leb_le. apply Nat.leb_le in H1. lia.
    + rewrite forallb_forall in *. rewrite Forall_forall in IH.
      intros x Hx. apply (IH x Hx n m Hnm), H2, Hx.
Qed.


(** ** Deep copies keep classes and contents *)

Lemma same_pickle_list_intro (xs ys : list value) :
  Forall2 (fun a b => same_pickle a b = true) xs ys ->
  same_pickle (VList xs) (VList ys) = true.
Proof.
  simpl. induction 1 as [|x y xs ys Hxy _ IH]; [reflexivity|].
  rewrite Hxy, IH. reflexivity.
Qed.

Lemma same_pickle_dict_intro (xs ys : dict) :
  same_fields xs ys -> same_pickle (VDict xs) (VDict ys) = true.
Proof.
  simpl. induction 1 as [|[k x] [l y] xs ys [Hk Hxy] _ IH]; [reflexivity|].
  simpl in Hk, Hxy. subst l. rewrite String.eqb_refl, Hxy, IH. reflexivity.
Qed.

Lemma same_pickle_obj_intro (i j : nat) (c : cls) (xs ys : dict) :
  same_fields xs ys -> same_pickle (VObj i c xs) (VObj j c ys) = true.
Proof.
  intros H. simpl. rewrite cls_eqb_refl. simpl.
  induction H as [|[k x] [l y] xs ys [Hk Hxy] _ IH]; [reflexivity|].
  simpl in Hk, Hxy. subst l. rewrite String.eqb_refl, Hxy, IH. reflexivity.
Qed.

Lemma agrees_list (h : store) (xs : list value) :
  agrees h (VList xs) <-> Forall (agrees h) xs.
Proof.
  simpl. induction xs as [|x xs IH].
  - split; [constructor|trivial].
  - rewrite IH. split.
    + intros [H1 H2]. constructor; assumption.
    + intros H. inversion H; subst. tauto.
Qed.

Lemma agrees_pairs (h : store) (kvs : list (string * value)) :
  (fix all (kvs : list (string * value)) : Prop :=
     match kvs with
     | [] => True
     | (_, x) :: rest => agrees h x /\ all rest
     end) kvs
  <-> Forall (fun kv => agrees h (snd kv)) kvs.
Proof.
  induction kvs as [|[k x] kvs IH].
  - split; [constructor|trivial].
  - rewrite IH. split.
    + intros [H1 H2]. constructor; assumption.
    + intros H. inversion H; subst. tauto.
Qed.

Lemma copy_items_same (h : store) (xs : list value) :
  Forall (copies_same h) xs ->
  forall next memo ys next' memo',
    Forall (agrees h) xs -> memo_ok h memo ->
    copy_items xs next memo = (ys, next', memo') ->
    Forall2 (fun a b => same_pickle a b = true) xs ys /\ memo_ok h memo'.
Proof.
  induction 1 as [|x xs Hx _ IH]; intros next memo ys next' memo' Ha Hm E;
    simpl in E.
  - inversion E; subst. split; [constructor|exact Hm].
  - destruct (rebuild x next memo) as [[y n1] m1] eqn:Ex.
    destruct (copy_items xs n1 m1) as [[ys' n2] m2] eqn:Exs.
    inversion E; subst. inversion Ha; subst.
    destruct (Hx next memo y n1 m1 H1 Hm Ex) as (Hy & Hm1).
    destruct (IH n1 m1 ys' next' memo' H2 Hm1 Exs) as (Hys & Hm2).
    split; [constructor; assumption|exact Hm2].
Qed.

Lemma copy_pairs_same (h : store) (kvs : list (string * value)) :
  Forall (fun kv => copies_same h (snd kv)) kvs ->
  forall next memo kvs' next' memo',
    Forall (fun kv => agrees h (snd kv)) kvs -> memo_ok h memo ->
    copy_pairs kvs next memo = (kvs', next', memo') ->
    same_fields kvs kvs' /\ memo_ok h memo'.
Proof.
  induction 1 as [|[k x] kvs Hx _ IH];
    intros next memo kvs' next' memo' Ha Hm E; simpl in E.
  - inversion E; subst. split; [constructor|exact Hm].
  - destruct (rebuild x next memo) as [[y n1] m1] eqn:Ex.
    destruct (copy_pairs kvs n1 m1) as [[ys' n2] m2] eqn:Exs.
    inversion E; subst. inversion Ha; subst.
    destruct (Hx next memo y n1 m1 H1 Hm Ex) as (Hy & Hm1).
    destruct (IH n1 m1 ys' next' memo' H2 Hm1 Exs) as (Hys & Hm2).
    split; [constructor; [split; [reflexivity|exact Hy]|exact Hys]|exact Hm2].
Qed.

Lemma same_pickle_atoms (v : value) :
  match v with VList _ | VDict _ | VObj _ _ _ => True | _ => same_pickle v v = true end.
Proof.
  destruct v; simpl; trivial.
  - destruct b; reflexivity.
  - apply Z.eqb_refl.
  - apply String.eqb_refl.
Qed.

Lemma rebuild_same (h : store) (v : value) : copies_same h v.
Proof.
  induction v as [|b|z|s|xs IH|kvs IH|i c kvs IH] using value_nested_ind;
    intros next memo v' next' memo' Ha Hm E.
  - inversion E; subst. auto.
  - inversion E; subst. split; [apply (same_pickle_atoms (VBool b))|exact Hm].
  - inversion E; subst. split; [apply (same_pickle_atoms (VInt z))|exact Hm].
  - inversion E; subst. split; [apply (same_pickle_atoms (VStr s))|exact Hm].
  - rewrite rebuild_list in E.
    destruct (copy_items xs next memo) as [[ys n1] m1] eqn:Exs.
    inversion E; subst. apply agrees_list in Ha.
    destruct (copy_items_same h xs IH next memo ys next' memo' Ha Hm Exs)
      as (H1 & H2).
    split; [apply same_pickle_list_intro; exact H1|exact H2].
  - rewrite rebuild_dict in E.
    destruct (copy_pairs kvs next memo) as [[ys n1] m1] eqn:Exs.
    inversion E; subst. simpl in Ha. apply agrees_pairs in Ha.
    destruct (copy_pairs_same h kvs IH next memo ys next' memo' Ha Hm Exs)
      as (H1 & H2).
    split; [apply same_pickle_dict_intro; exact H1|exact H2].
  - rewrite rebuild_obj in E. simpl in Ha. destruct Ha as [Hh Ha].
    apply agrees_pairs in Ha.
    destruct (find (fun p => Nat.eqb (fst p) i) memo) as [[j y]|] eqn:Ef.
    + inversion E; subst. split; [|exact Hm].
      apply find_some in Ef. destruct Ef as [Hin Hj].
      simpl in Hj. apply Nat.eqb_eq in Hj. subst j.
      unfold memo_ok in Hm. rewrite Forall_forall in Hm.
      destruct (Hm _ Hin) as (c0 & fs0 & Hc0 & Hsame). simpl in Hc0, Hsame.
      rewrite Hh in Hc0. inversion Hc0; subst. exact Hsame.
    + destruct (copy_pairs kvs (S next) memo) as [[ys n1] m1] eqn:Exs.
      inversion E; subst.
      destruct (copy_pairs_same h kvs IH (S next) memo ys next' m1 Ha Hm Exs)
        as (H1 & H2).
      assert (Hy : same_pickle (VObj i c kvs) (VObj next c ys) = true)
        by (apply same_pickle_obj_intro; exact H1).
      split; [exact Hy|].
      constructor; [|exact H2].
      exists c, kvs. split; [exact Hh|exact Hy].
Qed.


(** ** A value equals itself *)

Lemma py_eq_list (xs ys : list value) :
  Forall2 (fun x y => py_eq x y = true) xs ys ->
  py_eq (VList xs) (VList ys) = true.
Proof.
  simpl. induction 1 as [|x y xs ys Hxy _ IH]; [reflexivity|].
  rewrite Hxy, IH. reflexivity.
Qed.

Lemma py_eq_same (v : value) : well_formed v = true -> py_eq v v = true.
Proof.
  induction v as [|b|z|s|xs IH|kvs IH|i c kvs IH] using value_nested_ind;
    intros Hw; try reflexivity.
  - destruct b; reflexivity.
  - apply Z.eqb_refl.
  - apply String.eqb_refl.
  - rewrite well_formed_list in Hw. apply py_eq_list.
    induction IH as [|x xs Hx _ IHxs]; constructor;
      simpl in Hw; apply andb_true_iff in Hw; destruct Hw as [Hw1 Hw2]; auto.
  - rewrite well_formed_dict, andb_true_iff, distinct_NoDup, forallb_forall in Hw.
    destruct Hw as [Hnd Hw].
    apply py_eq_dict. split; [reflexivity|].
    intros k v Hin. exists v. split; [apply lookup_NoDup; assumption|].
    rewrite Forall_forall in IH. apply (IH (k, v) Hin). apply (Hw _ Hin).
  - simpl. apply Nat.eqb_refl.
Qed.


(** ** clone *)

Lemma setattr_settable (t : entity) (name : string) (v : value) :
  reserved_name name = false ->
  setattr t name v = Ok (mkEntity (oid t) (ocls t) (dict_set name v (odict t))).
Proof.
  unfold reserved_name, setattr. intros H.
  apply orb_false_iff in H. destruct H as [H H3].
  apply orb_false_iff in H. destruct H as [H1 H2].
  rewrite H1, H2, H3. reflexivity.
Qed.

Lemma NoDup_keys_snoc (acc : dict) (k : string) (v : value) (rest : dict) :
  NoDup (keys (acc ++ (k, v) :: rest)) ->
  ~ In k (keys acc) /\ NoDup (keys ((acc ++ [(k, v)]) ++ rest)).
Proof.
  intros H. split.
  - unfold keys in *. rewrite map_app in H. simpl in H.
    apply NoDup_remove_2 in H. intros Hin. apply H, in_or_app. left. exact Hin.
  - rewrite <- app_assoc. exact H.
Qed.


Lemma settable_fields_keys (x : entity) (k : string) :
  settable_fields x = true -> In k (keys (odict x)) -> reserved_name k = false.
Proof.
  unfold settable_fields. rewrite forallb_forall. intros H Hin.
  apply in_map_iff in Hin. destruct Hin as ([k' v] & <- & Hin).
  apply negb_true_iff. apply (H _ Hin).
Qed.

Lemma clone_attrs_plain (items : dict) :
  forall (cloned : entity) (next : nat),
    forallb (fun kv => plain (snd kv)) items = true ->
    forallb (fun kv => negb (reserved_name (fst kv))) items = true ->
    NoDup (keys (odict cloned ++ items)) ->
    clone_attrs items cloned next
    = Ok (mkEntity (oid cloned) (ocls cloned) (odict cloned ++ items), next).
Proof.
  induction items as [|[k v] items IH]; intros cloned next Hp Hs Hnd.
  - simpl. rewrite app_nil_r. destruct cloned; reflexivity.
  - simpl in Hp, Hs. apply andb_true_iff in Hp, Hs.
    destruct Hp as [Hp1 Hp2], Hs as [Hs1 Hs2].
    apply negb_true_iff in Hs1.
    destruct (NoDup_keys_snoc _ _ _ _ Hnd) as [Hfresh Hnd'].
    simpl. rewrite (deepcopy_plain v Hp1). cbn [bind].
    rewrite (setattr_settable _ _ _ Hs1).
    cbn [bind odict oid ocls]. rewrite (dict_set_fresh _ _ _ Hfresh).
    rewrite IH; try assumption. simpl. rewrite <- app_assoc. reflexivity.
Qed.

Lemma clone_attrs_general (h : store) (items : dict) :
  forall (cloned : entity) (next : nat),
    (forall k, In k (keys items) -> reserved_name k = false) ->
    NoDup (keys (odict cloned) ++ keys items) ->
    forallb (fun kv => copy_hook_free (snd kv)) items = true ->
    Forall (fun kv => agrees h (snd kv)) items ->
    exists items' next',
      clone_attrs items cloned next
      = Ok (mkEntity (oid cloned) (ocls cloned) (odict cloned ++ items'), next') /\
      next <= next' /\
      same_fields items items' /\
      forallb (fun kv => ids_at_least next (snd kv)) items' = true.
Proof.
  induction items as [|[k v] items IH]; intros cloned next Hres Hnd Hf Ha.
  - exists [], next. simpl. rewrite app_nil_r.
    repeat split; [destruct cloned; reflexivity|lia|constructor].
  - inversion Ha as [|? ? Hav Ha']; subst. simpl in Hav.
    simpl in Hf. apply andb_true_iff in Hf. destruct Hf as [Hfv Hf'].
    assert (Hfresh : ~ In k (keys (odict cloned))).
    { apply NoDup_remove_2 in Hnd. intros Hin. apply Hnd, in_or_app. auto. }
    simpl. rewrite (deepcopy_rebuild v Hfv). cbn [bind].
    destruct (rebuild v next []) as [[v' n1] m1] eqn:Ev.
    destruct (rebuild_fresh v next next [] v' n1 m1 (Nat.le_refl _)
                (Forall_nil _) Ev) as (Hn1 & Hv' & _).
    destruct (rebuild_same h v next [] v' n1 m1 Hav (Forall_nil _) Ev)
      as (Hsame & _).
    rewrite setattr_settable by (apply Hres; left; reflexivity).
    cbn [bind]. rewrite dict_set_fresh by exact Hfresh.
    destruct (IH (mkEntity (oid cloned) (ocls cloned) (odict cloned ++ [(k, v')])) n1)
      as (items' & next' & Hrun & Hle & Hsf & Hids).
    + intros k' Hk'. apply Hres. right. exact Hk'.
    + simpl. unfold keys in *. rewrite map_app. simpl.
      rewrite <- app_assoc. exact Hnd.
    + exact Hf'.
    + exact Ha'.
    + exists ((k, v') :: items'), next'. rewrite Hrun. simpl.
      rewrite <- app_assoc. simpl.
      split; [reflexivity|]. split; [lia|]. split.
      * constructor; [split; [reflexivity|exact Hsame]|exact Hsf].
      * rewrite Hv'. simpl. rewrite forallb_forall in *.
        intros kv Hkv. apply (ids_at_least_mono _ next n1 Hn1), Hids, Hkv.
Qed.

(** ** What a pickle records *)

Lemma all2_items_iff (R : value -> value -> bool) (f : value -> value)
  (xs : list value) :
  Forall (fun a => forall b, R a b = true <-> f a = f b) xs ->
  forall ys,
    (fix all2 (xs ys : list value) {struct xs} : bool :=
       match xs, ys with
       | [], [] => true
       | x :: xs', y :: ys' => R x y && all2 xs' ys'
       | _, _ => false
       end) xs ys = true <-> map f xs = map f ys.
Proof.
  induction 1 as [|x xs Hx _ IH]; intros [|y ys]; simpl;
    try (split; [reflexivity|reflexivity]);
    try (split; discriminate).
  rewrite andb_true_iff, Hx, IH. split.
  - intros [-> ->]. reflexivity.
  - intros H. injection H as H1 H2. auto.
Qed.

Lemma all2_pairs_iff (R : value -> value -> bool) (f : value -> value)
  (xs : list (string * value)) :
  Forall (fun kv => forall b, R (snd kv) b = true <-> f (snd kv) = f b) xs ->
  forall ys,
    (fix all2 (xs ys : list (string * value)) {struct xs} : bool :=
       match xs, ys with
       | [], [] => true
       | (k, x) :: xs', (l, y) :: ys' => String.eqb k l && R x y && all2 xs' ys'
       | _, _ => false
       end) xs ys = true
    <-> map (fun kv => (fst kv, f (snd kv))) xs
        = map (fun kv => (fst kv, f (snd kv))) ys.
Proof.
  induction 1 as [|[k x] xs Hx _ IH]; intros [|[l y] ys]; simpl;
    try (split; [reflexivity|reflexivity]);
    try (split; discriminate).
  simpl in Hx. rewrite !andb_true_iff, Hx, IH, String.eqb_eq. split.
  - intros [[-> ->] ->]. reflexivity.
  - intros H. injection H as H1 H2 H3. auto.
Qed.

(** Two values are the same pickle exactly when they record the same. *)
Lemma same_pickle_pickled (a : value) :
  forall b, same_pickle a b = true <-> pickled a = pickled b.
Proof.
  induction a as [|x|x|x|xs IH|kvs IH|i c kvs IH] using value_nested_ind;
    intros b; destruct b as [|y|y|y|ys|lws|j d lws];
    try (simpl; split; [reflexivity|reflexivity]);
    try (simpl; split; discriminate).
  - simpl. split; intros H.
    + apply Bool.eqb_prop in H. congruence.
    + injection H as ->. apply Bool.eqb_reflx.
  - simpl. rewrite Z.eqb_eq. split; congruence.
  - simpl. rewrite String.eqb_eq. split; congruence.
  - pose proof (all2_items_iff same_pickle pickled xs IH ys) as E.
    simpl. split; intros H.
    + apply E in H. rewrite H. reflexivity.
    + apply E. injection H as H. exact H.
  - pose proof (all2_pairs_iff same_pickle pickled kvs IH lws) as E.
    simpl. split; intros H.
    + apply E in H. rewrite H. reflexivity.
    + apply E. injection H as H. exact H.
  - pose proof (all2_pairs_iff same_pickle pickled kvs IH lws) as E.
    simpl. rewrite andb_true_iff, cls_eqb_eq. split.
    + intros [-> H]. apply E in H. rewrite H. reflexivity.
    + intros H. injection H as H1 H2. split; [exact H1|].
      apply E. exact H2.
Qed.

Lemma same_pickle_refl (v : value) : same_pickle v v = true.
Proof. apply same_pickle_pickled. reflexivity. Qed.

Lemma forallb_map_snd (f : value -> value) (Q : value -> bool)
  (kvs : list (string * value)) :
  Forall (fun kv => Q (f (snd kv)) = Q (snd kv)) kvs ->
  forallb (fun kv => Q (snd kv)) (map (fun kv => (fst kv, f (snd kv))) kvs)
  = forallb (fun kv => Q (snd kv)) kvs.
Proof.
  induction 1 as [|[k x] kvs Hx _ IH]; simpl; [reflexivity|].
  simpl in Hx. rewrite Hx, IH. reflexivity.
Qed.

Lemma forallb_map_items (f : value -> value) (Q : value -> bool)
  (xs : list value) :
  Forall (fun x => Q (f x) = Q x) xs ->
  forallb Q (map f xs) = forallb Q xs.
Proof.
  induction 1 as [|x xs Hx _ IH]; simpl; [reflexivity|].
  rewrite Hx, IH. reflexivity.
Qed.

Lemma plain_pickled (v : value) : plain (pickled v) = plain v.
Proof.
  induction v as [| | | |xs IH|kvs IH|i c kvs IH] using value_nested_ind;
    try reflexivity.
  - change (plain (VList (map pickled xs)) = plain (VList xs)).
    rewrite !plain_list. apply forallb_map_items. exact IH.
  - change (plain (VDict (map (fun kv => (fst kv, pickled (snd kv))) kvs))
            = plain (VDict kvs)).
    rewrite !plain_dict. apply (forallb_map_snd pickled). exact IH.
Qed.

Lemma same_pickle_plain (a b : value) :
  same_pickle a b = true -> plain a = plain b.
Proof.
  intros H. apply same_pickle_pickled in H.
  rewrite <- (plain_pickled a), <- (plain_pickled b), H. reflexivity.
Qed.

Lemma same_fields_forallb (Q : value -> bool) (a b : dict) :
  (forall v w, same_pickle v w = true -> Q v = Q w) ->
  same_fields a b ->
  forallb (fun kv => Q (snd kv)) a = forallb (fun kv => Q (snd kv)) b.
Proof.
  intros HQ. induction 1 as [|p q a b [_ Hv] _ IH]; simpl; [reflexivity|].
  rewrite (HQ _ _ Hv), IH. reflexivity.
Qed.

(** ** A copy is not equal to what holds objects *)

Lemma ids_below_list (n : nat) (xs : list value) :
  ids_below n (VList xs) = forallb (ids_below n) xs.
Proof. exact (all_items (ids_below n) xs). Qed.

Lemma ids_below_dict (n : nat) (kvs : list (string * value)) :
  ids_below n (VDict kvs) = forallb (fun kv => ids_below n (snd kv)) kvs.
Proof. exact (all_pairs (ids_below n) kvs). Qed.

Lemma lookup_Some_In {A : Type} (k : string) (v : A) (d : list (string * A)) :
  lookup k d = Some v -> In (k, v) d.
Proof.
  induction d as [|[k0 v0] d IH]; simpl; [discriminate|].
  destruct (String.eqb k k0) eqn:E.
  - apply String.eqb_eq in E. subst. intros H. inversion H. left. reflexivity.
  - intros H. right. apply IH. exact H.
Qed.

Lemma is_void_class (x y : entity) :
  ocls x = ocls y -> is_void x = is_void y.
Proof.
  unfold is_void, is_void_value, isinstance, obj. simpl. intros ->. reflexivity.
Qed.


(** A value that holds an object, all of whose objects are new, is not
    equal to a value made of old objects: objects compare by identity. *)
Lemma py_eq_fresh_false (b : value) :
  forall (a : value) (n : nat),
    plain b = false ->
    ids_at_least n b = true ->
    ids_below n a = true ->
    py_eq b a = false.
Proof.
  induction b as [| | | |ys IH|lws IH|j c lws IH] using value_nested_ind;
    intros a n Hp Hb Ha; try discriminate.
  - destruct a as [| | | |xs| |]; try reflexivity.
    rewrite plain_list in Hp. rewrite ids_at_least_list in Hb.
    rewrite ids_below_list in Ha. simpl.
    revert xs Ha. induction IH as [|y ys Hy _ IHys]; intros xs Ha;
      [discriminate|].
    destruct xs as [|x xs]; [reflexivity|].
    simpl in Hp, Hb, Ha.
    apply andb_true_iff in Hb, Ha. destruct Hb as [Hb1 Hb2], Ha as [Ha1 Ha2].
    destruct (plain y) eqn:Hpy.
    + rewrite (IHys Hp Hb2 xs Ha2). apply andb_false_r.
    + rewrite (Hy x n eq_refl Hb1 Ha1). reflexivity.
  - destruct a as [| | | | |kvs|]; try reflexivity.
    rewrite plain_dict in Hp. rewrite ids_at_least_dict in Hb.
    rewrite ids_below_dict in Ha. simpl.
    apply andb_false_iff. right.
    induction IH as [|[l y] lws Hy _ IHlws]; [discriminate|].
    simpl in Hp, Hb, Hy.
    apply andb_true_iff in Hb. destruct Hb as [Hb1 Hb2].
    destruct (plain y) eqn:Hpy.
    + rewrite (IHlws Hp Hb2). apply andb_false_r.
    + destruct (lookup l kvs) as [w|] eqn:Ew; [|reflexivity].
      rewrite (Hy w n eq_refl Hb1); [reflexivity|].
      apply lookup_Some_In in Ew. rewrite forallb_forall in Ha.
      apply (Ha _ Ew).
  - destruct a as [| | | | | |i d kvs]; try reflexivity.
    rewrite ids_at_least_obj in Hb. rewrite ids_below_obj in Ha.
    apply andb_true_iff in Hb, Ha. destruct Hb as [Hb _], Ha as [Ha _].
    apply Nat.leb_le in Hb. apply Nat.ltb_lt in Ha.
    simpl. apply Nat.eqb_neq. lia.
Qed.

(** C2, counterexample: the clone of the Void instance is the Void instance
    itself, not a new object; and an object held in a field is copied too,
    so that [equals], which compares the copy with the original by
    identity, does not hold between a clone and its original. *)
Lemma clone_not_new_or_not_equal :
  (exists cloned next',
     clone VoidInstance 1 = Ok (cloned, next') /\
     oid cloned = oid VoidInstance) /\
  (exists cloned next',
     clone sample_holder 20 = Ok (cloned, next') /\
     equals cloned (obj sample_holder) = false).
Proof.
  split.
  - exists VoidInstance, 1. split; reflexivity.
  - eexists _, _. split; reflexivity.
Qed.

(** A field that [setattr] refuses makes [clone] raise, and so does a held
    object with a field that hides a hook of [copy.deepcopy]. *)
Example clone_of_odd_raises :
  clone sample_odd 20 = Raise (TypeError_setattr "__class__") /\
  clone (mkEntity 14 Person
           [("friend", VObj 15 Person [("__deepcopy__", VInt 1)])]) 20
  = Raise (TypeError_not_callable "__deepcopy__").
Proof. split; reflexivity. Qed.

(** C2. Let [x] be an object of a store that is not a Void, whose
    dictionaries hold each key once, whose fields have names that [setattr]
    stores and hold values that [copy.deepcopy] copies, no object inside
    them having a field that hides a hook of the copy; let [next] be the
    first identity not in use. Then [clone] returns a new object, of the
    identity [next] and so not [x], of the class of [x]; no constructor
    ran: it has the fields of [x], in their order, and nothing more; each
    field holds a deep copy, of the same classes and contents, and every
    object inside the clone is new, none being an object of [x]. The clone
    [equals] [x] exactly when the fields of [x] hold data only; then the
    clone has the very dictionary of [x]. *)
Theorem clone_is_new_and_equal :
  forall (h : store) (x : entity) (next : nat),
    is_void x = false ->
    well_formed (obj x) = true ->
    settable_fields x = true ->
    copyable_fields x = true ->
    fields_agree h x ->
    ids_below next (obj x) = true ->
    exists cloned next',
      clone x next = Ok (cloned, next') /\
      oid cloned = next /\ oid cloned <> oid x /\
      ocls cloned = ocls x /\
      same_fields (odict x) (odict cloned) /\
      ids_at_least next (obj cloned) = true /\
      (plain_fields x = true -> odict cloned = odict x) /\
      equals cloned (obj x) = plain_fields x.
Proof.
  intros h x next Hvoid Hwf Hset Hcopy Ha Hold.
  destruct (well_formed_fields x Hwf) as [Hnd Hw].
  unfold obj in Hold. rewrite ids_below_obj in Hold.
  apply andb_true_iff in Hold. destruct Hold as [Hid Hold].
  apply Nat.ltb_lt in Hid.
  destruct (clone_attrs_general h (odict x) (mkEntity next (ocls x) []) (S next))
    as (items' & next' & Hrun & Hle & Hsf & Hids).
  { intros k Hk. apply (settable_fields_keys x k Hset Hk). }
  { exact Hnd. }
  { exact Hcopy. }
  { exact Ha. }
  simpl in Hrun.
  assert (Hnew : forallb (fun kv => ids_at_least next (snd kv)) items' = true).
  { rewrite forallb_forall in *. intros kv Hkv.
    apply (ids_at_least_mono _ next (S next)); [lia|]. apply Hids, Hkv. }
  assert (Hplain : plain_fields x = true -> items' = odict x).
  { intros Hp. unfold plain_fields, settable_fields in *.
    rewrite (clone_attrs_plain (odict x) (mkEntity next (ocls x) []) (S next)
               Hp Hset Hnd) in Hrun.
    simpl in Hrun. injection Hrun as Hrun _. symmetry. exact Hrun. }
  exists (mkEntity next (ocls x) items'), next'.
  split; [unfold clone; rewrite Hvoid; exact Hrun|].
  split; [reflexivity|]. split; [simpl; lia|]. split; [reflexivity|].
  split; [exact Hsf|]. split.
  { unfold obj. rewrite ids_at_least_obj. simpl. rewrite Nat.leb_refl.
    exact Hnew. }
  split; [exact Hplain|].
  unfold equals.
  rewrite (is_void_class (mkEntity next (ocls x) items') x eq_refl), Hvoid.
  unfold General_equals. simpl ocls. simpl odict.
  assert (Hin : isinstance (obj x) (TClass (ocls x)) = true)
    by (simpl; apply issubclass_refl).
  rewrite Hin. cbn [negb]. rewrite as_entity_obj.
  destruct (plain_fields x) eqn:Hp.
  - rewrite (Hplain eq_refl).
    apply (py_eq_same (VDict (odict x))).
    rewrite well_formed_dict. apply andb_true_iff. split; [|exact Hw].
    apply distinct_NoDup. exact Hnd.
  - destruct (py_eq (VDict items') (VDict (odict x))) eqn:E; [|reflexivity].
    exfalso. apply py_eq_dict in E. destruct E as [_ E].
    unfold plain_fields in Hp.
    assert (Hp' : forallb (fun kv => plain (snd kv)) items' = false).
    { rewrite <- (same_fields_forallb plain _ _ same_pickle_plain Hsf).
      exact Hp. }
    assert (Hex : exists kv, In kv items' /\ plain (snd kv) = false).
    { clear - Hp'. induction items' as [|kv l IH]; [discriminate|].
      simpl in Hp'. destruct (plain (snd kv)) eqn:Ekv.
      - destruct (IH Hp') as (kv' & Hin & Hkv'). exists kv'. split; [right|];
          assumption.
      - exists kv. split; [left; reflexivity|exact Ekv]. }
    destruct Hex as ([k v'] & Hin' & Hv'). simpl in Hv'.
    destruct (E k v' Hin') as (w & Hw1 & Hw2).
    apply lookup_Some_In in Hw1.
    rewrite forallb_forall in Hnew, Hold.
    rewrite (py_eq_fresh_false v' w next Hv' (Hnew _ Hin') (Hold _ Hw1)) in Hw2.
    discriminate.
Qed.

Lemma clone_is_new_and_equal_witness :
  (exists cloned next',
     clone sample_person 20 = Ok (cloned, next') /\
     oid cloned <> oid sample_person /\
     equals cloned (obj sample_person) = true) /\
  (exists cloned next',
     clone sample_holder 20 = Ok (cloned, next') /\
     same_fields (odict sample_holder) (odict cloned) /\
     ids_at_least 20 (obj cloned) = true).
Proof.
  split.
  - destruct (clone_is_new_and_equal sample_store sample_person 20
                eq_refl eq_refl eq_refl eq_refl)
      as (cloned & next' & Hrun & _ & Hnew & _ & _ & _ & _ & Heq).
    + repeat constructor.
    + reflexivity.
    + exists cloned, next'. repeat split; assumption.
  - destruct (clone_is_new_and_equal sample_store sample_holder 20
                eq_refl eq_refl eq_refl eq_refl)
      as (cloned & next' & Hrun & _ & _ & _ & Hsf & Hids & _).
    + repeat constructor.
    + reflexivity.
    + exists cloned, next'. repeat split; assumption.
Defined.

(** ** The order of names *)

Lemma string_leb_refl (a : string) : String.leb a a = true.
Proof.
  destruct (String.leb_total a a); assumption.
Qed.

Lemma string_leb_trans (a b c : string) :
  String.leb a b = true -> String.leb b c = true -> String.leb a c = true.
Proof.
  unfold String.leb.
  destruct (String.compare a b) eqn:Eab; try discriminate;
    destruct (String.compare b c) eqn:Ebc; try discriminate; intros _ _.
  - apply String.compare_eq_iff in Eab, Ebc. subst.
    change (String.leb c c = true). apply string_leb_refl.
  - apply String.compare_eq_iff in Eab. subst. rewrite Ebc. reflexivity.
  - apply String.compare_eq_iff in Ebc. subst. rewrite Eab. reflexivity.
  - assert (H : String.compare a c = Lt).
    { apply OrderedTypeEx.String_as_OT.cmp_lt.
      eapply OrderedTypeEx.String_as_OT.lt_trans;
        apply OrderedTypeEx.String_as_OT.cmp_lt; eassumption. }
    rewrite H. reflexivity.
Qed.

Section SortedFacts.
Context {A : Type} (key : A -> string).

Lemma insert_sorted_StronglySorted (x : A) (l : list A) :
  StronglySorted (key_le key) l -> StronglySorted (key_le key) (insert_sorted key x l).
Proof.
  induction 1 as [|y l Hl IH Hy]; simpl.
  - repeat constructor.
  - destruct (String.leb (key x) (key y)) eqn:E.
    + constructor; [constructor; assumption|].
      constructor; [exact E|].
      eapply Forall_impl; [|exact Hy].
      intros z Hz. eapply string_leb_trans; eassumption.
    + constructor; [exact IH|].
      eapply Permutation_Forall; [apply insert_sorted_perm|].
      constructor; [|exact Hy].
      destruct (String.leb_total (key x) (key y)) as [H|H];
        [congruence|exact H].
Qed.

Lemma sort_by_StronglySorted (l : list A) :
  StronglySorted (key_le key) (sort_by key l).
Proof.
  induction l as [|x l IH]; simpl.
  - constructor.
  - apply insert_sorted_StronglySorted. exact IH.
Qed.

Lemma sort_by_sorted_id (l : list A) :
  StronglySorted (key_le key) l -> sort_by key l = l.
Proof.
  induction 1 as [|x l Hl IH Hx]; simpl; [reflexivity|].
  rewrite IH. destruct Hx as [|y l Hxy _]; simpl; [reflexivity|].
  unfold key_le in Hxy. rewrite Hxy. reflexivity.
Qed.

Lemma sort_by_idempotent (l : list A) :
  sort_by key (sort_by key l) = sort_by key l.
Proof. apply sort_by_sorted_id, sort_by_StronglySorted. Qed.

Lemma NoDup_key_inj (l : list A) (x y : A) :
  NoDup (map key l) -> In x l -> In y l -> key x = key y -> x = y.
Proof.
  induction l as [|z l IH]; simpl; intros Hnd Hx Hy E; [contradiction|].
  inversion Hnd as [|? ? Hnotin Hnd']; subst.
  destruct Hx as [->|Hx], Hy as [->|Hy].
  - reflexivity.
  - exfalso. apply Hnotin. rewrite E. apply in_map. exact Hy.
  - exfalso. apply Hnotin. rewrite <- E. apply in_map. exact Hx.
  - apply IH; assumption.
Qed.

Lemma sorted_perm_unique (l1 : list A) :
  forall l2,
    StronglySorted (key_le key) l1 -> StronglySorted (key_le key) l2 ->
    NoDup (map key l1) -> Permutation l1 l2 -> l1 = l2.
Proof.
  induction l1 as [|x l1 IH]; intros l2 H1 H2 Hnd Hperm.
  - apply Permutation_nil in Hperm. congruence.
  - destruct l2 as [|y l2];
      [apply Permutation_sym, Permutation_nil in Hperm; discriminate|].
    assert (Hxy : x = y).
    { apply (NoDup_key_inj (x :: l1)); try assumption.
      - left. reflexivity.
      - apply (Permutation_in _ (Permutation_sym Hperm)). left. reflexivity.
      - apply String.leb_antisym.
        + apply StronglySorted_inv in H1. destruct H1 as [_ H1].
          assert (Hy : In y (x :: l1))
            by (apply (Permutation_in _ (Permutation_sym Hperm)); left;
                reflexivity).
          destruct Hy as [->|Hy]; [apply string_leb_refl|].
          rewrite Forall_forall in H1. apply H1. exact Hy.
        + apply StronglySorted_inv in H2. destruct H2 as [_ H2].
          assert (Hx : In x (y :: l2))
            by (apply (Permutation_in _ Hperm); left; reflexivity).
          destruct Hx as [->|Hx]; [apply string_leb_refl|].
          rewrite Forall_forall in H2. apply H2. exact Hx. }
    subst y. f_equal.
    apply IH.
    + apply StronglySorted_inv in H1. tauto.
    + apply StronglySorted_inv in H2. tauto.
    + inversion Hnd. assumption.
    + eapply Permutation_cons_inv. exact Hperm.
Qed.

Lemma sort_by_perm_unique (l1 l2 : list A) :
  NoDup (map key l1) -> Permutation l1 l2 -> sort_by key l1 = sort_by key l2.
Proof.
  intros Hnd Hperm. apply sorted_perm_unique.
  - apply sort_by_StronglySorted.
  - apply sort_by_StronglySorted.
  - eapply Permutation_NoDup; [|exact Hnd].
    apply Permutation_map, sort_by_perm.
  - rewrite <- (sort_by_perm key l1), <- (sort_by_perm key l2). exact Hperm.
Qed.
End SortedFacts.

(** ** json.dumps and json.loads, loop by loop *)

Lemma json_dumps_list (s : bool) (xs : list value) :
  json_dumps s (VList xs) = (items <- dump_items s xs ;; Ok (JArr items)).
Proof.
  simpl. f_equal. induction xs as [|x xs IH]; simpl; [reflexivity|].
  rewrite IH. reflexivity.
Qed.

Lemma json_dumps_dict (s : bool) (kvs : list (string * value)) :
  json_dumps s (VDict kvs)
  = (members <- dump_members s kvs ;;
     Ok (JObj (if s then sort_by fst members else members))).
Proof.
  simpl. f_equal. induction kvs as [|[k x] kvs IH]; simpl; [reflexivity|].
  rewrite IH. reflexivity.
Qed.

Lemma json_loads_arr (items : list json) :
  json_loads (JArr items) = VList (map json_loads items).
Proof. reflexivity. Qed.

Lemma json_loads_obj (members : list (string * json)) :
  json_loads (JObj members) = VDict (build_members members []).
Proof.
  simpl. apply f_equal. generalize (@nil (string * value)).
  induction members as [|[k x] members IH]; intros acc; [reflexivity|].
  simpl. apply IH.
Qed.


Lemma forallb_andb {A : Type} (P Q : A -> bool) (l : list A) :
  forallb (fun x => P x && Q x) l = forallb P l && forallb Q l.
Proof.
  induction l as [|x l IH]; simpl; [reflexivity|].
  rewrite IH. destruct (P x), (Q x), (forallb P l); reflexivity.
Qed.

Lemma jsonable_list (xs : list value) :
  jsonable (VList xs) = forallb jsonable xs.
Proof.
  unfold jsonable. rewrite plain_list, ints_ok_list. symmetry.
  apply forallb_andb.
Qed.

Lemma jsonable_dict (kvs : list (string * value)) :
  jsonable (VDict kvs) = forallb (fun kv => jsonable (snd kv)) kvs.
Proof.
  unfold jsonable. rewrite plain_dict, ints_ok_dict. symmetry.
  apply (forallb_andb (fun kv => plain (snd kv)) (fun kv => ints_ok (snd kv))).
Qed.

(** [json.dumps] returns exactly on what is [jsonable]. *)
Lemma json_dumps_outcome (s : bool) (v : value) :
  dumps_outcome (json_dumps s v) (jsonable v).
Proof.
  induction v as [| |z| |xs IH|kvs IH|i c kvs IH] using value_nested_ind;
    try (simpl; auto; fail).
  - unfold jsonable. simpl. destruct (int_str_ok z); simpl; auto.
  - rewrite json_dumps_list, jsonable_list.
    assert (H : dumps_outcome (dump_items s xs) (forallb jsonable xs)).
    { induction IH as [|x xs Hx _ IHxs]; simpl; [reflexivity|].
      unfold dumps_outcome in Hx.
      destruct (json_dumps s x) as [j|e]; simpl.
      - rewrite Hx. simpl.
        destruct (dump_items s xs) as [js|e]; simpl in *; assumption.
      - destruct Hx as [He ->]. auto. }
    destruct (dump_items s xs); simpl in *; assumption.
  - rewrite json_dumps_dict, jsonable_dict.
    assert (H : dumps_outcome (dump_members s kvs)
                  (forallb (fun kv => jsonable (snd kv)) kvs)).
    { induction IH as [|[k x] kvs Hx _ IHkvs]; simpl; [reflexivity|].
      unfold dumps_outcome in Hx. simpl in Hx.
      destruct (json_dumps s x) as [j|e]; simpl.
      - rewrite Hx. simpl.
        destruct (dump_members s kvs) as [js|e]; simpl in *; assumption.
      - destruct Hx as [He ->]. auto. }
    destruct (dump_members s kvs); simpl in *; assumption.
Qed.

Lemma json_dumps_jsonable (s : bool) (v : value) :
  jsonable v = true -> exists j, json_dumps s v = Ok j.
Proof.
  intros Hp. pose proof (json_dumps_outcome s v) as H.
  destruct (json_dumps s v) as [j|e]; [eauto|].
  destruct H as [_ H]. congruence.
Qed.

Lemma json_dumps_not_jsonable (s : bool) (v : value) :
  jsonable v = false ->
  exists e, json_dumps s v = Raise e /\
            (e = TypeError_not_serializable \/ e = ValueError_int_digits).
Proof.
  intros Hp. pose proof (json_dumps_outcome s v) as H.
  destruct (json_dumps s v) as [j|e]; simpl in H; [congruence|].
  destruct H as [H _]. eauto.
Qed.

Lemma json_dumps_Ok_jsonable (s : bool) (v : value) (j : json) :
  json_dumps s v = Ok j -> jsonable v = true.
Proof.
  intros H. pose proof (json_dumps_outcome s v) as Ho.
  rewrite H in Ho. exact Ho.
Qed.

(** ** repr and str, loop by loop *)

Lemma py_repr_list (xs : list value) :
  py_repr (VList xs)
  = (parts <- map_result py_repr xs ;;
     Ok ("[" ++ String.concat ", " parts ++ "]")%string).
Proof.
  simpl. f_equal. induction xs as [|x xs IH]; simpl; [reflexivity|].
  rewrite IH. reflexivity.
Qed.

Lemma py_repr_dict (kvs : list (string * value)) :
  py_repr (VDict kvs)
  = (parts <- map_result
                (fun kv => s <- py_repr (snd kv) ;;
                           Ok (repr_str (fst kv) ++ ": " ++ s)%string) kvs ;;
     Ok ("{" ++ String.concat ", " parts ++ "}")%string).
Proof.
  cbn [py_repr]. f_equal.
  induction kvs as [|[k x] kvs IH]; cbn [map_result fst snd]; [reflexivity|].
  rewrite IH. destruct (py_repr x); reflexivity.
Qed.

(** What a function returns or raises on the elements decides what
    [map_result] does. *)
Lemma map_result_outcome {A B : Type} (f : A -> result B) (ok : A -> bool)
  (e0 : exn) (l : list A) :
  Forall (fun x => match f x with
                   | Ok _ => ok x = true
                   | Raise e => e = e0 /\ ok x = false
                   end) l ->
  match map_result f l with
  | Ok _ => forallb ok l = true
  | Raise e => e = e0 /\ forallb ok l = false
  end.
Proof.
  induction 1 as [|x l Hx _ IH]; simpl; [reflexivity|].
  destruct (f x) as [y|e]; simpl.
  - rewrite Hx. simpl. destruct (map_result f l); simpl; exact IH.
  - destruct Hx as [-> ->]. auto.
Qed.

(** [repr] raises on an integer beyond the digit limit, outside the objects
    the value holds, and on nothing else. *)
Lemma py_repr_outcome (v : value) :
  match py_repr v with
  | Ok _ => ints_ok v = true
  | Raise e => e = ValueError_int_digits /\ ints_ok v = false
  end.
Proof.
  induction v as [|b|z| |xs IH|kvs IH|i c kvs IH] using value_nested_ind;
    try (simpl; auto; fail).
  - destruct b; simpl; auto.
  - simpl. unfold repr_int. destruct (int_str_ok z); simpl; auto.
  - rewrite py_repr_list, ints_ok_list.
    pose proof (map_result_outcome py_repr ints_ok ValueError_int_digits xs IH)
      as H.
    destruct (map_result py_repr xs); simpl; exact H.
  - rewrite py_repr_dict, ints_ok_dict.
    pose proof (map_result_outcome
                  (fun kv => s <- py_repr (snd kv) ;;
                             Ok (repr_str (fst kv) ++ ": " ++ s)%string)
                  (fun kv => ints_ok (snd kv)) ValueError_int_digits kvs) as H.
    destruct (map_result _ kvs); simpl; apply H;
      (eapply Forall_impl; [|exact IH]); intros [k x]; simpl;
      destruct (py_repr x); simpl; auto.
Qed.

(** ** str *)

Lemma forallb_filter_public (d : dict) :
  forallb (fun kv => ints_ok (snd kv))
    (filter (fun '(attr_name, _) => negb (startswith_underscore attr_name)) d)
  = public_ints_ok d.
Proof.
  unfold public_ints_ok. induction d as [|[k v] d IH]; simpl; [reflexivity|].
  destruct (startswith_underscore k); simpl; rewrite IH; reflexivity.
Qed.

(** [General.print_object] raises on a public field that [repr] refuses,
    and on nothing else. *)
Lemma General_print_object_outcome (x : entity) :
  match General_print_object x with
  | Ok _ => public_ints_ok (odict x) = true
  | Raise e => e = ValueError_int_digits /\ public_ints_ok (odict x) = false
  end.
Proof.
  unfold General_print_object.
  match goal with
  | |- context [map_result ?f ?l] =>
      pose proof (map_result_outcome f (fun kv => ints_ok (snd kv))
                    ValueError_int_digits l) as H
  end.
  rewrite forallb_filter_public in H.
  match goal with
  | |- context [map_result ?f ?l] => destruct (map_result f l)
  end; cbn [bind]; apply H; apply Forall_forall; intros [k v] _;
    cbn [snd]; pose proof (py_repr_outcome v) as Hv;
    destruct (py_repr v); cbn [bind]; exact Hv.
Qed.

(** When [str] returns: on a string, on a Void, on an object whose
    [print_object] is not hidden and whose public fields [repr] accepts,
    and on data that [repr] accepts. *)
Lemma has_str_spec (v : value) :
  has_str v
  = match v with
    | VStr _ => true
    | VObj _ c fields =>
        issubclass c Void ||
        (negb (has_key "print_object" fields) && public_ints_ok fields)
    | _ => ints_ok v
    end.
Proof.
  unfold has_str, py_str.
  destruct v as [|b|z|s|xs|kvs|i c fields]; try reflexivity.
  - destruct b; reflexivity.
  - pose proof (py_repr_outcome (VInt z)) as H.
    destruct (py_repr (VInt z)); [exact (eq_sym H)|].
    destruct H as [_ H]. exact (eq_sym H).
  - pose proof (py_repr_outcome (VList xs)) as H.
    destruct (py_repr (VList xs)); [exact (eq_sym H)|].
    destruct H as [_ H]. exact (eq_sym H).
  - pose proof (py_repr_outcome (VDict kvs)) as H.
    destruct (py_repr (VDict kvs)); [exact (eq_sym H)|].
    destruct H as [_ H]. exact (eq_sym H).
  - destruct (issubclass c Void) eqn:Hv; [reflexivity|].
    unfold invoke. cbn [odict orb].
    destruct (has_key "print_object" fields); [reflexivity|].
    unfold print_object, is_void, is_void_value, isinstance, obj.
    cbn [type_of issubtype oid ocls odict]. rewrite Hv. cbn [negb andb].
    pose proof (General_print_object_outcome (mkEntity i c fields)) as H.
    destruct (General_print_object (mkEntity i c fields));
      [exact (eq_sym H)|].
    destruct H as [_ H]. exact (eq_sym H).
Qed.

(** A field can be written when [json.dumps] accepts it or [str] returns. *)
Lemma writable_spec (v : value) : writable v = jsonable v || has_str v.
Proof.
  unfold writable, json_ready, has_str.
  pose proof (json_dumps_outcome false v) as H.
  destruct (json_dumps false v) as [j|e]; simpl in H.
  - rewrite H. reflexivity.
  - destruct H as [_ ->]. destruct (py_str v); reflexivity.
Qed.

(** ** pickle.dumps, loop by loop *)

Lemma pickle_check_list (xs : list value) :
  pickle_check (VList xs) = check_items xs.
Proof.
  simpl. induction xs as [|x xs IH]; simpl; [reflexivity|].
  rewrite IH. reflexivity.
Qed.

Lemma check_pairs_fix (kvs : list (string * value)) :
  (fix each (kvs : list (string * value)) : result unit :=
     match kvs with
     | [] => Ok tt
     | (_, x) :: rest => _ <- pickle_check x ;; each rest
     end) kvs = check_pairs kvs.
Proof.
  induction kvs as [|[k x] kvs IH]; simpl; [reflexivity|].
  rewrite IH. reflexivity.
Qed.

Lemma pickle_check_dict (kvs : list (string * value)) :
  pickle_check (VDict kvs) = check_pairs kvs.
Proof. simpl. apply check_pairs_fix. Qed.

Lemma pickle_check_obj (i : nat) (c : cls) (fields : list (string * value)) :
  pickle_check (VObj i c fields)
  = (_ <- pickle_protocol fields ;; check_pairs fields).
Proof. simpl. rewrite check_pairs_fix. reflexivity. Qed.

Lemma pickle_check_plain (v : value) : plain v = true -> pickle_check v = Ok tt.
Proof.
  induction v as [| | | |xs IH|kvs IH|i c kvs IH] using value_nested_ind;
    intros Hp; try reflexivity; try discriminate.
  - rewrite plain_list in Hp. rewrite pickle_check_list.
    induction IH as [|x xs Hx _ IHxs]; simpl; [reflexivity|].
    simpl in Hp. apply andb_true_iff in Hp. destruct Hp as [Hp1 Hp2].
    rewrite (Hx Hp1). simpl. apply IHxs. exact Hp2.
  - rewrite plain_dict in Hp. rewrite pickle_check_dict.
    induction IH as [|[k x] kvs Hx _ IHkvs]; simpl; [reflexivity|].
    simpl in Hp, Hx. apply andb_true_iff in Hp. destruct Hp as [Hp1 Hp2].
    rewrite (Hx Hp1). simpl. apply IHkvs. exact Hp2.
Qed.

(** ** What serialize writes *)

Lemma stored_spec (v : value) :
  writable v = true -> json_ready v = Ok (stored v).
Proof.
  unfold writable, stored. destruct (json_ready v); [reflexivity|discriminate].
Qed.

Lemma serializable_dict_step (k : string) (v : value) (acc : dict) :
  try_except_TypeError_ValueError
    (_ <- json_dumps false v ;; Ok (dict_set k v acc))
    (s <- py_str v ;; Ok (dict_set k (VStr s) acc))
  = (w <- json_ready v ;; Ok (dict_set k w acc)).
Proof.
  unfold json_ready. pose proof (json_dumps_outcome false v) as H.
  destruct (json_dumps false v) as [j|e]; simpl; [reflexivity|].
  simpl in H. destruct H as [[-> | ->] _]; simpl;
    destruct (py_str v); reflexivity.
Qed.

Lemma serializable_dict_spec (items : dict) :
  forall acc,
    NoDup (keys (acc ++ items)) ->
    forallb (fun kv => writable (snd kv)) items = true ->
    serializable_dict items acc
    = Ok (acc ++ map (fun kv => (fst kv, stored (snd kv))) items).
Proof.
  induction items as [|[k v] items IH]; intros acc Hnd Hw.
  - simpl. rewrite app_nil_r. reflexivity.
  - destruct (NoDup_keys_snoc _ _ _ _ Hnd) as [Hfresh Hnd'].
    simpl in Hw. apply andb_true_iff in Hw. destruct Hw as [Hw1 Hw2].
    cbn [serializable_dict]. rewrite serializable_dict_step.
    rewrite (stored_spec v Hw1). cbn [bind].
    rewrite dict_set_fresh by assumption.
    rewrite IH.
    + rewrite <- app_assoc. reflexivity.
    + unfold keys in *. rewrite !map_app in *. simpl in *. exact Hnd'.
    + exact Hw2.
Qed.

Lemma serializable_dict_raises (items : dict) :
  forallb (fun kv => writable (snd kv)) items = false ->
  forall acc, exists e, serializable_dict items acc = Raise e.
Proof.
  induction items as [|[k v] items IH]; intros Hw acc; [discriminate|].
  cbn [serializable_dict]. rewrite serializable_dict_step.
  simpl in Hw. unfold writable in Hw at 1.
  destruct (json_ready v) as [w|e]; cbn [bind].
  - apply IH. exact Hw.
  - exists e. reflexivity.
Qed.

Lemma json_dumps_stored (v : value) :
  writable v = true -> json_dumps true (stored v) = Ok (field_json v).
Proof.
  unfold writable, stored, field_json, json_ready.
  pose proof (json_dumps_outcome false v) as H.
  destruct (json_dumps false v) as [j|e]; simpl in H.
  - intros _. destruct (json_dumps_jsonable true v H) as [j' ->]. reflexivity.
  - destruct H as [_ H].
    destruct (json_dumps_not_jsonable true v H) as (e' & -> & _).
    destruct (py_str v); [reflexivity|discriminate].
Qed.

Lemma dump_members_stored (d : dict) :
  forallb (fun kv => writable (snd kv)) d = true ->
  dump_members true (map (fun kv => (fst kv, stored (snd kv))) d)
  = Ok (map (fun kv => (fst kv, field_json (snd kv))) d).
Proof.
  induction d as [|[k v] d IH]; simpl; intros Hw; [reflexivity|].
  apply andb_true_iff in Hw. destruct Hw as [Hw1 Hw2].
  rewrite (json_dumps_stored v Hw1), (IH Hw2). reflexivity.
Qed.

(** When every field can be written, [General.serialize] writes the
    document of the object. *)
Lemma General_serialize_document (x : entity) :
  NoDup (keys (odict x)) ->
  writable_fields x = true ->
  General_serialize x = Ok (JsonText (document x)).
Proof.
  intros Hnd Hw. unfold General_serialize.
  rewrite serializable_dict_spec by assumption.
  cbn [bind app try_except].
  rewrite json_dumps_dict. cbn [dump_members bind].
  rewrite json_dumps_dict, dump_members_stored by exact Hw.
  reflexivity.
Qed.

(** When a field cannot be written, it falls back to the pickle. *)
Lemma General_serialize_pickle (x : entity) :
  writable_fields x = false ->
  General_serialize x = pickle_dumps (obj x).
Proof.
  intros Hw. unfold General_serialize.
  destruct (serializable_dict_raises (odict x) Hw []) as [e ->].
  reflexivity.
Qed.

Lemma serialize_outcome (x : entity) (t : text) :
  is_void x = false ->
  NoDup (keys (odict x)) ->
  serialize x = Ok t ->
  (writable_fields x = true /\ t = JsonText (document x)) \/
  (writable_fields x = false /\ pickle_check (obj x) = Ok tt /\
   t = PickleText (obj x)).
Proof.
  intros Hvoid Hnd. unfold serialize. rewrite Hvoid.
  destruct (writable_fields x) eqn:Hw.
  - rewrite (General_serialize_document x Hnd Hw). intros H. left.
    split; congruence.
  - rewrite (General_serialize_pickle x Hw). unfold pickle_dumps.
    destruct (pickle_check (obj x)) as [[]|e]; simpl; [|discriminate].
    intros H. right. repeat split. congruence.
Qed.

Lemma keys_map_snd {A B : Type} (f : A -> B) (d : list (string * A)) :
  keys (map (fun kv => (fst kv, f (snd kv))) d) = keys d.
Proof. unfold keys. rewrite map_map. reflexivity. Qed.

Lemma data_members_keys (d : dict) :
  Permutation (keys (data_members d)) (keys d).
Proof.
  unfold data_members.
  rewrite <- (keys_map_snd field_json d).
  apply Permutation_map, Permutation_sym, sort_by_perm.
Qed.


Lemma forallb_perm {A : Type} (P : A -> bool) (l1 l2 : list A) :
  Permutation l1 l2 -> forallb P l1 = forallb P l2.
Proof.
  induction 1 as [|x l1 l2 _ IH|x y l|l1 l2 l3 _ IH1 _ IH2]; simpl.
  - reflexivity.
  - rewrite IH. reflexivity.
  - destruct (P x), (P y); reflexivity.
  - congruence.
Qed.

(** ** serialize is deterministic *)

(** C9, counterexample: two objects of one class hold the same two fields,
    set in two orders; one field holds an object whose [str] raises, so
    that [serialize] falls back to the pickle, which follows the order in
    which the fields were set: the two texts differ. *)
Lemma serialize_follows_insertion_order :
  ocls sample_ab = ocls sample_ba /\
  Permutation (odict sample_ab) (odict sample_ba) /\
  serialize sample_ab = Ok (PickleText (obj sample_ab)) /\
  serialize sample_ba = Ok (PickleText (obj sample_ba)) /\
  text_eqb (PickleText (obj sample_ab)) (PickleText (obj sample_ba)) = false.
Proof.
  split; [reflexivity|]. split; [apply perm_swap|].
  split; [reflexivity|]. split; reflexivity.
Qed.

(** C9. Take two objects of the same class, not Voids, that hold the same
    fields, in whatever order they were set. When every field can be
    written, as JSON or through [str], they serialize to the same text,
    and the text lists the fields sorted by name. When a field cannot be
    written, [serialize] hands back the pickle of the object, or raises
    what [pickle.dumps] raises. Every Void serializes to one fixed text. *)
Theorem serialize_deterministic :
  forall (x y : entity),
    is_void x = false ->
    ocls x = ocls y ->
    distinct (keys (odict x)) = true ->
    Permutation (odict x) (odict y) ->
    (writable_fields x = true ->
     serialize x = serialize y /\
     exists members,
       serialize x
       = Ok (JsonText (JObj [("class", JStr (class_name (ocls x)));
                             ("data", JObj members)])) /\
       StronglySorted (key_le fst) members /\
       Permutation (keys members) (keys (odict x))) /\
    (writable_fields x = false ->
     serialize x = pickle_dumps (obj x) /\
     serialize y = pickle_dumps (obj y)) /\
    (forall v, is_void v = true -> serialize v = Ok (JsonText void_document)).
Proof.
  intros x y Hx Hcls Hd Hperm.
  apply distinct_NoDup in Hd.
  assert (Hy : is_void y = false)
    by (rewrite <- (is_void_class x y Hcls); exact Hx).
  assert (Hd' : NoDup (keys (odict y))).
  { eapply Permutation_NoDup; [|exact Hd]. apply Permutation_map. exact Hperm. }
  assert (Hwy : writable_fields y = writable_fields x).
  { unfold writable_fields. symmetry. apply forallb_perm. exact Hperm. }
  unfold serialize. rewrite Hx, Hy.
  split; [|split].
  - intros Hw.
    rewrite !General_serialize_document by congruence.
    split.
    + unfold document, data_members. rewrite Hcls. do 2 f_equal.
      rewrite (sort_by_perm_unique fst
                 (map (fun kv => (fst kv, field_json (snd kv))) (odict x))
                 (map (fun kv => (fst kv, field_json (snd kv))) (odict y)));
        [reflexivity| |].
      * change (NoDup (keys (map (fun kv => (fst kv, field_json (snd kv)))
                                (odict x)))).
        rewrite keys_map_snd. exact Hd.
      * apply Permutation_map. exact Hperm.
    + exists (data_members (odict x)). split; [reflexivity|]. split.
      * apply sort_by_StronglySorted.
      * apply data_members_keys.
  - intros Hw. rewrite !General_serialize_pickle by congruence.
    split; reflexivity.
  - intros v Hv. rewrite Hv. reflexivity.
Qed.

Lemma serialize_deterministic_witness :
  serialize (mkEntity 1 Person [("name", VStr "Anna"); ("age", VInt 25)])
  = serialize (mkEntity 2 Person [("age", VInt 25); ("name", VStr "Anna")]).
Proof.
  apply (proj1 (serialize_deterministic
                  (mkEntity 1 Person [("name", VStr "Anna"); ("age", VInt 25)])
                  (mkEntity 2 Person [("age", VInt 25); ("name", VStr "Anna")])
                  eq_refl eq_refl eq_refl (perm_swap _ _ _))).
  reflexivity.
Defined.

(** ** What deserialize reads *)

Lemma build_members_fresh (members : list (string * json)) :
  forall acc,
    NoDup (keys acc ++ keys members) ->
    build_members members acc
    = acc ++ map (fun kj => (fst kj, json_loads (snd kj))) members.
Proof.
  induction members as [|[k j] members IH]; intros acc Hnd; simpl.
  - rewrite app_nil_r. reflexivity.
  - assert (Hfresh : ~ In k (keys acc)).
    { apply NoDup_remove_2 in Hnd. intros Hin. apply Hnd, in_or_app. auto. }
    rewrite dict_set_fresh by exact Hfresh.
    rewrite IH.
    + rewrite <- app_assoc. reflexivity.
    + unfold keys in *. rewrite map_app. simpl. rewrite <- app_assoc. exact Hnd.
Qed.

Lemma restore_attrs_settable (items : dict) :
  forall instance,
    (forall k, In k (keys items) -> reserved_name k = false) ->
    NoDup (keys (odict instance) ++ keys items) ->
    restore_attrs items instance
    = Ok (mkEntity (oid instance) (ocls instance) (odict instance ++ items)).
Proof.
  induction items as [|[k v] items IH]; intros instance Hres Hnd; simpl.
  - rewrite app_nil_r. destruct instance; reflexivity.
  - assert (Hfresh : ~ In k (keys (odict instance))).
    { apply NoDup_remove_2 in Hnd. intros Hin. apply Hnd, in_or_app. auto. }
    rewrite setattr_settable by (apply Hres; left; reflexivity).
    simpl. rewrite dict_set_fresh by exact Hfresh.
    rewrite IH; simpl.
    + rewrite <- app_assoc. reflexivity.
    + intros k' Hk'. apply Hres. right. exact Hk'.
    + unfold keys in *. rewrite map_app. simpl. rewrite <- app_assoc. exact Hnd.
Qed.

Lemma loaded_fields_keys (d : dict) :
  Permutation (keys (loaded_fields d)) (keys d).
Proof.
  unfold loaded_fields. rewrite keys_map_snd. apply data_members_keys.
Qed.

Lemma Forall2_pick_l {A B : Type} (R : A -> B -> Prop) (l1 : list A) (l2 : list B) :
  Forall2 R l1 l2 -> forall x, In x l1 -> exists y, In y l2 /\ R x y.
Proof.
  induction 1 as [|a b l1 l2 Hab _ IH]; intros x Hin; [contradiction|].
  destruct Hin as [->|Hin].
  - exists b. split; [left; reflexivity|exact Hab].
  - destruct (IH x Hin) as (y & Hy & Hxy). exists y. split; [right|]; assumption.
Qed.

Lemma Forall2_pick_r {A B : Type} (R : A -> B -> Prop) (l1 : list A) (l2 : list B) :
  Forall2 R l1 l2 -> forall y, In y l2 -> exists x, In x l1 /\ R x y.
Proof.
  induction 1 as [|a b l1 l2 Hab _ IH]; intros y Hin; [contradiction|].
  destruct Hin as [->|Hin].
  - exists a. split; [left; reflexivity|exact Hab].
  - destruct (IH y Hin) as (x & Hx & Hxy). exists x. split; [right|]; assumption.
Qed.

Lemma dump_items_Forall2 (s : bool) (xs : list value) :
  forall js,
    dump_items s xs = Ok js ->
    Forall2 (fun v j => json_dumps s v = Ok j) xs js.
Proof.
  induction xs as [|x xs IH]; simpl; intros js H.
  - inversion H. constructor.
  - destruct (json_dumps s x) as [j|] eqn:Ej; simpl in H; [|discriminate].
    destruct (dump_items s xs) as [js'|]; simpl in H; [|discriminate].
    inversion H; subst. constructor; [exact Ej|apply IH; reflexivity].
Qed.

Lemma dump_members_Forall2 (s : bool) (kvs : list (string * value)) :
  forall ms,
    dump_members s kvs = Ok ms ->
    Forall2 (fun kv kj => fst kv = fst kj /\ json_dumps s (snd kv) = Ok (snd kj))
            kvs ms.
Proof.
  induction kvs as [|[k x] kvs IH]; simpl; intros ms H.
  - inversion H. constructor.
  - destruct (json_dumps s x) as [j|] eqn:Ej; simpl in H; [|discriminate].
    destruct (dump_members s kvs) as [ms'|]; simpl in H; [|discriminate].
    inversion H; subst. constructor; [split; [reflexivity|exact Ej]|].
    apply IH. reflexivity.
Qed.

Lemma Forall2_keys (s : bool) (kvs : list (string * value)) (ms : list (string * json)) :
  Forall2 (fun kv kj => fst kv = fst kj /\ json_dumps s (snd kv) = Ok (snd kj))
          kvs ms ->
  keys ms = keys kvs.
Proof.
  induction 1 as [|kv kj kvs ms [Hk _] _ IH]; simpl; [reflexivity|].
  rewrite Hk, IH. reflexivity.
Qed.

Lemma dump_items_of_loads (js : list json) :
  Forall (fun j => json_dumps true (json_loads j) = Ok j) js ->
  dump_items true (map json_loads js) = Ok js.
Proof.
  induction 1 as [|j js Hj _ IH]; simpl; [reflexivity|].
  rewrite Hj, IH. reflexivity.
Qed.

Lemma dump_members_of_loads (ms : list (string * json)) :
  Forall (fun kj => json_dumps true (json_loads (snd kj)) = Ok (snd kj)) ms ->
  dump_members true (map (fun kj => (fst kj, json_loads (snd kj))) ms) = Ok ms.
Proof.
  induction 1 as [|[k j] ms Hj _ IH]; simpl; [reflexivity|].
  simpl in Hj. rewrite Hj, IH. reflexivity.
Qed.


Lemma json_ints_ok_arr (items : list json) :
  json_ints_ok (JArr items) = forallb json_ints_ok items.
Proof.
  simpl. induction items as [|x items IH]; simpl; [reflexivity|].
  rewrite IH. reflexivity.
Qed.

Lemma json_ints_ok_obj (members : list (string * json)) :
  json_ints_ok (JObj members)
  = forallb (fun kj => json_ints_ok (snd kj)) members.
Proof.
  simpl. induction members as [|[k x] members IH]; simpl; [reflexivity|].
  rewrite IH. reflexivity.
Qed.

(** What [json.dumps] wrote, [json.loads] reads: its numbers are within
    the digit limit. *)
Lemma json_dumps_ints_ok (s : bool) (v : value) :
  forall j, json_dumps s v = Ok j -> json_ints_ok j = true.
Proof.
  induction v as [| |z| |xs IH|kvs IH|i c kvs IH] using value_nested_ind;
    intros j Hj; try (inversion Hj; subst; reflexivity).
  - simpl in Hj. destruct (int_str_ok z) eqn:E; [|discriminate].
    inversion Hj; subst. exact E.
  - rewrite json_dumps_list in Hj.
    destruct (dump_items s xs) as [js|] eqn:Ejs; simpl in Hj; [|discriminate].
    inversion Hj; subst j. clear Hj.
    rewrite json_ints_ok_arr. apply forallb_forall. intros j Hin.
    apply dump_items_Forall2 in Ejs.
    destruct (Forall2_pick_r _ _ _ Ejs j Hin) as (x & Hx & Hxj).
    rewrite Forall_forall in IH. apply (IH x Hx j Hxj).
  - rewrite json_dumps_dict in Hj.
    destruct (dump_members s kvs) as [ms|] eqn:Ems; simpl in Hj; [|discriminate].
    inversion Hj; subst j. clear Hj.
    rewrite json_ints_ok_obj. apply forallb_forall. intros kj Hin.
    assert (Hin' : In kj ms).
    { destruct s; [apply (proj1 (sort_by_In fst kj ms)) in Hin|]; exact Hin. }
    apply dump_members_Forall2 in Ems.
    destruct (Forall2_pick_r _ _ _ Ems kj Hin') as (kv & Hkv & _ & Hdump).
    rewrite Forall_forall in IH. apply (IH kv Hkv _ Hdump).
Qed.

Lemma field_json_ints_ok (v : value) : json_ints_ok (field_json v) = true.
Proof.
  unfold field_json. destruct (json_dumps true v) as [j|e] eqn:Ej.
  - apply (json_dumps_ints_ok true v j Ej).
  - destruct (py_str v); reflexivity.
Qed.

Lemma document_ints_ok (x : entity) : json_ints_ok (document x) = true.
Proof.
  unfold document. rewrite json_ints_ok_obj.
  cbn [forallb snd]. rewrite json_ints_ok_obj.
  assert (H : forallb (fun kj => json_ints_ok (snd kj)) (data_members (odict x))
              = true).
  { apply forallb_forall. intros [k j] Hin. unfold data_members in Hin.
    apply (proj1 (sort_by_In fst _ _)) in Hin.
    apply in_map_iff in Hin. destruct Hin as ([k' v] & E & _).
    inversion E; subst. apply field_json_ints_ok. }
  rewrite H. reflexivity.
Qed.

Lemma deserialize_document (c : cls) (x : entity) (next : nat) :
  NoDup (keys (odict x)) ->
  settable_fields x = true ->
  deserialize c (JsonText (document x)) next
  = Ok (obj (mkEntity next c (loaded_fields (odict x))), S next).
Proof.
  intros Hnd Hset.
  assert (Hnd' : NoDup (keys (data_members (odict x)))).
  { eapply Permutation_NoDup; [|exact Hnd].
    apply Permutation_sym, data_members_keys. }
  unfold deserialize, deserialize_json, loads_text.
  rewrite document_ints_ok. unfold document.
  cbn [bind try_except].
  rewrite json_loads_obj. cbn [build_members].
  rewrite json_loads_obj, build_members_fresh by exact Hnd'.
  cbn [dict_set String.eqb Ascii.eqb Bool.eqb has_key lookup andb new
       dict_items bind app].
  fold (loaded_fields (odict x)).
  rewrite restore_attrs_settable.
  - reflexivity.
  - intros k Hk. apply (settable_fields_keys x _ Hset).
    apply (Permutation_in _ (loaded_fields_keys (odict x))). exact Hk.
  - simpl. eapply Permutation_NoDup; [|exact Hnd].
    apply Permutation_sym, loaded_fields_keys.
Qed.

(** ** Dumping, loading, dumping again *)

Lemma json_dumps_loads_dumps (v : value) :
  well_formed v = true ->
  forall j, json_dumps true v = Ok j -> json_dumps true (json_loads j) = Ok j.
Proof.
  induction v as [| |z| |xs IH|kvs IH|i c kvs IH] using value_nested_ind;
    intros Hw j Hj; try (inversion Hj; subst; reflexivity).
  - simpl in Hj. destruct (int_str_ok z) eqn:E; [|discriminate].
    inversion Hj; subst. simpl. rewrite E. reflexivity.
  - rewrite json_dumps_list in Hj.
    destruct (dump_items true xs) as [js|] eqn:Ejs; simpl in Hj; [|discriminate].
    inversion Hj; subst j. clear Hj.
    rewrite json_loads_arr, json_dumps_list.
    rewrite dump_items_of_loads; [reflexivity|].
    apply dump_items_Forall2 in Ejs.
    rewrite well_formed_list, forallb_forall in Hw.
    rewrite Forall_forall in IH |- *.
    intros j Hin.
    destruct (Forall2_pick_r _ _ _ Ejs j Hin) as (x & Hx & Hxj).
    apply (IH x Hx (Hw x Hx) j Hxj).
  - rewrite json_dumps_dict in Hj.
    destruct (dump_members true kvs) as [ms|] eqn:Ems; simpl in Hj; [|discriminate].
    inversion Hj; subst j. clear Hj.
    apply dump_members_Forall2 in Ems.
    rewrite well_formed_dict, andb_true_iff, distinct_NoDup, forallb_forall in Hw.
    destruct Hw as [Hnd Hw].
    assert (Hnd' : NoDup (keys (sort_by fst ms))).
    { eapply Permutation_NoDup; [apply Permutation_map, sort_by_perm|].
      fold (keys ms). rewrite (Forall2_keys _ _ _ Ems). exact Hnd. }
    rewrite json_loads_obj, build_members_fresh by exact Hnd'.
    cbn [app]. rewrite json_dumps_dict.
    rewrite dump_members_of_loads.
    + cbn [bind]. rewrite sort_by_idempotent. reflexivity.
    + rewrite Forall_forall in IH |- *. intros kj Hin.
      apply (proj1 (sort_by_In fst kj ms)) in Hin.
      destruct (Forall2_pick_r _ _ _ Ems kj Hin) as (kv & Hkv & _ & Hdump).
      apply (IH kv Hkv (Hw kv Hkv) _ Hdump).
Qed.

Lemma field_json_loads (v : value) :
  well_formed v = true -> field_json (json_loads (field_json v)) = field_json v.
Proof.
  intros Hw. unfold field_json at 2 3.
  destruct (json_dumps true v) as [j|e] eqn:Ej.
  - unfold field_json. rewrite (json_dumps_loads_dumps v Hw j Ej). reflexivity.
  - destruct (py_str v); reflexivity.
Qed.

(** What was read back can be written again. *)
Lemma loaded_writable (v : value) :
  well_formed v = true -> writable (json_loads (field_json v)) = true.
Proof.
  intros Hw. unfold field_json.
  destruct (json_dumps true v) as [j|e] eqn:Ej.
  - rewrite writable_spec.
    rewrite (json_dumps_Ok_jsonable true _ j (json_dumps_loads_dumps v Hw j Ej)).
    reflexivity.
  - destruct (py_str v); reflexivity.
Qed.

(** ** Equality of documents *)

Lemma json_eqb_refl (j : json) : json_eqb j j = true.
Proof.
  induction j as [|b|z|s|items IH|members IH] using json_nested_ind;
    simpl.
  - reflexivity.
  - destruct b; reflexivity.
  - apply Z.eqb_refl.
  - apply String.eqb_refl.
  - induction IH as [|x items Hx _ IHitems]; [reflexivity|].
    rewrite Hx, IHitems. reflexivity.
  - induction IH as [|[k x] members Hx _ IHmembers]; [reflexivity|].
    simpl in Hx. rewrite String.eqb_refl, Hx, IHmembers. reflexivity.
Qed.

Lemma json_eqb_eq (a : json) : forall b, json_eqb a b = true -> a = b.
Proof.
  induction a as [|x|x|x|items IH|members IH] using json_nested_ind;
    intros b H; destruct b; simpl in H; try discriminate.
  - reflexivity.
  - apply Bool.eqb_prop in H. congruence.
  - apply Z.eqb_eq in H. congruence.
  - apply String.eqb_eq in H. congruence.
  - f_equal. revert items0 H.
    induction IH as [|x xs Hx _ IHxs]; intros [|y ys] H; try discriminate;
      [reflexivity|].
    apply andb_true_iff in H. destruct H as [H1 H2].
    f_equal; [apply Hx; exact H1|apply IHxs; exact H2].
  - f_equal. revert members0 H.
    induction IH as [|[k x] xs Hx _ IHxs]; intros [|[l y] ys] H;
      try discriminate; [reflexivity|].
    apply andb_true_iff in H. destruct H as [H H2].
    apply andb_true_iff in H. destruct H as [H0 H1].
    apply String.eqb_eq in H0. subst l. simpl in Hx.
    f_equal; [f_equal; apply Hx; exact H1|apply IHxs; exact H2].
Qed.


Lemma data_members_loaded (d : dict) :
  forallb (fun kv => well_formed (snd kv)) d = true ->
  data_members (loaded_fields d) = data_members d.
Proof.
  intros Hw. unfold loaded_fields.
  unfold data_members at 1. rewrite map_map. cbn [fst snd].
  rewrite (map_ext_in _ (fun kj => kj)).
  - rewrite map_id. unfold data_members. apply sort_by_idempotent.
  - intros [k j] Hin. cbn [fst snd]. f_equal.
    unfold data_members in Hin. apply (proj1 (sort_by_In fst _ _)) in Hin.
    apply in_map_iff in Hin. destruct Hin as ([k' v] & E & Hin).
    inversion E; subst. cbn [snd].
    apply field_json_loads.
    rewrite forallb_forall in Hw. apply (Hw _ Hin).
Qed.

Lemma loaded_fields_writable (d : dict) :
  forallb (fun kv => well_formed (snd kv)) d = true ->
  forallb (fun kv => writable (snd kv)) (loaded_fields d) = true.
Proof.
  intros Hw. apply forallb_forall. intros [k w] Hin.
  unfold loaded_fields in Hin. apply in_map_iff in Hin.
  destruct Hin as ([k' j] & E & Hin). inversion E; subst. clear E.
  unfold data_members in Hin. apply (proj1 (sort_by_In fst _ _)) in Hin.
  apply in_map_iff in Hin. destruct Hin as ([k0 v] & E & Hin).
  inversion E; subst. cbn [snd].
  apply loaded_writable. rewrite forallb_forall in Hw. apply (Hw _ Hin).
Qed.

(** ** Loaded data equals the data dumped *)

Lemma py_eq_loads (v : value) :
  well_formed v = true ->
  forall j, json_dumps true v = Ok j -> py_eq v (json_loads j) = true.
Proof.
  induction v as [|b|z|s|xs IH|kvs IH|i c kvs IH] using value_nested_ind;
    intros Hw j Hj.
  - inversion Hj. reflexivity.
  - inversion Hj. destruct b; reflexivity.
  - simpl in Hj. destruct (int_str_ok z); [|discriminate].
    inversion Hj. apply Z.eqb_refl.
  - inversion Hj. apply String.eqb_refl.
  - rewrite json_dumps_list in Hj.
    destruct (dump_items true xs) as [js|] eqn:Ejs; simpl in Hj; [|discriminate].
    inversion Hj; subst j. clear Hj.
    rewrite json_loads_arr. apply py_eq_list.
    apply dump_items_Forall2 in Ejs.
    rewrite well_formed_list in Hw.
    induction Ejs as [|x j xs js Hxj _ IHjs]; simpl; constructor.
    + inversion IH; subst. simpl in Hw. apply andb_true_iff in Hw.
      apply H1; tauto.
    + inversion IH; subst. simpl in Hw. apply andb_true_iff in Hw.
      apply IHjs; tauto.
  - rewrite json_dumps_dict in Hj.
    destruct (dump_members true kvs) as [ms|] eqn:Ems; simpl in Hj; [|discriminate].
    inversion Hj; subst j. clear Hj.
    apply dump_members_Forall2 in Ems.
    rewrite well_formed_dict, andb_true_iff, distinct_NoDup, forallb_forall in Hw.
    destruct Hw as [Hnd Hw].
    assert (Hnd' : NoDup (keys (sort_by fst ms))).
    { eapply Permutation_NoDup; [apply Permutation_map, sort_by_perm|].
      fold (keys ms). rewrite (Forall2_keys _ _ _ Ems). exact Hnd. }
    rewrite json_loads_obj, build_members_fresh by exact Hnd'.
    cbn [app]. apply py_eq_dict. split.
    + rewrite length_map, <- (Permutation_length (sort_by_perm fst ms)).
      apply (Forall2_length Ems).
    + intros k v Hin.
      destruct (Forall2_pick_l _ _ _ Ems (k, v) Hin) as ([k' j] & Hkj & Hk & Hdump).
      simpl in Hk, Hdump. subst k'.
      exists (json_loads j). split.
      * apply lookup_NoDup; [rewrite keys_map_snd; exact Hnd'|].
        apply in_map_iff. exists (k, j). split; [reflexivity|].
        apply (proj2 (sort_by_In fst _ _)). exact Hkj.
      * rewrite Forall_forall in IH. apply (IH (k, v) Hin (Hw _ Hin) j Hdump).
  - discriminate Hj.
Qed.

Lemma py_eq_loads_rev (v : value) :
  well_formed v = true ->
  forall j, json_dumps true v = Ok j -> py_eq (json_loads j) v = true.
Proof.
  induction v as [|b|z|s|xs IH|kvs IH|i c kvs IH] using value_nested_ind;
    intros Hw j Hj.
  - inversion Hj. reflexivity.
  - inversion Hj. destruct b; reflexivity.
  - simpl in Hj. destruct (int_str_ok z); [|discriminate].
    inversion Hj. apply Z.eqb_refl.
  - inversion Hj. apply String.eqb_refl.
  - rewrite json_dumps_list in Hj.
    destruct (dump_items true xs) as [js|] eqn:Ejs; simpl in Hj; [|discriminate].
    inversion Hj; subst j. clear Hj.
    rewrite json_loads_arr. apply py_eq_list.
    apply dump_items_Forall2 in Ejs.
    rewrite well_formed_list in Hw.
    induction Ejs as [|x j xs js Hxj _ IHjs]; simpl; constructor.
    + inversion IH; subst. simpl in Hw. apply andb_true_iff in Hw.
      apply H1; tauto.
    + inversion IH; subst. simpl in Hw. apply andb_true_iff in Hw.
      apply IHjs; tauto.
  - rewrite json_dumps_dict in Hj.
    destruct (dump_members true kvs) as [ms|] eqn:Ems; simpl in Hj; [|discriminate].
    inversion Hj; subst j. clear Hj.
    apply dump_members_Forall2 in Ems.
    rewrite well_formed_dict, andb_true_iff, distinct_NoDup, forallb_forall in Hw.
    destruct Hw as [Hnd Hw].
    assert (Hnd' : NoDup (keys (sort_by fst ms))).
    { eapply Permutation_NoDup; [apply Permutation_map, sort_by_perm|].
      fold (keys ms). rewrite (Forall2_keys _ _ _ Ems). exact Hnd. }
    rewrite json_loads_obj, build_members_fresh by exact Hnd'.
    cbn [app]. apply py_eq_dict. split.
    + rewrite length_map, <- (Permutation_length (sort_by_perm fst ms)).
      symmetry. apply (Forall2_length Ems).
    + intros k w Hin. apply in_map_iff in Hin.
      destruct Hin as ([k' j] & E & Hin). simpl in E.
      injection E as Ek Ew. subst k w.
      apply (proj1 (sort_by_In fst _ _)) in Hin.
      destruct (Forall2_pick_r _ _ _ Ems (k', j) Hin)
        as ([k0 v] & Hkv & Hk & Hdump).
      simpl in Hk, Hdump. subst k0.
      exists v. split; [apply lookup_NoDup; assumption|].
      rewrite Forall_forall in IH. apply (IH (k', v) Hkv (Hw _ Hkv) j Hdump).
  - discriminate Hj.
Qed.

Lemma loaded_fields_lookup (d : dict) (k : string) (v : value) :
  NoDup (keys d) ->
  lookup k d = Some v ->
  lookup k (loaded_fields d) = Some (json_loads (field_json v)).
Proof.
  intros Hnd Hv. apply lookup_NoDup.
  - eapply Permutation_NoDup; [|exact Hnd].
    apply Permutation_sym, loaded_fields_keys.
  - unfold loaded_fields. apply in_map_iff.
    exists (k, field_json v). split; [reflexivity|].
    unfold data_members. apply (proj2 (sort_by_In fst _ _)).
    apply in_map_iff. exists (k, v). split; [reflexivity|].
    apply lookup_Some_In. exact Hv.
Qed.

Lemma loaded_fields_lookup_None (d : dict) (k : string) :
  lookup k d = None -> lookup k (loaded_fields d) = None.
Proof.
  intros Hnone.
  destruct (lookup k (loaded_fields d)) as [w|] eqn:E; [|reflexivity].
  exfalso.
  assert (Hin : In k (keys (loaded_fields d)))
    by (apply lookup_In; congruence).
  apply (Permutation_in _ (loaded_fields_keys d)) in Hin.
  apply lookup_In in Hin. congruence.
Qed.


Lemma py_eq_loaded_fields (d : dict) :
  NoDup (keys d) ->
  forallb (fun kv => jsonable (snd kv)) d = true ->
  forallb (fun kv => well_formed (snd kv)) d = true ->
  py_eq (VDict d) (VDict (loaded_fields d)) = true.
Proof.
  intros Hnd Hp Hw. apply py_eq_dict. split.
  - unfold loaded_fields, data_members.
    rewrite length_map, <- (Permutation_length (sort_by_perm fst _)), length_map.
    reflexivity.
  - intros k v Hin. exists (json_loads (field_json v)). split.
    + apply loaded_fields_lookup; [exact Hnd|].
      apply lookup_NoDup; assumption.
    + rewrite forallb_forall in Hp, Hw.
      pose proof (Hp _ Hin) as Hpv. pose proof (Hw _ Hin) as Hwv. simpl in *.
      unfold field_json.
      destruct (json_dumps_jsonable true v Hpv) as [j Hj]. rewrite Hj.
      apply py_eq_loads; assumption.
Qed.

Lemma py_eq_loaded_fields_rev (d : dict) :
  NoDup (keys d) ->
  forallb (fun kv => jsonable (snd kv)) d = true ->
  forallb (fun kv => well_formed (snd kv)) d = true ->
  py_eq (VDict (loaded_fields d)) (VDict d) = true.
Proof.
  intros Hnd Hp Hw. apply py_eq_dict. split.
  - unfold loaded_fields, data_members.
    rewrite length_map, <- (Permutation_length (sort_by_perm fst _)), length_map.
    reflexivity.
  - intros k w Hin. unfold loaded_fields in Hin. apply in_map_iff in Hin.
    destruct Hin as ([k' j] & E & Hin). simpl in E.
    injection E as Ek Ew. subst k w.
    unfold data_members in Hin. apply (proj1 (sort_by_In fst _ _)) in Hin.
    apply in_map_iff in Hin. destruct Hin as ([k0 v] & E & Hin). simpl in E.
    injection E as Ek Ej. subst k' j.
    exists v. split; [apply lookup_NoDup; assumption|].
    rewrite forallb_forall in Hp, Hw.
    pose proof (Hp _ Hin) as Hpv. pose proof (Hw _ Hin) as Hwv. simpl in *.
    unfold field_json.
    destruct (json_dumps_jsonable true v Hpv) as [j Hj]. rewrite Hj.
    apply py_eq_loads_rev; assumption.
Qed.

(** Data that can be written is data that [json.dumps] accepts. *)
Lemma plain_writable_jsonable (v : value) :
  plain v = true -> writable v = true -> jsonable v = true.
Proof.
  rewrite writable_spec, has_str_spec. unfold jsonable. intros Hp.
  rewrite Hp. destruct v; simpl; try reflexivity; try discriminate;
    intros H; rewrite ?orb_diag in H; exact H.
Qed.

Lemma plain_writable_fields (x : entity) :
  plain_fields x = true -> writable_fields x = true ->
  jsonable_fields x = true.
Proof.
  unfold plain_fields, writable_fields, jsonable_fields.
  rewrite !forallb_forall. intros Hp Hw kv Hin.
  apply plain_writable_jsonable; [apply Hp|apply Hw]; exact Hin.
Qed.

Lemma same_pickle_obj_inv (i j : nat) (c d : cls) (xs ys : dict) :
  same_pickle (VObj i c xs) (VObj j d ys) = true ->
  c = d /\ same_fields xs ys.
Proof.
  simpl. rewrite andb_true_iff, cls_eqb_eq. intros [-> H].
  split; [reflexivity|]. revert ys H.
  induction xs as [|[k x] xs IH]; intros [|[l y] ys] H; try discriminate.
  - constructor.
  - apply andb_true_iff in H. destruct H as [H H3].
    apply andb_true_iff in H. destruct H as [H1 H2].
    apply String.eqb_eq in H1.
    constructor; [split; assumption|apply IH; exact H3].
Qed.

(** What the unpickling of an object is: a new object of the same class,
    with the same fields. *)
Lemma unpickle_object (h : store) (x : entity) (next : nat) :
  agrees h (obj x) ->
  exists y next',
    unpickle_text (PickleText (obj x)) next = Ok (obj y, next') /\
    next < next' /\
    oid y = next /\ ocls y = ocls x /\
    same_fields (odict x) (odict y) /\
    same_pickle (obj x) (obj y) = true /\
    ids_at_least next (obj y) = true.
Proof.
  intros Ha. unfold unpickle_text.
  destruct (rebuild (obj x) next []) as [[v' n1] m1] eqn:E.
  destruct (rebuild_fresh (obj x) next next [] v' n1 m1 (Nat.le_refl _)
              (Forall_nil _) E) as (H1 & H2 & _).
  destruct (rebuild_same h (obj x) next [] v' n1 m1 Ha (Forall_nil _) E)
    as (H3 & _).
  unfold obj in E. rewrite rebuild_obj in E. cbn [find] in E.
  destruct (copy_pairs (odict x) (S next) []) as [[fields' n2] m2] eqn:Ep.
  inversion E; subst v' n1 m1. clear E.
  assert (Hlt : next < n2).
  { assert (Hc : Forall (fun kv => copies_fresh (snd kv)) (odict x))
      by (apply Forall_forall; intros kv _; apply rebuild_fresh).
    destruct (copy_pairs_fresh (odict x) Hc (S next) (S next) [] fields' n2 m2
                (Nat.le_refl _) (Forall_nil _) Ep) as (Hle & _).
    lia. }
  exists (mkEntity next (ocls x) fields'), n2.
  split; [reflexivity|]. split; [exact Hlt|].
  split; [reflexivity|]. split; [reflexivity|].
  split; [apply (same_pickle_obj_inv _ _ _ _ _ _ H3)|].
  split; assumption.
Qed.


(** ** What json.loads builds holds each key once *)

Lemma dict_set_keys_In {A : Type} (k k' : string) (v : A) (d : list (string * A)) :
  In k' (keys (dict_set k v d)) -> k' = k \/ In k' (keys d).
Proof.
  induction d as [|[k0 v0] d IH]; simpl.
  - intros [H|[]]. left. congruence.
  - destruct (String.eqb k k0) eqn:E; simpl.
    + apply String.eqb_eq in E. subst. tauto.
    + intros [H|H]; [tauto|]. destruct (IH H); tauto.
Qed.

Lemma dict_set_NoDup {A : Type} (k : string) (v : A) (d : list (string * A)) :
  NoDup (keys d) -> NoDup (keys (dict_set k v d)).
Proof.
  induction d as [|[k0 v0] d IH]; simpl; intros Hnd.
  - constructor; [intros []|constructor].
  - inversion Hnd as [|? ? Hnotin Hnd']; subst.
    destruct (String.eqb k k0) eqn:E; simpl.
    + apply String.eqb_eq in E. subst. constructor; assumption.
    + constructor; [|apply IH; exact Hnd'].
      intros Hin. apply dict_set_keys_In in Hin. destruct Hin as [->|Hin].
      * rewrite String.eqb_refl in E. discriminate.
      * contradiction.
Qed.

Lemma dict_set_forallb (P : value -> bool) (k : string) (v : value) (d : dict) :
  P v = true ->
  forallb (fun kv => P (snd kv)) d = true ->
  forallb (fun kv => P (snd kv)) (dict_set k v d) = true.
Proof.
  intros Hv. induction d as [|[k0 v0] d IH]; simpl; intros H.
  - rewrite Hv. reflexivity.
  - apply andb_true_iff in H. destruct H as [H1 H2].
    destruct (String.eqb k k0); simpl.
    + rewrite Hv, H2. reflexivity.
    + rewrite H1, (IH H2). reflexivity.
Qed.

Lemma json_loads_well_formed (j : json) : well_formed (json_loads j) = true.
Proof.
  induction j as [| | | |items IH|members IH] using json_nested_ind;
    try reflexivity.
  - rewrite json_loads_arr, well_formed_list.
    apply forallb_forall. intros v Hin. apply in_map_iff in Hin.
    destruct Hin as (x & <- & Hx). rewrite Forall_forall in IH.
    apply (IH x Hx).
  - rewrite json_loads_obj, well_formed_dict.
    assert (H : forall acc,
               NoDup (keys acc) ->
               forallb (fun kv => well_formed (snd kv)) acc = true ->
               NoDup (keys (build_members members acc)) /\
               forallb (fun kv => well_formed (snd kv))
                 (build_members members acc) = true).
    { induction IH as [|[k x] members Hx _ IHm]; intros acc Hnd Hwf;
        [split; assumption|].
      simpl. apply IHm.
      - apply dict_set_NoDup. exact Hnd.
      - apply dict_set_forallb; [exact Hx|exact Hwf]. }
    destruct (H [] (NoDup_nil _) eq_refl) as [H1 H2].
    apply andb_true_iff. split; [apply distinct_NoDup; exact H1|exact H2].
Qed.

Lemma well_formed_lookup (d : dict) (k : string) (v : value) :
  well_formed (VDict d) = true -> lookup k d = Some v -> well_formed v = true.
Proof.
  rewrite well_formed_dict, andb_true_iff, forallb_forall.
  intros [_ H] Hv. apply lookup_Some_In in Hv. apply (H _ Hv).
Qed.
(** ** What deep_equals compares *)

Lemma deep_equals_texts (y x : entity) (ty tx : text) :
  is_void y = false ->
  isinstance (obj x) (TClass (ocls y)) = true ->
  has_key "serialize" (odict y) = false ->
  has_key "serialize" (odict x) = false ->
  serialize y = Ok ty ->
  serialize x = Ok tx ->
  deep_equals y (obj x) = text_eqb ty tx.
Proof.
  intros Hvoid Hin Hy Hx Hty Htx.
  unfold deep_equals. rewrite Hvoid. unfold General_deep_equals.
  rewrite Hin. cbn [negb]. rewrite as_entity_obj.
  unfold invoke. rewrite Hy, Hx, Hty, Htx. reflexivity.
Qed.

Lemma deep_equals_hidden (y x : entity) :
  is_void y = false ->
  isinstance (obj x) (TClass (ocls y)) = true ->
  has_key "serialize" (odict y) = true \/ has_key "serialize" (odict x) = true ->
  deep_equals y (obj x) = py_eq (VDict (odict y)) (VDict (odict x)).
Proof.
  intros Hvoid Hin H.
  unfold deep_equals. rewrite Hvoid. unfold General_deep_equals.
  rewrite Hin. cbn [negb]. rewrite as_entity_obj.
  unfold invoke. destruct (has_key "serialize" (odict y)); [reflexivity|].
  destruct H as [H|H]; [discriminate|]. rewrite H.
  destruct (serialize y); reflexivity.
Qed.

(** ** The round trip *)

(** C3, counterexample: the text the Void instance serializes
    to is refused by [deserialize]. *)
Lemma void_round_trip_raises :
  exists t,
    serialize VoidInstance = Ok t /\
    deserialize (ocls VoidInstance) t 1 = Raise ValueError_deserialize.
Proof. eexists. split; reflexivity. Qed.

(** A field named [serialize] hides the method from [deep_equals], which
    then compares the dictionaries: the object read back, which holds the
    text of the held object, is not [deep_equals] to the original. And
    [serialize] raises, so that there is nothing to read back, when
    neither JSON nor the pickle can be written. *)
Example round_trip_of_hidden_serialize :
  (exists y,
     deserialize Person
       (JsonText (document (mkEntity 18 Person
                              [("serialize", VInt 1);
                               ("friend", obj sample_person)]))) 20
     = Ok (obj y, 21) /\
     deep_equals y (obj (mkEntity 18 Person
                           [("serialize", VInt 1);
                            ("friend", obj sample_person)])) = false) /\
  serialize (mkEntity 19 Person
               [("friend", obj sample_mute); ("__reduce_ex__", VInt 1)])
  = Raise (TypeError_not_callable "__reduce_ex__").
Proof.
  split; [|reflexivity].
  exists (mkEntity 20 Person
            (loaded_fields [("serialize", VInt 1);
                            ("friend", obj sample_person)])).
  split; reflexivity.
Qed.

(** C3. Let [x] be an object that is not a Void, whose dictionaries hold
    each key once, whose fields have names that [setattr] stores and can
    all be written, as JSON or through [str]; let no field of [x] be named
    [serialize], or let every field hold data that JSON carries. Then
    [serialize] returns a text, [deserialize], called on the class of [x]
    with that text, returns a new object of that class, and this object is
    [deep_equals] to [x]. *)
Theorem serialize_deserialize_round_trip :
  forall (x : entity) (next : nat),
    is_void x = false ->
    well_formed (obj x) = true ->
    settable_fields x = true ->
    writable_fields x = true ->
    has_key "serialize" (odict x) = false \/ jsonable_fields x = true ->
    exists t y,
      serialize x = Ok t /\
      deserialize (ocls x) t next = Ok (obj y, S next) /\
      oid y = next /\ ocls y = ocls x /\
      deep_equals y (obj x) = true.
Proof.
  intros x next Hvoid Hwf Hset Hwr Hhide.
  destruct (well_formed_fields x Hwf) as [Hnd Hw].
  set (y := mkEntity next (ocls x) (loaded_fields (odict x))).
  assert (Hndy : NoDup (keys (odict y))).
  { simpl. eapply Permutation_NoDup; [|exact Hnd].
    apply Permutation_sym, loaded_fields_keys. }
  assert (Hvoidy : is_void y = false)
    by (rewrite (is_void_class y x eq_refl); exact Hvoid).
  assert (Hin : isinstance (obj x) (TClass (ocls y)) = true)
    by (simpl; apply issubclass_refl).
  assert (Ht : serialize x = Ok (JsonText (document x))).
  { unfold serialize. rewrite Hvoid.
    apply General_serialize_document; assumption. }
  exists (JsonText (document x)), y.
  split; [exact Ht|].
  split; [apply deserialize_document; assumption|].
  split; [reflexivity|]. split; [reflexivity|].
  destruct (has_key "serialize" (odict x)) eqn:Hkey.
  - destruct Hhide as [Hhide|Hjson]; [discriminate|].
    rewrite (deep_equals_hidden y x Hvoidy Hin (or_intror Hkey)).
    apply py_eq_loaded_fields_rev; assumption.
  - assert (Hkeyy : has_key "serialize" (odict y) = false).
    { destruct (has_key "serialize" (odict y)) eqn:E; [|reflexivity].
      exfalso.
      assert (Hk : In "serialize" (keys (odict y)))
        by (apply lookup_In; unfold has_key in E;
            destruct (lookup "serialize" (odict y)); congruence).
      apply (Permutation_in _ (loaded_fields_keys (odict x))) in Hk.
      apply lookup_In in Hk. unfold has_key in Hkey.
      destruct (lookup "serialize" (odict x)); congruence. }
    assert (Hsery : serialize y = Ok (JsonText (document y))).
    { unfold serialize. rewrite Hvoidy.
      apply General_serialize_document; [exact Hndy|].
      apply loaded_fields_writable. exact Hw. }
    rewrite (deep_equals_texts y x _ _ Hvoidy Hin Hkeyy Hkey Hsery Ht).
    cbn [text_eqb].
    assert (E : document y = document x).
    { unfold document. simpl ocls. simpl odict.
      rewrite data_members_loaded by exact Hw. reflexivity. }
    rewrite E. apply json_eqb_refl.
Qed.

Lemma serialize_deserialize_round_trip_witness :
  exists t y,
    serialize sample_holder = Ok t /\
    deserialize Person t 20 = Ok (obj y, 21) /\
    deep_equals y (obj sample_holder) = true.
Proof.
  destruct (serialize_deserialize_round_trip sample_holder 20
              eq_refl eq_refl eq_refl eq_refl (or_introl eq_refl))
    as (t & y & Hser & Hde & _ & _ & Heq).
  exists t, y. repeat split; assumption.
Defined.

(** ** deserialize *)

(** C8, counterexample: the text [Void.serialize] returns, well formed as
    it is, is refused by [deserialize] on every class; and the text
    [serialize] wrote for an object with a field that cannot be written is
    read back as an object of the class of that object, not of the class
    [deserialize] was called on. *)
Lemma canonical_encoding_not_rebuilt_as_T :
  serialize VoidInstance = Ok (JsonText void_document) /\
  deserialize Void (JsonText void_document) 1 = Raise ValueError_deserialize /\
  deserialize Person (JsonText void_document) 1 = Raise ValueError_deserialize /\
  exists t y next',
    serialize sample_ab = Ok t /\
    deserialize Car t 20 = Ok (obj y, next') /\
    ocls y = class_A.
Proof.
  split; [reflexivity|]. split; [reflexivity|]. split; [reflexivity|].
  exists (PickleText (obj sample_ab)),
         (mkEntity 20 class_A
            [("friend", VObj 21 Person [("print_object", VInt 1)]);
             ("b", VInt 1)]), 22.
  split; [reflexivity|]. split; reflexivity.
Qed.

(** C8. The only error [deserialize] raises is its
    [ValueError("Cannot deserialize the provided data")]. It raises it for a
    text that neither decoder accepts, and for a JSON text without pickle
    reading that is not an object, with numbers within the digit limit,
    that has a ["class"] and a dictionary under ["data"]. Every such JSON
    object whose ["data"] holds names that [setattr] stores is read, for
    any class [T], as a new object of class [T] with these fields. The text
    [serialize] wrote for an object of a store that is not a Void is read
    back: when it is JSON, as a new object of class [T] whose fields are
    the members of its ["data"], loaded; when it is the pickle, as a new
    object of the class of the original, with the fields of the original,
    copied. *)
Theorem deserialize_raises_or_rebuilds :
  (forall c data next e,
     deserialize c data next = Raise e -> e = ValueError_deserialize) /\
  class_of_exn ValueError_deserialize = ValueError /\
  (forall c s next,
     deserialize c (PlainText s) next = Raise ValueError_deserialize) /\
  (forall c j next,
     ~ (json_ints_ok j = true /\
        exists d items,
          json_loads j = VDict d /\ has_key "class" d = true /\
          lookup "data" d = Some (VDict items)) ->
     deserialize c (JsonText j) next = Raise ValueError_deserialize) /\
  (forall c j d items next,
     json_ints_ok j = true ->
     json_loads j = VDict d ->
     has_key "class" d = true ->
     lookup "data" d = Some (VDict items) ->
     (forall k, In k (keys items) -> reserved_name k = false) ->
     deserialize c (JsonText j) next = Ok (obj (mkEntity next c items), S next)) /\
  (forall h T x next t,
     is_void x = false ->
     distinct (keys (odict x)) = true ->
     settable_fields x = true ->
     agrees h (obj x) ->
     serialize x = Ok t ->
     exists y next',
       deserialize T t next = Ok (obj y, next') /\ oid y = next /\
       ((t = JsonText (document x) /\ ocls y = T /\
         odict y
         = map (fun kj => (fst kj, json_loads (snd kj)))
             (data_members (odict x)) /\
         forall k v,
           lookup k (odict x) = Some v ->
           lookup k (odict y) = Some (json_loads (field_json v))) \/
        (t = PickleText (obj x) /\ ocls y = ocls x /\
         same_fields (odict x) (odict y)))).
Proof.
  split; [|split; [|split; [|split; [|split]]]].
  - intros c data next e. unfold deserialize, deserialize_json.
    match goal with
    | |- context [try_except ?m (Ok None)] => destruct m as [[r|]|]
    end; simpl; try discriminate;
      destruct (unpickle_text data next); simpl; congruence.
  - reflexivity.
  - reflexivity.
  - intros c j next Hno. unfold deserialize, deserialize_json, loads_text.
    destruct (json_ints_ok j) eqn:Hints; [|reflexivity].
    cbn [bind].
    destruct (json_loads j) as [| | | | |d|] eqn:Ej; try reflexivity.
    destruct (has_key "class" d) eqn:Hc; [|reflexivity].
    unfold has_key at 1. simpl.
    destruct (lookup "data" d) as [[| | | | |items|]|] eqn:Hd; try reflexivity.
    exfalso. apply Hno. split; [reflexivity|]. exists d, items. auto.
  - intros c j d items next Hints Ej Hc Hdata Hres.
    assert (Hd : NoDup (keys items)).
    { pose proof (json_loads_well_formed j) as Hwf. rewrite Ej in Hwf.
      pose proof (well_formed_lookup d "data" _ Hwf Hdata) as Hwi.
      rewrite well_formed_dict, andb_true_iff in Hwi.
      apply distinct_NoDup. tauto. }
    unfold deserialize, deserialize_json, loads_text. rewrite Hints.
    cbn [bind]. rewrite Ej, Hc.
    unfold has_key. rewrite Hdata. simpl.
    rewrite restore_attrs_settable; [reflexivity|exact Hres|exact Hd].
  - intros h T x next t Hvoid Hd Hset Ha Ht. apply distinct_NoDup in Hd.
    destruct (serialize_outcome x t Hvoid Hd Ht)
      as [[Hwr ->]|(Hwr & Hpick & ->)].
    + exists (mkEntity next T (loaded_fields (odict x))), (S next).
      split; [apply deserialize_document; assumption|].
      split; [reflexivity|]. left.
      split; [reflexivity|]. split; [reflexivity|]. split; [reflexivity|].
      intros k v Hv. apply loaded_fields_lookup; assumption.
    + destruct (unpickle_object h x next Ha)
        as (y & next' & Hun & _ & Hid & Hcls & Hsf & _).
      exists y, next'. split.
      { unfold deserialize, deserialize_json. cbn [loads_text bind try_except].
        rewrite Hun. reflexivity. }
      split; [exact Hid|]. right. auto.
Qed.

Lemma deserialize_raises_or_rebuilds_witness :
  deserialize Person (JsonText (JArr [JNum 1])) 20 = Raise ValueError_deserialize /\
  exists t y next',
    serialize sample_person = Ok t /\
    deserialize Person t 20 = Ok (obj y, next') /\
    lookup "name" (odict y) = Some (VStr "Anna").
Proof.
  pose proof deserialize_raises_or_rebuilds as (_ & _ & _ & Hbad & _ & Hgood).
  split.
  - apply Hbad. intros (_ & d & items & E & _). discriminate E.
  - assert (Ha : agrees sample_store (obj sample_person))
      by (simpl; repeat split).
    destruct (Hgood sample_store Person sample_person 20
                (JsonText (document sample_person))
                eq_refl eq_refl eq_refl Ha eq_refl)
      as (y & next' & Hde & _ & [(_ & _ & _ & Hget)|(E & _)]);
      [|discriminate E].
    exists (JsonText (document sample_person)), y, next'.
    split; [reflexivity|]. split; [exact Hde|].
    apply (Hget "name" (VStr "Anna")). reflexivity.
Defined.

(** C10, counterexample: an object of class [Person] that holds another
    object is serialized and read by [Car.deserialize]. The result is of
    class [Car], but its field [friend] is not the value the original
    holds, an object: it is a string, the text of that object. *)
Lemma deserialize_gives_text_for_held_object :
  exists t y s,
    serialize sample_holder = Ok t /\
    deserialize Car t 20 = Ok (obj y, 21) /\
    ocls y = Car /\
    lookup "friend" (odict sample_holder) = Some (obj sample_person) /\
    lookup "friend" (odict y) = Some (VStr s).
Proof.
  exists (JsonText (document sample_holder)),
         (mkEntity 20 Car (loaded_fields (odict sample_holder))).
  eexists. split; [reflexivity|]. split; [reflexivity|].
  split; [reflexivity|]. split; [reflexivity|].
  vm_compute. reflexivity.
Qed.

Lemma field_json_str (v : value) :
  jsonable v = false -> writable v = true ->
  exists s, py_str v = Ok s /\ field_json v = JStr s.
Proof.
  intros Hj Hw. rewrite writable_spec, Hj in Hw. simpl in Hw.
  unfold has_str in Hw. unfold field_json.
  destruct (json_dumps_not_jsonable true v Hj) as (e & -> & _).
  destruct (py_str v) as [s|]; [|discriminate]. eauto.
Qed.

(** C10. [deserialize] does not look at the class the text names. Let [u]
    be an object that is not a Void, of whatever class, whose dictionaries
    hold each key once, whose fields have names that [setattr] stores and
    can all be written, so that [serialize] writes JSON. For any class [T],
    [T.deserialize] reads this text as a new object of class [T] that has
    exactly the fields of [u]. A field of [u] that holds data JSON can
    carry comes back equal, by [==], to what [u] holds; any other field
    comes back as a string, the [str] of what [u] holds. *)
Theorem deserialize_ignores_class_tag :
  forall (T : cls) (u : entity) (next : nat),
    is_void u = false ->
    well_formed (obj u) = true ->
    settable_fields u = true ->
    writable_fields u = true ->
    exists y,
      serialize u
      = Ok (JsonText (JObj [("class", JStr (class_name (ocls u)));
                            ("data", JObj (data_members (odict u)))])) /\
      deserialize T
        (JsonText (JObj [("class", JStr (class_name (ocls u)));
                         ("data", JObj (data_members (odict u)))])) next
      = Ok (obj y, S next) /\
      oid y = next /\ ocls y = T /\
      (forall k v,
         lookup k (odict u) = Some v ->
         exists w,
           lookup k (odict y) = Some w /\
           (jsonable v = true -> py_eq v w = true /\ py_eq w v = true) /\
           (jsonable v = false -> exists s, py_str v = Ok s /\ w = VStr s)) /\
      (forall k, lookup k (odict u) = None -> lookup k (odict y) = None).
Proof.
  intros T u next Hvoid Hwf Hset Hwr.
  destruct (well_formed_fields u Hwf) as [Hnd Hw].
  exists (mkEntity next T (loaded_fields (odict u))).
  split; [|split; [|split; [|split; [|split]]]].
  - unfold serialize. rewrite Hvoid.
    apply General_serialize_document; assumption.
  - apply (deserialize_document T u next); assumption.
  - reflexivity.
  - reflexivity.
  - intros k v Hv. exists (json_loads (field_json v)).
    split; [apply loaded_fields_lookup; assumption|].
    assert (Hin : In (k, v) (odict u)) by (apply lookup_Some_In; exact Hv).
    unfold writable_fields in Hwr. rewrite forallb_forall in Hwr, Hw.
    pose proof (Hwr _ Hin) as Hwv. pose proof (Hw _ Hin) as Hwfv.
    simpl in Hwv, Hwfv. split.
    + intros Hj. unfold field_json.
      destruct (json_dumps_jsonable true v Hj) as [j Ej]. rewrite Ej.
      split; [apply py_eq_loads|apply py_eq_loads_rev]; assumption.
    + intros Hj. destruct (field_json_str v Hj Hwv) as (s & Hs & ->).
      exists s. split; [exact Hs|reflexivity].
  - intros k Hk. apply loaded_fields_lookup_None. exact Hk.
Qed.

Lemma deserialize_ignores_class_tag_witness :
  exists y,
    deserialize Car (JsonText (document sample_person)) 20 = Ok (obj y, 21) /\
    ocls y = Car /\
    exists w, lookup "name" (odict y) = Some w /\ py_eq (VStr "Anna") w = true.
Proof.
  destruct (deserialize_ignores_class_tag Car sample_person 20
              eq_refl eq_refl eq_refl eq_refl)
    as (y & _ & Hde & _ & Hcls & Hget & _).
  exists y. split; [exact Hde|]. split; [exact Hcls|].
  destruct (Hget "name" (VStr "Anna") eq_refl) as (w & Hw & Heq & _).
  exists w. split; [exact Hw|]. apply (proj1 (Heq eq_refl)).
Defined.

(** * Further properties of the kernel *)

(** ** equals and deep_equals are reflexive *)

Lemma text_eqb_refl (t : text) : text_eqb t t = true.
Proof.
  destruct t as [j|v|j v|s]; simpl.
  - apply json_eqb_refl.
  - apply same_pickle_refl.
  - rewrite json_eqb_refl, same_pickle_refl. reflexivity.
  - apply String.eqb_refl.
Qed.

(** X1. Every object whose dictionaries hold each key once is [equals] and
    [deep_equals] to itself, a Void and an object that holds other objects
    included. *)
Theorem equals_and_deep_equals_reflexive :
  forall x : entity,
    well_formed (obj x) = true ->
    equals x (obj x) = true /\ deep_equals x (obj x) = true.
Proof.
  intros x Hwf. destruct (well_formed_fields x Hwf) as [Hnd Hw].
  assert (Heq : py_eq (VDict (odict x)) (VDict (odict x)) = true).
  { apply (py_eq_same (VDict (odict x))).
    rewrite well_formed_dict. apply andb_true_iff. split; [|exact Hw].
    apply distinct_NoDup. exact Hnd. }
  unfold equals, deep_equals.
  destruct (is_void x) eqn:Hvoid.
  - split; exact Hvoid.
  - assert (Hin : isinstance (obj x) (TClass (ocls x)) = true)
      by (simpl; apply issubclass_refl).
    unfold General_equals, General_deep_equals.
    rewrite Hin. cbn [negb]. rewrite as_entity_obj. split; [exact Heq|].
    unfold invoke. destruct (has_key "serialize" (odict x)); [exact Heq|].
    destruct (serialize x) as [t|e]; cbn [bind]; [|exact Heq].
    apply text_eqb_refl.
Qed.

Lemma equals_and_deep_equals_reflexive_witness :
  equals sample_holder (obj sample_holder) = true /\
  deep_equals sample_holder (obj sample_holder) = true.
Proof.
  apply (equals_and_deep_equals_reflexive sample_holder). reflexivity.
Defined.

(** ** try_clone *)

(** X2. [try_clone] hands back the Void instance for a Void and for an
    object on which a field named [clone] hides the method. For any other
    object of a store, with each field name once, names that [setattr]
    stores and values that [copy.deepcopy] copies, it hands back a new
    object of the same class with the same fields, which is true in a
    condition. *)
Theorem try_clone_gives_clone_or_void :
  forall (h : store) (x : entity) (next : nat),
    (has_key "clone" (odict x) = true ->
     try_clone x next = Ok (obj VoidInstance, next)) /\
    (has_key "clone" (odict x) = false ->
     is_void x = true ->
     try_clone x next = Ok (obj VoidInstance, next)) /\
    (has_key "clone" (odict x) = false ->
     is_void x = false ->
     distinct (keys (odict x)) = true ->
     settable_fields x = true ->
     copyable_fields x = true ->
     fields_agree h x ->
     exists cloned next',
       try_clone x next = Ok (obj cloned, next') /\
       oid cloned = next /\ ocls cloned = ocls x /\
       same_fields (odict x) (odict cloned) /\
       py_bool (obj cloned) = true).
Proof.
  intros h x next. unfold try_clone, invoke. split; [|split].
  - intros ->. reflexivity.
  - intros -> Hvoid. unfold clone. rewrite Hvoid. reflexivity.
  - intros -> Hvoid Hd Hset Hcopy Ha. apply distinct_NoDup in Hd.
    unfold clone. rewrite Hvoid. unfold General_clone, new.
    destruct (clone_attrs_general h (odict x) (mkEntity next (ocls x) [])
                (S next))
      as (items' & next' & Hrun & _ & Hsf & _).
    + intros k Hk. apply (settable_fields_keys x k Hset Hk).
    + exact Hd.
    + exact Hcopy.
    + exact Ha.
    + simpl in Hrun. rewrite Hrun. cbn [bind try_except].
      exists (mkEntity next (ocls x) items'), next'.
      split; [reflexivity|]. split; [reflexivity|]. split; [reflexivity|].
      split; [exact Hsf|].
      unfold is_void, is_void_value, isinstance, obj in Hvoid.
      simpl in Hvoid. simpl. rewrite Hvoid. reflexivity.
Qed.

Lemma try_clone_gives_clone_or_void_witness :
  try_clone (mkEntity 30 Person [("clone", VInt 1)]) 40
  = Ok (obj VoidInstance, 40) /\
  exists cloned next',
    try_clone sample_holder 20 = Ok (obj cloned, next') /\
    oid cloned = 20 /\
    same_fields (odict sample_holder) (odict cloned).
Proof.
  split.
  - apply (proj1 (try_clone_gives_clone_or_void sample_store
                    (mkEntity 30 Person [("clone", VInt 1)]) 40)).
    reflexivity.
  - destruct (proj2 (proj2 (try_clone_gives_clone_or_void sample_store
                              sample_holder 20))
                eq_refl eq_refl eq_refl eq_refl eq_refl)
      as (cloned & next' & Hrun & Hid & _ & Hsf & _).
    + repeat constructor.
    + exists cloned, next'. repeat split; assumption.
Defined.

(** ** deep_copy_to *)

Lemma fields_agree_lookup (h : store) (self : entity) (k : string) (v : value) :
  fields_agree h self -> lookup k (odict self) = Some v -> agrees h v.
Proof.
  unfold fields_agree. rewrite Forall_forall. intros H Hv.
  apply (H (k, v)). apply lookup_Some_In. exact Hv.
Qed.


Lemma deep_copy_attrs_public (h : store) (self : entity) (names : list string) :
  Forall (fun k => startswith_underscore k = false) names ->
  fields_agree h self ->
  (forall k v, In k names -> lookup k (odict self) = Some v ->
               copy_hook_free v = true) ->
  forall t next, exists t' next',
    deep_copy_attrs self names t next = Ok (t', next') /\
    next <= next' /\ oid t' = oid t /\ ocls t' = ocls t /\
    (forall k v,
       existsb (String.eqb k) names = true ->
       lookup k (odict self) = Some v ->
       exists v',
         lookup k (odict t') = Some v' /\
         same_pickle v v' = true /\ ids_at_least next v' = true) /\
    (forall k,
       existsb (String.eqb k) names = false \/ lookup k (odict self) = None ->
       lookup k (odict t') = lookup k (odict t)).
Proof.
  intros Hpub Ha. induction Hpub as [|name names Hname _ IH]; intros Hfree t next.
  - exists t, next. simpl. repeat split; auto. intros k v Hk. discriminate.
  - assert (Hfree' : forall k v, In k names -> lookup k (odict self) = Some v ->
                                 copy_hook_free v = true).
    { intros k v Hk. apply Hfree. right. exact Hk. }
    specialize (IH Hfree').
    simpl. destruct (lookup name (odict self)) as [v|] eqn:Ev.
    + rewrite (deepcopy_rebuild v (Hfree name v (or_introl eq_refl) Ev)).
      cbn [bind].
      destruct (rebuild v next []) as [[v' n1] m1] eqn:Ecopy.
      destruct (rebuild_fresh v next next [] v' n1 m1 (Nat.le_refl _)
                  (Forall_nil _) Ecopy) as (Hn1 & Hv' & _).
      destruct (rebuild_same h v next [] v' n1 m1
                  (fields_agree_lookup h self name v Ha Ev) (Forall_nil _) Ecopy)
        as (Hsame & _).
      rewrite (setattr_public _ _ _ Hname). cbn [try_except_AttributeError bind].
      destruct (IH (mkEntity (oid t) (ocls t) (dict_set name v' (odict t))) n1)
        as (t' & next' & Hrun & Hle & Hid & Hcls & Hin & Hout).
      exists t', next'. rewrite Hrun.
      split; [reflexivity|]. split; [lia|]. split; [exact Hid|].
      split; [exact Hcls|]. split.
      * intros k v0 Hk Hv0.
        destruct (existsb (String.eqb k) names) eqn:Erest.
        -- destruct (Hin k v0 Erest Hv0) as (w & Hw1 & Hw2 & Hw3).
           exists w. repeat split; try assumption.
           apply (ids_at_least_mono _ next n1 Hn1 Hw3).
        -- rewrite orb_false_r in Hk. apply String.eqb_eq in Hk. subst k.
           exists v'. rewrite (Hout name (or_introl Erest)). simpl.
           rewrite lookup_dict_set, String.eqb_refl.
           rewrite Ev in Hv0. inversion Hv0; subst. auto.
      * intros k Hk. rewrite Hout.
        -- simpl. rewrite lookup_dict_set.
           destruct (String.eqb k name) eqn:E; [|reflexivity].
           apply String.eqb_eq in E. subst k.
           destruct Hk as [Hk|Hk]; [simpl in Hk; discriminate|congruence].
        -- destruct Hk as [Hk|Hk]; [|right; exact Hk].
           left. apply orb_false_iff in Hk. tauto.
    + destruct (IH t next) as (t' & next' & Hrun & Hle & Hid & Hcls & Hin & Hout).
      exists t', next'. rewrite Hrun. repeat split; try assumption.
      * intros k v0 Hk Hv0. apply Hin; [|exact Hv0].
        destruct (String.eqb k name) eqn:E; [|exact Hk].
        apply String.eqb_eq in E. subst k. congruence.
      * intros k Hk. apply Hout.
        destruct Hk as [Hk|Hk]; [|right; exact Hk].
        left. apply orb_false_iff in Hk. tauto.
Qed.

(** X3. For [self] not a Void whose inner objects are those of a store,
    [deep_copy_to] raises its type error when the target is not an
    instance of the class of [self]. Otherwise, when the public fields of
    [self] hold values that [copy.deepcopy] copies, no object inside them
    having a field that hides a hook of the copy, the target, still the
    same object of the same class, holds under every public name of [self]
    a deep copy of the value [self] holds: the same classes and contents,
    made of new objects only; what the target has under other names
    stays. *)
Theorem deep_copy_to_copies_public_fields :
  forall (h : store) (self : entity) (target : value) (next : nat),
    is_void self = false ->
    fields_agree h self ->
    (isinstance target (TClass (ocls self)) = false ->
       deep_copy_to self target next
       = Raise (TypeError_deep_copy_type (type_of target))) /\
    (isinstance target (TClass (ocls self)) = true ->
     (forall k v,
        startswith_underscore k = false ->
        lookup k (odict self) = Some v -> copy_hook_free v = true) ->
       exists t t' next',
         target = obj t /\ deep_copy_to self target next = Ok (t', next') /\
         next <= next' /\ oid t' = oid t /\ ocls t' = ocls t /\
         (forall k v,
            startswith_underscore k = false ->
            lookup k (odict self) = Some v ->
            exists v',
              lookup k (odict t') = Some v' /\
              same_pickle v v' = true /\ ids_at_least next v' = true) /\
         (forall k,
            startswith_underscore k = true \/ lookup k (odict self) = None ->
            lookup k (odict t') = lookup k (odict t))).
Proof.
  intros h self target next Hself Ha. unfold deep_copy_to. rewrite Hself.
  split.
  - intros Hin. unfold General_deep_copy_to. rewrite Hin. reflexivity.
  - intros Hin Hfree. unfold General_deep_copy_to. rewrite Hin. cbn [negb].
    destruct (isinstance_entity _ _ Hin) as (t & -> & _).
    rewrite as_entity_obj.
    assert (Hpub : Forall (fun k => startswith_underscore k = false)
                          (public_names self)).
    { apply Forall_forall. intros k Hk. apply public_names_spec in Hk. tauto. }
    destruct (deep_copy_attrs_public h self _ Hpub Ha) with (t := t) (next := next)
      as (t' & next' & Hrun & Hle & Hid & Hcls & Hget & Hkeep).
    { intros k v Hk Hv. apply public_names_spec in Hk.
      apply (Hfree k v); tauto. }
    exists t, t', next'. repeat split; try assumption.
    + intros k v Hk Hv. apply Hget; [|exact Hv].
      apply existsb_eqb_In, public_names_spec. split; congruence.
    + intros k Hk. apply Hkeep.
      destruct (existsb (String.eqb k) (public_names self)) eqn:E;
        [|left; reflexivity].
      apply existsb_eqb_In, public_names_spec in E. destruct E as [E1 E2].
      destruct Hk as [Hk|Hk]; [congruence|right; exact Hk].
Qed.

Lemma deep_copy_to_copies_public_fields_witness :
  exists t' next' v',
    deep_copy_to sample_holder (obj (mkEntity 30 Person [])) 40 = Ok (t', next') /\
    lookup "friend" (odict t') = Some v' /\
    same_pickle (obj sample_person) v' = true /\
    ids_at_least 40 v' = true.
Proof.
  assert (Ha : fields_agree sample_store sample_holder) by (repeat constructor).
  assert (Hfree : forall k v,
             startswith_underscore k = false ->
             lookup k (odict sample_holder) = Some v -> copy_hook_free v = true).
  { intros k v _ Hv. simpl in Hv.
    repeat match type of Hv with
           | (if String.eqb k ?s then _ else _) = _ =>
               destruct (String.eqb k s)
           end; inversion Hv; subst; reflexivity. }
  destruct (proj2 (deep_copy_to_copies_public_fields sample_store sample_holder
                     (obj (mkEntity 30 Person [])) 40 eq_refl Ha) eq_refl Hfree)
    as (t & t' & next' & _ & Hrun & _ & _ & _ & Hget & _).
  destruct (Hget "friend" (obj sample_person) eq_refl eq_refl)
    as (v' & Hv1 & Hv2 & Hv3).
  exists t', next', v'. repeat split; assumption.
Defined.

Lemma deepcopy_atomic (v : value) (next : nat) (memo : list (nat * value)) :
  atomic v = true -> deepcopy v next memo = Ok (v, next, memo).
Proof. destruct v; try discriminate; reflexivity. Qed.

Lemma deep_copy_attrs_atomic (self : entity) (names : list string) :
  (forall k v, In k names -> lookup k (odict self) = Some v -> atomic v = true) ->
  forall t next,
    deep_copy_attrs self names t next
    = (t' <- copy_attrs self names t ;; Ok (t', next)).
Proof.
  induction names as [|name names IH]; intros Hp t next; simpl; [reflexivity|].
  destruct (lookup name (odict self)) as [v|] eqn:Ev.
  - rewrite (deepcopy_atomic v next [] (Hp name v (or_introl eq_refl) Ev)).
    cbn [bind].
    destruct (try_except_AttributeError (setattr t name v) (Ok t)) as [t1|e];
      simpl; [|reflexivity].
    apply IH. intros k w Hk. apply Hp. right. exact Hk.
  - apply IH. intros k w Hk. apply Hp. right. exact Hk.
Qed.

(** X4. When the public fields of [self], not a Void, hold [None], truth
    values, integers and strings only, [deep_copy_to] leaves the target
    exactly as [copy_to] does and creates no object; when [copy_to]
    raises, it raises its own type error. *)
Theorem deep_copy_to_is_copy_to_on_atoms :
  forall (self : entity) (target : value) (next : nat),
    is_void self = false ->
    (forall k v,
       startswith_underscore k = false ->
       lookup k (odict self) = Some v -> atomic v = true) ->
    deep_copy_to self target next
    = match copy_to self target with
      | Ok t' => Ok (t', next)
      | Raise _ => Raise (TypeError_deep_copy_type (type_of target))
      end.
Proof.
  intros self target next Hself Hp.
  unfold deep_copy_to, copy_to. rewrite Hself.
  unfold General_deep_copy_to, General_copy_to.
  destruct (isinstance target (TClass (ocls self))); cbn [negb]; [|reflexivity].
  destruct (as_entity target) as [t|]; [|reflexivity].
  rewrite deep_copy_attrs_atomic.
  - destruct (copy_attrs self (public_names self) t) as [t'|e] eqn:E;
      [reflexivity|].
    exfalso.
    assert (Hpub : Forall (fun k => startswith_underscore k = false)
                          (public_names self)).
    { apply Forall_forall. intros k Hk. apply public_names_spec in Hk. tauto. }
    destruct (copy_attrs_public self _ Hpub t) as (t' & Hrun & _).
    congruence.
  - intros k v Hk Hv. apply public_names_spec in Hk. apply (Hp k v); tauto.
Qed.

Lemma deep_copy_to_is_copy_to_on_atoms_witness :
  deep_copy_to sample_person (obj (mkEntity 30 Person [])) 40
  = Ok (mkEntity 30 Person [("age", VInt 25); ("name", VStr "Anna")], 40).
Proof.
  rewrite (deep_copy_to_is_copy_to_on_atoms sample_person
             (obj (mkEntity 30 Person [])) 40 eq_refl).
  - reflexivity.
  - intros k v Hk Hv. simpl in Hv.
    repeat match type of Hv with
           | (if String.eqb k ?s then _ else _) = _ =>
               destruct (String.eqb k s) eqn:?
           end; inversion Hv; subst; try reflexivity.
    apply String.eqb_eq in Heqb. subst. discriminate Hk.
Defined.

(** ** Metadata *)

Lemma has_key_lookup {A : Type} (k : string) (d : list (string * A)) :
  has_key k d = match lookup k d with Some _ => true | None => false end.
Proof. reflexivity. Qed.

Lemma get_metadata_lookup (a b : entity) (key : string) :
  lookup "_metadata" (odict a) = lookup "_metadata" (odict b) ->
  get_metadata a key = get_metadata b key.
Proof.
  intros H. unfold get_metadata. rewrite !has_key_lookup, H. reflexivity.
Qed.

Lemma set_metadata_stores (self : entity) (key : string) (v : value) :
  (lookup "_metadata" (odict self) = None \/
   exists d, lookup "_metadata" (odict self) = Some (VDict d)) ->
  exists self',
    set_metadata self key v = Done self' /\
    get_metadata self' key = Done v.
Proof.
  intros [Hnone|[d Hd]].
  - exists (assign (assign self "_metadata" (VDict []))
              "_metadata" (VDict [(key, v)])).
    unfold set_metadata. rewrite has_key_lookup, Hnone. cbn [negb].
    cbn [assign odict]. rewrite lookup_dict_set, String.eqb_refl.
    split; [reflexivity|].
    unfold get_metadata. rewrite has_key_lookup. cbn [assign odict].
    rewrite lookup_dict_set, String.eqb_refl. cbn [negb lookup].
    rewrite String.eqb_refl. reflexivity.
  - exists (assign self "_metadata" (VDict (dict_set key v d))).
    unfold set_metadata. rewrite has_key_lookup, Hd. cbn [negb]. rewrite Hd.
    split; [reflexivity|].
    unfold get_metadata. rewrite has_key_lookup. cbn [assign odict].
    rewrite lookup_dict_set, String.eqb_refl. cbn [negb].
    rewrite lookup_dict_set, String.eqb_refl. reflexivity.
Qed.


(** X5. On an object that has no [_metadata] attribute yet, or has a
    dictionary there, [set_metadata] returns, the object being the same
    object of the same class; then [get_metadata] of the same key gives the
    value stored, and [get_metadata] of any other key gives what it gave
    before. *)
Theorem set_then_get_metadata :
  forall (self : entity) (key : string) (v : value),
    (lookup "_metadata" (odict self) = None \/
     exists d, lookup "_metadata" (odict self) = Some (VDict d)) ->
    exists self',
      set_metadata self key v = Done self' /\
      oid self' = oid self /\ ocls self' = ocls self /\
      get_metadata self' key = Done v /\
      (forall key', key' <> key ->
         get_metadata self' key' = get_metadata self key').
Proof.
  intros self key v [Hnone|[d Hd]].
  - exists (assign (assign self "_metadata" (VDict []))
              "_metadata" (VDict [(key, v)])).
    unfold set_metadata. rewrite has_key_lookup, Hnone. cbn [negb].
    cbn [assign odict]. rewrite lookup_dict_set, String.eqb_refl.
    split; [reflexivity|]. split; [reflexivity|]. split; [reflexivity|].
    split.
    + unfold get_metadata. rewrite has_key_lookup. cbn [assign odict].
      rewrite lookup_dict_set, String.eqb_refl. cbn [negb lookup].
      rewrite String.eqb_refl. reflexivity.
    + intros key' Hneq. unfold get_metadata. rewrite !has_key_lookup.
      cbn [assign odict]. rewrite lookup_dict_set, String.eqb_refl, Hnone.
      cbn [negb lookup].
      apply String.eqb_neq in Hneq. rewrite Hneq. reflexivity.
  - exists (assign self "_metadata" (VDict (dict_set key v d))).
    unfold set_metadata. rewrite has_key_lookup, Hd. cbn [negb]. rewrite Hd.
    split; [reflexivity|]. split; [reflexivity|]. split; [reflexivity|].
    split.
    + unfold get_metadata. rewrite has_key_lookup. cbn [assign odict].
      rewrite lookup_dict_set, String.eqb_refl. cbn [negb].
      rewrite lookup_dict_set, String.eqb_refl. reflexivity.
    + intros key' Hneq. unfold get_metadata. rewrite !has_key_lookup.
      cbn [assign odict]. rewrite lookup_dict_set, String.eqb_refl, Hd.
      cbn [negb]. rewrite lookup_dict_set.
      apply String.eqb_neq in Hneq. rewrite Hneq. reflexivity.
Qed.

Lemma set_then_get_metadata_witness :
  exists self',
    set_metadata sample_person "department" (VStr "IT") = Done self' /\
    get_metadata self' "department" = Done (VStr "IT").
Proof.
  destruct (set_then_get_metadata sample_person "department" (VStr "IT"))
    as (self' & Hset & _ & _ & Hget & _).
  - right. exists []. reflexivity.
  - exists self'. split; assumption.
Defined.

(** X6. [safe_set_metadata] answers false exactly when a field named
    [set_metadata] hides the method or the object has something other than
    a dictionary as [_metadata], and then leaves the object as it was; in
    every other case it answers true. *)
Theorem safe_set_metadata_flag :
  forall (self : entity) (key : string) (v : value),
    (fst (safe_set_metadata self key v) = false <->
     has_key "set_metadata" (odict self) = true \/
     exists w, lookup "_metadata" (odict self) = Some w /\
               forall d, w <> VDict d) /\
    (fst (safe_set_metadata self key v) = false ->
     snd (safe_set_metadata self key v) = self).
Proof.
  intros self key v. unfold safe_set_metadata, invoke_meta.
  destruct (has_key "set_metadata" (odict self)).
  { simpl. split; [|reflexivity]. split; auto. }
  unfold set_metadata. rewrite has_key_lookup.
  destruct (lookup "_metadata" (odict self)) as [w|] eqn:Hw; cbn [negb].
  - rewrite Hw. destruct w; simpl;
      try (split;
           [split; [intros _; right; eexists; split; [reflexivity|discriminate]
                   |reflexivity]
           |reflexivity]).
    split; [split; [discriminate|]|discriminate].
    intros [H|(w & E & Hnot)]; [discriminate|].
    inversion E; subst. exfalso. eapply Hnot. reflexivity.
  - cbn [assign odict]. rewrite lookup_dict_set, String.eqb_refl. simpl.
    split; [|discriminate]. split; [discriminate|].
    intros [H|(w & E & _)]; discriminate.
Qed.

Lemma safe_set_metadata_flag_witness :
  fst (safe_set_metadata (mkEntity 30 Person [("_metadata", VInt 3)]) "k" VNone)
  = false.
Proof.
  apply (proj1 (safe_set_metadata_flag
                  (mkEntity 30 Person [("_metadata", VInt 3)]) "k" VNone)).
  right. exists (VInt 3). split; [reflexivity|discriminate].
Defined.

(** X7. On an object on which no field hides [get_metadata]: after
    [set_metadata] stored under a key a value that is neither [None] nor a
    Void, [try_get_metadata] of that key gives the value back when it is an
    instance of the expected type and the Void instance when it is not;
    for a key under which [get_metadata] finds nothing it gives the Void
    instance. On every object, it never gives [None]; and it raises when a
    field named [get_metadata] hides the method. *)
Theorem try_get_metadata_checks_type :
  forall (self : entity) (key : string) (v : value) (expected_type : pytype),
    (has_key "get_metadata" (odict self) = false ->
     (lookup "_metadata" (odict self) = None \/
      exists d, lookup "_metadata" (odict self) = Some (VDict d)) ->
     v <> VNone ->
     is_void_value v = false ->
     exists self',
       set_metadata self key v = Done self' /\
       try_get_metadata self' key expected_type
       = Done (if isinstance v expected_type then v else obj VoidInstance)) /\
    (has_key "get_metadata" (odict self) = false ->
     forall key',
       get_metadata self key' = Done VNone ->
       try_get_metadata self key' expected_type = Done (obj VoidInstance)) /\
    (forall key' r,
       try_get_metadata self key' expected_type = Done r -> r <> VNone) /\
    (has_key "get_metadata" (odict self) = true ->
     forall key',
       try_get_metadata self key' expected_type = Failed TypeError_data_called).
Proof.
  intros self key v T. split; [|split; [|split]].
  - intros Hkey Hmeta Hnone Hvoid.
    destruct (set_metadata_stores self key v Hmeta) as (self' & Hset & Hget).
    exists self'. split; [exact Hset|].
    assert (Hkey' : has_key "get_metadata" (odict self') = false).
    { revert Hset. unfold set_metadata. rewrite has_key_lookup.
      destruct (lookup "_metadata" (odict self)) as [w|] eqn:Hw; cbn [negb].
      - rewrite Hw. destruct w; try discriminate.
        intros E. inversion E; subst. cbn [assign odict].
        unfold has_key in *. rewrite lookup_dict_set. exact Hkey.
      - cbn [assign odict]. rewrite lookup_dict_set, String.eqb_refl.
        intros E. inversion E; subst. cbn [assign odict].
        unfold has_key in *. rewrite !lookup_dict_set. exact Hkey. }
    unfold try_get_metadata, invoke_meta. rewrite Hkey', Hget.
    unfold is_void_value in Hvoid. unfold assignment_attempt.
    destruct v; try congruence; rewrite Hvoid; reflexivity.
  - intros Hkey key' Hget. unfold try_get_metadata, invoke_meta.
    rewrite Hkey, Hget. reflexivity.
  - intros key' r. unfold try_get_metadata, invoke_meta.
    destruct (has_key "get_metadata" (odict self)); [discriminate|].
    destruct (get_metadata self key') as [w|e]; [|discriminate].
    destruct w; intros E; inversion E; subst; try discriminate;
      unfold assignment_attempt;
      repeat match goal with
             | |- (if ?b then _ else _) <> _ => destruct b
             end; discriminate.
  - intros Hkey key'. unfold try_get_metadata, invoke_meta.
    rewrite Hkey. reflexivity.
Qed.

Lemma try_get_metadata_checks_type_witness :
  exists self',
    set_metadata sample_person "department" (VStr "IT") = Done self' /\
    try_get_metadata self' "department" TStr = Done (VStr "IT") /\
    try_get_metadata sample_person "nonexistent" TStr = Done (obj VoidInstance).
Proof.
  destruct (try_get_metadata_checks_type sample_person "department"
              (VStr "IT") TStr)
    as (Hstored & Hmiss & _).
  destruct Hstored as (self' & Hset & Hget).
  - reflexivity.
  - right. exists []. reflexivity.
  - discriminate.
  - reflexivity.
  - exists self'. split; [exact Hset|]. split; [exact Hget|].
    apply Hmiss; reflexivity.
Defined.

(** ** Metadata under copy_to and clone *)

(** X8. [copy_to] never carries metadata over: after copying [self], not a
    Void, into a target, [get_metadata] on the target answers what it
    answered before. [clone] does carry it: on the clone of an object whose
    fields hold data only, [get_metadata] answers what it answers on the
    original. *)
Theorem metadata_under_copy_to_and_clone :
  forall (self t : entity) (key : string) (next : nat),
    is_void self = false ->
    (isinstance (obj t) (TClass (ocls self)) = true ->
     exists t',
       copy_to self (obj t) = Ok t' /\
       get_metadata t' key = get_metadata t key) /\
    (distinct (keys (odict self)) = true ->
     plain_fields self = true ->
     settable_fields self = true ->
     exists cloned,
       clone self next = Ok (cloned, S next) /\
       get_metadata cloned key = get_metadata self key).
Proof.
  intros self t key next Hself. split.
  - intros Hin. unfold copy_to. rewrite Hself.
    unfold General_copy_to. rewrite Hin. cbn [negb]. rewrite as_entity_obj.
    assert (Hpub : Forall (fun k => startswith_underscore k = false)
                          (public_names self)).
    { apply Forall_forall. intros k Hk. apply public_names_spec in Hk. tauto. }
    destruct (copy_attrs_public self _ Hpub t) as (t' & Hrun & _ & _ & Hget).
    exists t'. split; [exact Hrun|].
    apply get_metadata_lookup. rewrite Hget.
    destruct (existsb (String.eqb "_metadata") (public_names self)) eqn:E;
      [|reflexivity].
    apply existsb_eqb_In, public_names_spec in E. destruct E as [_ E].
    discriminate E.
  - intros Hd Hp Hs. apply distinct_NoDup in Hd.
    exists (mkEntity next (ocls self) (odict self)). split.
    + unfold clone. rewrite Hself. unfold General_clone, new.
      rewrite clone_attrs_plain; try assumption. reflexivity.
    + apply get_metadata_lookup. reflexivity.
Qed.

Lemma metadata_under_copy_to_and_clone_witness :
  exists t',
    copy_to sample_person
      (obj (mkEntity 30 Person [("_metadata", VDict [("k", VInt 1)])])) = Ok t' /\
    get_metadata t' "k" = Done (VInt 1).
Proof.
  destruct (proj1 (metadata_under_copy_to_and_clone sample_person
                     (mkEntity 30 Person [("_metadata", VDict [("k", VInt 1)])])
                     "k" 40 eq_refl) eq_refl)
    as (t' & Hrun & Hget).
  exists t'. split; [exact Hrun|]. rewrite Hget. reflexivity.
Defined.


(** ** Truth values of the assignment attempt *)

(** X9. The result of [try_as] is true in a condition exactly when the
    attempt succeeded: [bool(x.try_as(T))] holds if and only if [x] is not
    a Void and is an instance of [T]. For any source, a true result of
    [safe_cast] is the source itself, an instance of the target type. *)
Theorem try_as_truth_value :
  forall (self : entity) (target_type : pytype) (source : value),
    py_bool (try_as self target_type)
    = negb (is_void self) && is_type self target_type /\
    (py_bool (safe_cast target_type source) = true ->
     safe_cast target_type source = source /\
     isinstance source target_type = true /\ source <> VNone).
Proof.
  intros self T source. split.
  - unfold try_as, is_void, is_void_value, is_type, assignment_attempt.
    unfold obj at 1.
    destruct (isinstance (obj self) (TClass Void)) eqn:Hv; [reflexivity|].
    destruct (isinstance (obj self) T); [|reflexivity].
    simpl in *. rewrite Hv. reflexivity.
  - unfold safe_cast, assignment_attempt.
    destruct source; simpl; try discriminate;
      try (destruct (isinstance _ T) eqn:E; simpl; [|discriminate];
           intros _; repeat split; discriminate).
    destruct (issubclass c Void) eqn:Hv; [discriminate|].
    fold (isinstance (VObj id c fields) T).
    destruct (isinstance (VObj id c fields) T); [|discriminate].
    intros _. repeat split. discriminate.
Qed.

Lemma try_as_truth_value_witness :
  safe_cast TInt (VInt 7) = VInt 7.
Proof.
  apply (proj2 (try_as_truth_value sample_person TInt (VInt 7))).
  reflexivity.
Defined.


(** ** The round trip, by equals *)

Lemma jsonable_writable_fields (x : entity) :
  jsonable_fields x = true -> writable_fields x = true.
Proof.
  unfold jsonable_fields, writable_fields. rewrite !forallb_forall.
  intros H kv Hin. rewrite writable_spec, (H kv Hin). reflexivity.
Qed.

Lemma check_pairs_plain (kvs : list (string * value)) :
  forallb (fun kv => plain (snd kv)) kvs = true -> check_pairs kvs = Ok tt.
Proof.
  induction kvs as [|[k x] kvs IH]; simpl; intros Hp; [reflexivity|].
  apply andb_true_iff in Hp. destruct Hp as [Hp1 Hp2].
  rewrite (pickle_check_plain x Hp1). simpl. apply IH. exact Hp2.
Qed.

Lemma copy_pairs_plain (kvs : list (string * value)) :
  forallb (fun kv => plain (snd kv)) kvs = true ->
  forall next memo, copy_pairs kvs next memo = (kvs, next, memo).
Proof.
  induction kvs as [|[k x] kvs IH]; simpl; intros Hp next memo; [reflexivity|].
  apply andb_true_iff in Hp. destruct Hp as [Hp1 Hp2].
  rewrite (rebuild_plain x Hp1), (IH Hp2). reflexivity.
Qed.

(** The round trip of an object that holds data only, through JSON or
    through the pickle. *)
Lemma round_trip_plain (x : entity) (n : nat) :
  is_void x = false ->
  well_formed (obj x) = true ->
  plain_fields x = true ->
  settable_fields x = true ->
  jsonable_fields x = true \/ pickle_protocol (odict x) = Ok tt ->
  exists t y,
    serialize x = Ok t /\
    deserialize (ocls x) t n = Ok (obj y, S n) /\
    equals y (obj x) = true /\
    equals x (obj y) = true.
Proof.
  intros Hvoid Hwf Hp Hset Hcan.
  destruct (well_formed_fields x Hwf) as [Hnd Hw].
  assert (Hin : forall y, ocls y = ocls x ->
                  isinstance (obj x) (TClass (ocls y)) = true /\
                  isinstance (obj y) (TClass (ocls x)) = true).
  { intros y Hy. simpl. rewrite Hy. split; apply issubclass_refl. }
  destruct (writable_fields x) eqn:Hwr.
  - pose proof (plain_writable_fields x Hp Hwr) as Hj.
    set (y := mkEntity n (ocls x) (loaded_fields (odict x))).
    assert (Hvoidy : is_void y = false)
      by (rewrite (is_void_class y x eq_refl); exact Hvoid).
    exists (JsonText (document x)), y.
    split; [|split; [|split]].
    + unfold serialize. rewrite Hvoid.
      apply General_serialize_document; assumption.
    + apply deserialize_document; assumption.
    + unfold equals. rewrite Hvoidy. unfold General_equals.
      rewrite (proj1 (Hin y eq_refl)). cbn [negb]. rewrite as_entity_obj.
      apply py_eq_loaded_fields_rev; assumption.
    + unfold equals. rewrite Hvoid. unfold General_equals.
      rewrite (proj2 (Hin y eq_refl)). cbn [negb]. rewrite as_entity_obj.
      apply py_eq_loaded_fields; assumption.
  - destruct Hcan as [Hj|Hprot].
    { rewrite (jsonable_writable_fields x Hj) in Hwr. discriminate. }
    set (y := mkEntity n (ocls x) (odict x)).
    assert (Hvoidy : is_void y = false)
      by (rewrite (is_void_class y x eq_refl); exact Hvoid).
    assert (Heq : py_eq (VDict (odict x)) (VDict (odict x)) = true).
    { apply (py_eq_same (VDict (odict x))).
      rewrite well_formed_dict. apply andb_true_iff. split; [|exact Hw].
      apply distinct_NoDup. exact Hnd. }
    exists (PickleText (obj x)), y.
    split; [|split; [|split]].
    + unfold serialize. rewrite Hvoid.
      rewrite (General_serialize_pickle x Hwr). unfold pickle_dumps.
      unfold obj at 1. rewrite pickle_check_obj, Hprot. cbn [bind].
      rewrite (check_pairs_plain (odict x) Hp). reflexivity.
    + unfold deserialize, deserialize_json.
      cbn [loads_text bind try_except unpickle_text].
      unfold obj at 1. rewrite rebuild_obj. cbn [find].
      rewrite (copy_pairs_plain (odict x) Hp). reflexivity.
    + unfold equals. rewrite Hvoidy. unfold General_equals.
      rewrite (proj1 (Hin y eq_refl)). cbn [negb]. rewrite as_entity_obj.
      exact Heq.
    + unfold equals. rewrite Hvoid. unfold General_equals.
      rewrite (proj2 (Hin y eq_refl)). cbn [negb]. rewrite as_entity_obj.
      exact Heq.
Qed.

(** An integer beyond the digit limit cannot be written as JSON nor
    through [str], and a field named [__reduce_ex__] hides what the pickle
    would call: [serialize] raises. *)
Example serialize_without_json_or_pickle :
  serialize (mkEntity 31 Person
               [("n", VInt (10 ^ 4300)); ("__reduce_ex__", VInt 1)])
  = Raise (TypeError_not_callable "__reduce_ex__").
Proof. vm_compute. reflexivity. Qed.

(** X10. For an object that is not a Void, whose fields hold data only
    under names that [setattr] stores, and whose integers are within the
    digit limit or which has no field that hides what the pickle calls,
    the object read back from its own serialization by its own class is
    [equals] to it, and it is [equals] to the object read back. *)
Theorem round_trip_equals :
  forall (x : entity) (next : nat),
    is_void x = false ->
    well_formed (obj x) = true ->
    plain_fields x = true ->
    settable_fields x = true ->
    jsonable_fields x = true \/ pickle_protocol (odict x) = Ok tt ->
    exists t y,
      serialize x = Ok t /\
      deserialize (ocls x) t next = Ok (obj y, S next) /\
      equals y (obj x) = true /\
      equals x (obj y) = true.
Proof.
  intros x next. apply round_trip_plain.
Qed.

Lemma round_trip_equals_witness :
  exists t y,
    serialize sample_car = Ok t /\
    deserialize Car t 20 = Ok (obj y, 21) /\
    equals y (obj sample_car) = true.
Proof.
  destruct (round_trip_equals sample_car 20 eq_refl eq_refl eq_refl eq_refl
              (or_introl eq_refl))
    as (t & y & Hser & Hde & Heq & _).
  exists t, y. repeat split; assumption.
Defined.

(** ** deep_equals and the serialized texts *)

(** X11. Take [self], not a Void, and another object, each holding every
    field name once, with no field named [serialize] and with fields that
    can all be written. Then [deep_equals] is true exactly when the other
    is an instance of the class of [self] and both serialize to the same
    text. It is then no Void, its class has the same name, and its fields
    are written the same; so [deep_equals] is false for an object of a
    derived class with another name, whatever its fields. *)
Theorem deep_equals_is_same_serialization :
  forall (self o : entity),
    is_void self = false ->
    distinct (keys (odict self)) = true ->
    distinct (keys (odict o)) = true ->
    has_key "serialize" (odict self) = false ->
    has_key "serialize" (odict o) = false ->
    writable_fields self = true ->
    writable_fields o = true ->
    (deep_equals self (obj o) = true <->
     isinstance (obj o) (TClass (ocls self)) = true /\
     serialize self = serialize o) /\
    (deep_equals self (obj o) = true ->
     is_void o = false /\
     class_name (ocls o) = class_name (ocls self) /\
     data_members (odict o) = data_members (odict self)).
Proof.
  intros self o Hself Hd Hdo Hk Hko Hw Hwo. apply distinct_NoDup in Hd, Hdo.
  assert (Hser : serialize self = Ok (JsonText (document self))).
  { unfold serialize. rewrite Hself.
    apply General_serialize_document; assumption. }
  assert (Hsero : serialize o
                  = Ok (JsonText (if is_void o then void_document
                                  else document o))).
  { unfold serialize. destruct (is_void o); [reflexivity|].
    apply General_serialize_document; assumption. }
  assert (Hiff : deep_equals self (obj o) = true <->
                 isinstance (obj o) (TClass (ocls self)) = true /\
                 serialize self = serialize o).
  { destruct (isinstance (obj o) (TClass (ocls self))) eqn:Hin.
    - rewrite (deep_equals_texts self o _ _ Hself Hin Hk Hko Hser Hsero).
      rewrite Hser, Hsero. cbn [text_eqb]. split.
      + intros H. apply json_eqb_eq in H. rewrite H. auto.
      + intros [_ H]. injection H as H'. rewrite <- H'. apply json_eqb_refl.
    - unfold deep_equals. rewrite Hself. unfold General_deep_equals.
      rewrite Hin. cbn [negb].
      split; [discriminate|]. intros [H _]. discriminate. }
  split; [exact Hiff|].
  intros H. apply Hiff in H. destruct H as [_ H].
  rewrite Hser, Hsero in H. injection H as H'.
  destruct (is_void o); [discriminate H'|].
  unfold document in H'. injection H' as Hname Hdata. auto.
Qed.

Lemma deep_equals_is_same_serialization_witness :
  deep_equals (sample_A 1 1) (obj (sample_A 2 1)) = true.
Proof.
  apply (proj1 (deep_equals_is_same_serialization (sample_A 1 1) (sample_A 2 1)
                  eq_refl eq_refl eq_refl eq_refl eq_refl eq_refl eq_refl)).
  split; reflexivity.
Defined.

Lemma py_eq_dict_perm (a b : dict) :
  NoDup (keys a) ->
  forallb (fun kv => well_formed (snd kv)) a = true ->
  Permutation a b ->
  py_eq (VDict a) (VDict b) = true.
Proof.
  intros Hnd Hw Hperm. apply py_eq_dict. split.
  - apply Permutation_length. exact Hperm.
  - intros k v Hin. exists v. split.
    + apply lookup_NoDup.
      * eapply Permutation_NoDup; [|exact Hnd]. apply Permutation_map. exact Hperm.
      * apply (Permutation_in _ Hperm). exact Hin.
    + apply py_eq_same. rewrite forallb_forall in Hw. apply (Hw _ Hin).
Qed.


Lemma document_perm (x y : entity) :
  ocls x = ocls y ->
  NoDup (keys (odict x)) ->
  Permutation (odict x) (odict y) ->
  document x = document y.
Proof.
  intros Hcls Hnd Hperm.
  unfold document, data_members. rewrite Hcls. do 2 f_equal.
  rewrite (sort_by_perm_unique fst
             (map (fun kv => (fst kv, field_json (snd kv))) (odict x))
             (map (fun kv => (fst kv, field_json (snd kv))) (odict y)));
    [reflexivity| |].
  - change (NoDup (keys (map (fun kv => (fst kv, field_json (snd kv)))
                            (odict x)))).
    rewrite keys_map_snd. exact Hnd.
  - apply Permutation_map. exact Hperm.
Qed.

Lemma has_key_perm {A : Type} (k : string) (a b : list (string * A)) :
  Permutation a b -> has_key k a = has_key k b.
Proof.
  intros Hperm.
  assert (H : forall d : list (string * A),
             has_key k d = true <-> In k (keys d)).
  { intros d. rewrite <- lookup_In. unfold has_key.
    destruct (lookup k d); split; congruence. }
  destruct (has_key k a) eqn:Ea, (has_key k b) eqn:Eb; try reflexivity.
  - apply H in Ea. apply (Permutation_in _ (Permutation_map fst Hperm)) in Ea.
    apply H in Ea. congruence.
  - apply H in Eb.
    apply (Permutation_in _ (Permutation_map fst (Permutation_sym Hperm))) in Eb.
    apply H in Eb. congruence.
Qed.

(** X12. The order in which the fields were set does not count for
    [equals]: two objects of the same class, not Voids, that hold the same
    fields in any order are [equals]. They are [deep_equals] too when
    every field can be written, so that [serialize] writes JSON. *)
Theorem equalities_ignore_field_order :
  forall (x y : entity),
    is_void x = false ->
    ocls x = ocls y ->
    well_formed (obj x) = true ->
    Permutation (odict x) (odict y) ->
    equals x (obj y) = true /\
    (writable_fields x = true -> deep_equals x (obj y) = true).
Proof.
  intros x y Hx Hcls Hwf Hperm.
  destruct (well_formed_fields x Hwf) as [Hnd Hw].
  assert (Hy : is_void y = false)
    by (rewrite <- (is_void_class x y Hcls); exact Hx).
  assert (Hnd' : NoDup (keys (odict y))).
  { eapply Permutation_NoDup; [|exact Hnd]. apply Permutation_map. exact Hperm. }
  assert (Hin : isinstance (obj y) (TClass (ocls x)) = true)
    by (simpl; rewrite Hcls; apply issubclass_refl).
  assert (Heq : py_eq (VDict (odict x)) (VDict (odict y)) = true)
    by (apply py_eq_dict_perm; assumption).
  split.
  - unfold equals. rewrite Hx. unfold General_equals. rewrite Hin.
    cbn [negb]. rewrite as_entity_obj. exact Heq.
  - intros Hwr.
    assert (Hwr' : writable_fields y = true).
    { unfold writable_fields in *.
      rewrite <- (forallb_perm _ _ _ Hperm). exact Hwr. }
    destruct (has_key "serialize" (odict x)) eqn:Hk.
    + rewrite (deep_equals_hidden x y Hx Hin (or_introl Hk)). exact Heq.
    + assert (Hk' : has_key "serialize" (odict y) = false)
        by (rewrite <- (has_key_perm _ _ _ Hperm); exact Hk).
      rewrite (deep_equals_texts x y (JsonText (document x))
                 (JsonText (document y)) Hx Hin Hk Hk').
      * cbn [text_eqb]. rewrite (document_perm x y Hcls Hnd Hperm).
        apply json_eqb_refl.
      * unfold serialize. rewrite Hx.
        apply General_serialize_document; assumption.
      * unfold serialize. rewrite Hy.
        apply General_serialize_document; assumption.
Qed.

Lemma equalities_ignore_field_order_witness :
  equals (mkEntity 1 Person [("name", VStr "Anna"); ("age", VInt 25)])
         (obj (mkEntity 2 Person [("age", VInt 25); ("name", VStr "Anna")]))
  = true /\
  deep_equals (mkEntity 1 Person [("name", VStr "Anna"); ("age", VInt 25)])
         (obj (mkEntity 2 Person [("age", VInt 25); ("name", VStr "Anna")]))
  = true.
Proof.
  destruct (equalities_ignore_field_order
              (mkEntity 1 Person [("name", VStr "Anna"); ("age", VInt 25)])
              (mkEntity 2 Person [("age", VInt 25); ("name", VStr "Anna")])
              eq_refl eq_refl eq_refl (perm_swap _ _ _))
    as [Heq Hdeep].
  split; [exact Heq|]. apply Hdeep. reflexivity.
Defined.

(** ** The class hierarchy *)

Lemma issubclass_General (c : cls) : issubclass c General = true.
Proof.
  induction c as [| | | | |name base IH]; try reflexivity.
  simpl. rewrite IH. auto using orb_true_r.
Qed.

Lemma issubclass_step (c d : cls) :
  issubclass c d = true ->
  c = d \/
  match c with
  | General => False
  | Any => d = General
  | Person | Car | Void => d = Any \/ d = General
  | Derived _ base => issubclass base d = true
  end.
Proof.
  destruct c; simpl; intros H;
    repeat (apply orb_true_iff in H; destruct H as [H|H]);
    try (apply cls_eqb_eq in H); auto; try discriminate.
Qed.

Lemma issubclass_trans (c d e : cls) :
  issubclass c d = true -> issubclass d e = true -> issubclass c e = true.
Proof.
  induction c as [| | | | |name base IH]; intros Hcd Hde;
    apply issubclass_step in Hcd;
    repeat match goal with
           | H : _ \/ _ |- _ => destruct H as [H|H]
           | H : False |- _ => contradiction
           end; subst; try assumption;
    try (apply issubclass_step in Hde;
         repeat match goal with
                | H : _ \/ _ |- _ => destruct H as [H|H]
                | H : False |- _ => contradiction
                end; subst; reflexivity).
  simpl. rewrite (IH Hcd Hde). auto using orb_true_r.
Qed.

(** X13. Every object is of its real type and of type [General]; an object
    of a type is of every type that type derives from; and an object is a
    Void exactly when it is of type [Void]. *)
Theorem is_type_follows_the_hierarchy :
  forall (self : entity) (c d : cls),
    is_type self (TClass (get_real_type self)) = true /\
    is_type self (TClass General) = true /\
    is_type self TObject = true /\
    (is_type self (TClass c) = true -> issubclass c d = true ->
     is_type self (TClass d) = true) /\
    is_void self = is_type self (TClass Void).
Proof.
  intros self c d. unfold is_type, get_real_type, isinstance. simpl.
  split; [apply issubclass_refl|]. split; [apply issubclass_General|].
  split; [reflexivity|]. split; [|reflexivity].
  apply issubclass_trans.
Qed.

Lemma is_type_follows_the_hierarchy_witness :
  is_type (sample_A1 1 1) (TClass Any) = true.
Proof.
  apply (proj1 (proj2 (proj2 (proj2
           (is_type_follows_the_hierarchy (sample_A1 1 1) class_A Any)))));
    reflexivity.
Defined.


(** ** print_object and str *)

(** X14. [print_object] of a Void is a fixed text, and its [str] is
    [Void]. For an object that is not a Void, [print_object] returns when
    [repr] accepts every public field and raises the error of the digit
    limit otherwise; an object without public field is dumped as its class
    name and [(no attributes)]; [str] of the object is its [print_object],
    unless a field named [print_object] hides the method: then [str]
    raises. *)
Theorem print_object_and_str :
  forall x : entity,
    (is_void x = true ->
     print_object x = Ok "Void { (empty) }"%string /\
     py_str (obj x) = Ok "Void"%string) /\
    (is_void x = false ->
     (public_ints_ok (odict x) = true -> exists s, print_object x = Ok s) /\
     (public_ints_ok (odict x) = false ->
      print_object x = Raise ValueError_int_digits) /\
     ((forall k, In k (keys (odict x)) -> startswith_underscore k = true) ->
      print_object x
      = Ok (class_name (ocls x) ++ " { (no attributes) }")%string) /\
     (has_key "print_object" (odict x) = false ->
      py_str (obj x) = print_object x) /\
     (has_key "print_object" (odict x) = true ->
      py_str (obj x) = Raise (TypeError_not_callable "print_object"))).
Proof.
  intros x. split.
  - intros Hvoid. unfold print_object. rewrite Hvoid. split; [reflexivity|].
    unfold is_void, is_void_value, isinstance, obj in Hvoid. simpl in Hvoid.
    unfold py_str, obj. rewrite Hvoid. reflexivity.
  - intros Hvoid. unfold print_object. rewrite Hvoid.
    pose proof (General_print_object_outcome x) as Hout.
    split; [|split; [|split; [|split]]].
    + intros Hok. destruct (General_print_object x) as [s|e]; [eauto|].
      destruct Hout as [_ Hout]. congruence.
    + intros Hbad. destruct (General_print_object x) as [s|e]; [congruence|].
      destruct Hout as [-> _]. reflexivity.
    + intros Hpriv. unfold General_print_object.
      assert (E : filter (fun '(attr_name, _) =>
                            negb (startswith_underscore attr_name)) (odict x)
                  = []).
      { clear Hout. revert Hpriv. generalize (odict x) as d.
        induction d as [|[k v] d IH]; intros Hpriv; [reflexivity|].
        simpl. rewrite (Hpriv k (or_introl eq_refl)). simpl.
        apply IH. intros k' Hk'. apply Hpriv. right. exact Hk'. }
      rewrite E. reflexivity.
    + intros Hkey.
      assert (Hv : issubclass (ocls x) Void = false) by exact Hvoid.
      unfold py_str, obj, invoke. rewrite Hv. cbn [odict]. rewrite Hkey.
      unfold print_object.
      assert (Hvoid' : is_void (mkEntity (oid x) (ocls x) (odict x)) = false)
        by exact Hvoid.
      rewrite Hvoid'. destruct x; reflexivity.
    + intros Hkey.
      assert (Hv : issubclass (ocls x) Void = false) by exact Hvoid.
      unfold py_str, obj, invoke. rewrite Hv. cbn [odict]. rewrite Hkey.
      reflexivity.
Qed.

Lemma print_object_and_str_witness :
  py_str (obj sample_mute) = Raise (TypeError_not_callable "print_object") /\
  print_object (mkEntity 32 Person [("_metadata", VDict [])])
  = Ok "Person { (no attributes) }"%string.
Proof.
  split.
  - apply (proj2 (print_object_and_str sample_mute)); reflexivity.
  - apply (proj1 (proj2 (proj2
             (proj2 (print_object_and_str
                       (mkEntity 32 Person [("_metadata", VDict [])]))
                eq_refl)))).
    intros k [<-|[]]. reflexivity.
Defined.

(** ** Reading a pickle *)

(** X15. When the text is a pickle, [deserialize] hands back what the
    pickle holds, whatever the class it was called on: the same classes and
    contents as the pickled value, built of new objects only. *)
Theorem deserialize_pickle_ignores_class :
  forall (h : store) (c : cls) (v : value) (next : nat),
    agrees h v ->
    exists v' next',
      deserialize c (PickleText v) next = Ok (v', next') /\
      next <= next' /\
      same_pickle v v' = true /\
      ids_at_least next v' = true.
Proof.
  intros h c v next Ha.
  unfold deserialize, deserialize_json. simpl.
  destruct (rebuild v next []) as [[v' n1] m1] eqn:E.
  destruct (rebuild_fresh v next next [] v' n1 m1 (Nat.le_refl _)
              (Forall_nil _) E) as (H1 & H2 & _).
  destruct (rebuild_same h v next [] v' n1 m1 Ha (Forall_nil _) E) as (H3 & _).
  exists v', n1. simpl. auto.
Qed.

Lemma deserialize_pickle_ignores_class_witness :
  exists v' next',
    deserialize Car (PickleText (obj sample_person)) 20 = Ok (v', next') /\
    same_pickle (obj sample_person) v' = true.
Proof.
  destruct (deserialize_pickle_ignores_class sample_store Car
              (obj sample_person) 20)
    as (v' & next' & Hrun & _ & Hsame & _).
  - simpl. repeat split.
  - exists v', next'. split; assumption.
Defined.


(** ** The constructors *)

(** X16. [Person(name, age)] and [Car(brand, model, year)], given data,
    build a new object that is no Void, has no metadata under any key,
    shows exactly its constructor arguments as public fields, and is read
    back from its own serialization, by its own class, as an object that
    [equals] it. *)
Theorem constructed_objects_round_trip :
  forall (a b c : value) (next n : nat),
    plain a = true -> plain b = true -> plain c = true ->
    well_formed a = true -> well_formed b = true -> well_formed c = true ->
    let p := fst (Person_new a b next) in
    let k := fst (Car_new a b c next) in
    (oid p = next /\ snd (Person_new a b next) = S next /\
     is_void p = false /\
     (forall key, get_metadata p key = Done VNone) /\
     public_names p = ["age"; "name"] /\
     exists t y,
       serialize p = Ok t /\ deserialize Person t n = Ok (obj y, S n) /\
       equals y (obj p) = true) /\
    (oid k = next /\ snd (Car_new a b c next) = S next /\
     is_void k = false /\
     (forall key, get_metadata k key = Done VNone) /\
     public_names k = ["brand"; "model"; "year"] /\
     exists t y,
       serialize k = Ok t /\ deserialize Car t n = Ok (obj y, S n) /\
       equals y (obj k) = true).
Proof.
  intros a b c next n Hpa Hpb Hpc Hwa Hwb Hwc p k.
  assert (Hround : forall x : entity,
             is_void x = false ->
             well_formed (obj x) = true ->
             plain_fields x = true ->
             settable_fields x = true ->
             pickle_protocol (odict x) = Ok tt ->
             exists t y,
               serialize x = Ok t /\
               deserialize (ocls x) t n = Ok (obj y, S n) /\
               equals y (obj x) = true).
  { intros x Hvoid Hwf Hp Hset Hprot.
    destruct (round_trip_plain x n Hvoid Hwf Hp Hset (or_intror Hprot))
      as (t & y & H1 & H2 & H3 & _).
    exists t, y. auto. }
  split.
  - repeat split; try reflexivity.
    apply (Hround p); try reflexivity.
    + subst p. unfold obj. simpl. rewrite Hwa, Hwb. reflexivity.
    + subst p. unfold plain_fields. simpl. rewrite Hpa, Hpb. reflexivity.
  - repeat split; try reflexivity.
    apply (Hround k); try reflexivity.
    + subst k. unfold obj. simpl. rewrite Hwa, Hwb, Hwc. reflexivity.
    + subst k. unfold plain_fields. simpl. rewrite Hpa, Hpb, Hpc. reflexivity.
Qed.

Lemma constructed_objects_round_trip_witness :
  exists t y,
    serialize (fst (Person_new (VStr "Anna") (VInt 25) 10)) = Ok t /\
    deserialize Person t 20 = Ok (obj y, 21) /\
    equals y (obj (fst (Person_new (VStr "Anna") (VInt 25) 10))) = true.
Proof.
  destruct (constructed_objects_round_trip (VStr "Anna") (VInt 25) VNone 10 20
              eq_refl eq_refl eq_refl eq_refl eq_refl eq_refl)
    as ((_ & _ & _ & _ & _ & t & y & H1 & H2 & H3) & _).
  exists t, y. repeat split; assumption.
Defined.

(** ** The flag of safe_copy_to *)

(** X17. [safe_copy_to] answers true exactly when no field named [copy_to]
    hides the method, [self] is not a Void and the target is an instance of
    the class of [self]; when it answers false the target is as it was. *)
Theorem safe_copy_to_flag :
  forall (self : entity) (target : value),
    exists t,
      safe_copy_to self target
      = Ok (negb (has_key "copy_to" (odict self)) && negb (is_void self) &&
            isinstance target (TClass (ocls self)), t) /\
      (negb (has_key "copy_to" (odict self)) && negb (is_void self) &&
       isinstance target (TClass (ocls self)) = false ->
       t = target).
Proof.
  intros self target. unfold safe_copy_to, invoke.
  destruct (has_key "copy_to" (odict self)); cbn [negb andb bind try_except].
  { exists target. auto. }
  unfold copy_to.
  destruct (is_void self); cbn [negb andb].
  - unfold Void_copy_to. cbn [bind try_except]. exists target. auto.
  - unfold General_copy_to.
    destruct (isinstance target (TClass (ocls self))) eqn:Hin; cbn [negb].
    + destruct (isinstance_entity _ _ Hin) as (t & -> & _).
      rewrite as_entity_obj.
      assert (Hpub : Forall (fun k => startswith_underscore k = false)
                            (public_names self)).
      { apply Forall_forall. intros k Hk. apply public_names_spec in Hk. tauto. }
      destruct (copy_attrs_public self _ Hpub t) as (t' & Hrun & _).
      rewrite Hrun. cbn [bind try_except].
      exists (obj t'). split; [reflexivity|discriminate].
    + cbn [bind try_except]. exists target. auto.
Qed.

Lemma safe_copy_to_flag_witness :
  exists t,
    safe_copy_to sample_person (obj sample_car) = Ok (false, t) /\
    t = obj sample_car.
Proof.
  destruct (safe_copy_to_flag sample_person (obj sample_car)) as (t & Hrun & Hsame).
  exists t. split; [exact Hrun|]. apply Hsame. reflexivity.
Defined.

(** ** The safe round trip *)

(** X18. For a Void on which no field hides [serialize], [safe_serialize]
    gives the fixed text of Void, and [safe_deserialize] reads this text,
    on whatever class, as the Void instance; when a field named
    [serialize] hides the method, [safe_serialize] gives the Void instance
    itself. *)
Theorem safe_round_trip_of_void :
  forall (x : entity) (c : cls) (next : nat),
    is_void x = true ->
    (has_key "serialize" (odict x) = false ->
     safe_serialize x = Ok (AText (JsonText void_document)) /\
     safe_deserialize c (JsonText void_document) next
     = Ok (obj VoidInstance, next)) /\
    (has_key "serialize" (odict x) = true ->
     safe_serialize x = Ok (AValue (obj VoidInstance))).
Proof.
  intros x c next Hvoid. unfold safe_serialize, invoke, serialize.
  rewrite Hvoid. split; intros ->; [split|]; reflexivity.
Qed.

Lemma safe_round_trip_of_void_witness :
  safe_serialize VoidInstance = Ok (AText (JsonText void_document)) /\
  safe_deserialize Person (JsonText void_document) 5 = Ok (obj VoidInstance, 5).
Proof.
  apply (proj1 (safe_round_trip_of_void VoidInstance Person 5 eq_refl)).
  reflexivity.
Defined.

(** ** The order of the fields read back *)

Lemma StronglySorted_map_keys {A B : Type} (f : A -> B) (l : list (string * A)) :
  StronglySorted (key_le fst) l ->
  StronglySorted (key_le fst) (map (fun kv => (fst kv, f (snd kv))) l).
Proof.
  induction 1 as [|kv l Hl IH Hkv]; simpl; constructor.
  - exact IH.
  - rewrite Forall_forall in *. intros y Hy.
    apply in_map_iff in Hy. destruct Hy as (x & <- & Hx).
    apply (Hkv x Hx).
Qed.


(** X19. The object [deserialize] builds from the serialization of an
    object that is not a Void, all of whose fields can be written, has the
    same field names, but in the order of their names, not in the order
    the original received them. *)
Theorem deserialize_orders_fields_by_name :
  forall (T : cls) (x : entity) (next : nat),
    is_void x = false ->
    distinct (keys (odict x)) = true ->
    settable_fields x = true ->
    writable_fields x = true ->
    exists t y,
      serialize x = Ok t /\
      deserialize T t next = Ok (obj y, S next) /\
      StronglySorted (key_le fst) (odict y) /\
      Permutation (keys (odict y)) (keys (odict x)).
Proof.
  intros T x next Hvoid Hd Hset Hwr. apply distinct_NoDup in Hd.
  exists (JsonText (document x)), (mkEntity next T (loaded_fields (odict x))).
  split; [|split; [|split]].
  - unfold serialize. rewrite Hvoid.
    apply General_serialize_document; assumption.
  - apply deserialize_document; assumption.
  - simpl. unfold loaded_fields. apply StronglySorted_map_keys.
    apply sort_by_StronglySorted.
  - apply loaded_fields_keys.
Qed.

Lemma deserialize_orders_fields_by_name_witness :
  exists t y,
    serialize sample_person = Ok t /\
    deserialize Person t 20 = Ok (obj y, 21) /\
    StronglySorted (key_le fst) (odict y).
Proof.
  destruct (deserialize_orders_fields_by_name Person sample_person 20
              eq_refl eq_refl eq_refl eq_refl)
    as (t & y & Hser & Hde & Hsorted & _).
  exists t, y. repeat split; assumption.
Defined.
